(** * pyaudacity_noisered: sample storage and time conversion of the
      Audacity port (WaveTrack.cpp, WaveClip.cpp, Sequence.cpp,
      BlockFile.cpp, SilentBlockFile.cpp, SimpleBlockFile.cpp)

    Conventions of the embedding.

    - [double] and [float] values are exact rationals ([Q]); rounding of
      IEEE arithmetic is outside the model.
    - [sampleCount] (a signed 64-bit count) is [Z]; [size_t] is [nat].
      Values are taken to fit their machine width.
    - A [samplePtr] destination is a memory region [nat -> sample] indexed
      in samples; pointer arithmetic is an offset.
    - A call either returns, throws one of the port's exceptions, or is
      stuck: a failed [assert] (asserts are taken as enabled), an index
      outside a vector, or a loop that makes no progress.  Loops that are
      not structural carry a bound on their rounds, stated where they are
      defined.
    - Writing a block file to disk succeeds; reading it back may deliver
      fewer samples than were written. *)

From Stdlib Require Import ZArith QArith Qround List Bool Lia Arith Lqa.
Import ListNotations.

Local Open Scope Z_scope.

(** ** Outcome of a call *)

Inductive AudacityException : Type :=
| FileException_Read
| InconsistencyException.

Inductive outcome (A : Type) : Type :=
| Returned (a : A)
| Thrown (e : AudacityException)
| Stuck.

Arguments Returned {A} a.
Arguments Thrown {A} e.
Arguments Stuck {A}.

Definition bind {A B : Type} (m : outcome A) (k : A -> outcome B) : outcome B :=
  match m with
  | Returned a => k a
  | Thrown e => Thrown e
  | Stuck => Stuck
  end.

Notation "x <- m ;; k" := (bind m (fun x => k))
  (at level 61, m at next level, right associativity).
Notation "' p <- m ;; k" := (bind m (fun p => k))
  (at level 61, p pattern, m at next level, right associativity).

(** ** Sample formats and memory *)

Inductive sampleFormat : Type := int16Sample | int24Sample | floatSample.

Definition sampleFormat_eqb (a b : sampleFormat) : bool :=
  match a, b with
  | int16Sample, int16Sample => true
  | int24Sample, int24Sample => true
  | floatSample, floatSample => true
  | _, _ => false
  end.

(** [fillFormat]; [fillInvalid] stands for any other enumerator value, the
    last [else] of [WaveTrack::Get]. *)
Inductive fillFormat : Type := fillZero | fillTwo | fillInvalid.

Definition sample : Type := Q.

(** Memory behind a [samplePtr], indexed in samples. *)
Definition memory : Type := nat -> sample.

Definition in_range (lo len j : nat) : bool :=
  (lo <=? j)%nat && (j <? lo + len)%nat.

(** [memcpy]/[memmove] of a run of samples to [ptr]. *)
Definition write_samples (mem : memory) (ptr : nat) (xs : list sample) : memory :=
  fun j => if in_range ptr (length xs) j then nth (j - ptr) xs 0%Q else mem j.

(** The [n] samples at [ptr]. *)
Definition peek_samples (mem : memory) (ptr n : nat) : list sample :=
  map (fun i => mem (ptr + i)%nat) (seq 0 n).

(** [ClearSamples(src, format, start, len)] of SampleFormat.cpp, which is not
    among the sources: zero fill of [len] samples from sample [start] of the
    buffer, as its call sites document it ("fills the remainder of data with
    zeroes", "fill in empty space with zero"). *)
Definition ClearSamples (mem : memory) (ptr : nat) (format : sampleFormat)
    (start len : nat) : memory :=
  fun j => if in_range (ptr + start) len j then 0%Q else mem j.

(** [std::vector::back], when the vector is not empty. *)
Fixpoint back {A : Type} (l : list A) : option A :=
  match l with
  | [] => None
  | [x] => Some x
  | _ :: l' => back l'
  end.

(** The [len] source samples a strided copy visits: [src[i * stride]]. *)
Definition strided (src : list sample) (stride len : nat) : list sample :=
  map (fun i => nth (i * stride) src 0%Q) (seq 0 len).

(** ** External collaborators

    Code the port links against but that is not part of the sources read
    here: the envelope's length update, the per-sample conversion of
    [CopySamples] (SampleFormat.cpp), the conversion libsndfile performs when
    a block file stored in one format is read in another, the [SAMPLE_SIZE]
    macro and the static [Sequence::sMaxDiskBlockSize]. *)
Class Externals : Type := {
  Envelope : Type;
  Envelope_new : Envelope;
  Envelope_SetTrackLen : Q -> Q -> Envelope -> Envelope;
  CopySample : sampleFormat -> sampleFormat -> sample -> sample;
  sf_readf : sampleFormat -> sampleFormat -> sample -> sample;
  SAMPLE_SIZE : sampleFormat -> nat;
  sMaxDiskBlockSize : nat
}.

(** ** Time and sample positions *)

(** [floor(t * rate + 0.5)]. *)
Definition round_to_sample (t : Q) (rate : Z) : Z :=
  Qfloor (t * inject_Z rate + (1 # 2)).

(** ** Block files (BlockFile.cpp, SilentBlockFile.cpp, SimpleBlockFile.cpp)

    A [SimpleBlock] carries [disk], the samples libsndfile can deliver from
    its .au file (fewer than [mLen] when the file is truncated, none when it
    cannot be opened).  The summary values of a simple block file
    ([CalcSummary], which needs square roots) are left out. *)
Inductive BlockFile : Type :=
| SilentBlock (mLen : nat) (mMin mMax mRMS : Q)
| SimpleBlock (mLen : nat) (mFormat : sampleFormat) (disk : list sample).

Definition GetLength (f : BlockFile) : nat :=
  match f with
  | SilentBlock n _ _ _ => n
  | SimpleBlock n _ _ => n
  end.

(** [SilentBlockFile::SilentBlockFile(size_t sampleLen)]. *)
Definition SilentBlockFile (sampleLen : nat) : BlockFile :=
  SilentBlock sampleLen 0 0 0.

(** [SilentBlockFile::ReadData]. *)
Definition SilentBlockFile_ReadData (data : memory) (ptr : nat)
    (format : sampleFormat) (start len : nat) (mayThrow : bool)
    : outcome (nat * memory) :=
  Returned (len, ClearSamples data ptr format 0 len).

Section Model.

Context {X : Externals}.

(** [CopySamples(src, srcFormat, dst, dstFormat, len, highQuality, stride)]. *)
Definition CopySamples (src : list sample) (srcFormat : sampleFormat)
    (dst : memory) (ptr : nat) (dstFormat : sampleFormat)
    (len stride : nat) : memory :=
  write_samples dst ptr (map (CopySample srcFormat dstFormat) (strided src stride len)).

(** [BlockFile::CommonReadData], for a block file whose samples are stored in
    [fileFormat] (origin 0, one channel).  [framesRead] is what libsndfile
    delivers from sample [start] on, at most [len]; the four ways the source
    reads and converts them are the one conversion [sf_readf].  A file that
    cannot be opened or sought delivers nothing. *)
Definition CommonReadData (mayThrow : bool) (disk : list sample)
    (fileFormat : sampleFormat) (data : memory) (ptr : nat)
    (format : sampleFormat) (start len : nat) : outcome (nat * memory) :=
  let avail := skipn start disk in
  let framesRead := Nat.min len (length avail) in
  let data1 :=
    write_samples data ptr (map (sf_readf fileFormat format) (firstn framesRead avail)) in
  if (framesRead <? len)%nat then
    if mayThrow then Thrown FileException_Read
    else Returned (framesRead,
                   ClearSamples data1 ptr format framesRead (len - framesRead))
  else Returned (framesRead, data1).

(** [SimpleBlockFile::ReadData]; the cache is never active in the port
    ([GetCache] returns false). *)
Definition SimpleBlockFile_ReadData (mFormat : sampleFormat)
    (disk : list sample) (data : memory) (ptr : nat) (format : sampleFormat)
    (start len : nat) (mayThrow : bool) : outcome (nat * memory) :=
  CommonReadData mayThrow disk mFormat data ptr format start len.

(** The virtual [BlockFile::ReadData]. *)
Definition ReadData (f : BlockFile) (data : memory) (ptr : nat)
    (format : sampleFormat) (start len : nat) (mayThrow : bool)
    : outcome (nat * memory) :=
  match f with
  | SilentBlock _ _ _ _ => SilentBlockFile_ReadData data ptr format start len mayThrow
  | SimpleBlock _ mFormat disk =>
      SimpleBlockFile_ReadData mFormat disk data ptr format start len mayThrow
  end.

(** [DirManager::NewSimpleBlockFile]: the file is written with the given
    samples; the write itself is taken to succeed. *)
Definition NewSimpleBlockFile (sampleData : list sample) (sampleLen : nat)
    (format : sampleFormat) : BlockFile :=
  SimpleBlock sampleLen format (firstn sampleLen sampleData).

(** ** Sequence (Sequence.cpp) *)

Record SeqBlock : Type := {
  f : BlockFile;
  start : Z
}.

Record Sequence : Type := {
  mBlock : list SeqBlock;
  mSampleFormat : sampleFormat;
  mNumSamples : Z;
  mMinSamples : nat;
  mMaxSamples : nat
}.

(** [Sequence::Sequence(projDirManager, format)]. *)
Definition Sequence_new (format : sampleFormat) : Sequence :=
  let minSamples := (sMaxDiskBlockSize / SAMPLE_SIZE format / 2)%nat in
  {| mBlock := [];
     mSampleFormat := format;
     mNumSamples := 0;
     mMinSamples := minSamples;
     mMaxSamples := (minSamples * 2)%nat |}.

Definition GetMaxBlockSize (s : Sequence) : nat := mMaxSamples s.

Definition GetIdealBlockSize (s : Sequence) : nat := mMaxSamples s.

(** [Sequence::GetIdealAppendLen]. *)
Definition GetIdealAppendLen (s : Sequence) : nat :=
  let max := GetMaxBlockSize s in
  match back (mBlock s) with
  | None => max
  | Some b =>
      let lastBlockLen := GetLength (f b) in
      if (max <=? lastBlockLen)%nat then max else (max - lastBlockLen)%nat
  end.

(** The search loop of [Sequence::FindBlock].  Every round that goes on
    narrows [lo, hi) (the asserts enforce it), so [length mBlock + 1] rounds
    always suffice. *)
Fixpoint FindBlock_loop (fuel : nat) (blocks : list SeqBlock) (pos : Z)
    (lo hi : nat) (loSamples hiSamples : Z) : outcome nat :=
  match fuel with
  | O => Stuck
  | S fuel' =>
      if (pos - loSamples <? 0) || (hiSamples - loSamples <=? 0) then Stuck else
      let frac := (inject_Z (pos - loSamples) / inject_Z (hiSamples - loSamples))%Q in
      let guess :=
        Nat.min (hi - 1)
                (lo + Z.to_nat (Qfloor (frac * inject_Z (Z.of_nat (hi - lo)))))%nat in
      match nth_error blocks guess with
      | None => Stuck
      | Some block =>
          if negb ((0 <? GetLength (f block))%nat
                   && (lo <=? guess)%nat && (guess <? hi)%nat && (lo <? hi)%nat)
          then Stuck
          else if pos <? start block then
            if (lo =? guess)%nat then Stuck
            else FindBlock_loop fuel' blocks pos lo guess loSamples (start block)
          else
            let nextStart := start block + Z.of_nat (GetLength (f block)) in
            if pos <? nextStart then Returned guess
            else if negb (guess <? hi - 1)%nat then Stuck
            else FindBlock_loop fuel' blocks pos (guess + 1)%nat hi nextStart hiSamples
      end
  end.

(** [Sequence::FindBlock]. *)
Definition FindBlock (s : Sequence) (pos : Z) : outcome nat :=
  if negb ((0 <=? pos) && (pos <? mNumSamples s)) then Stuck
  else if pos =? 0 then Returned O
  else
    let numBlocks := length (mBlock s) in
    rval <- FindBlock_loop (S numBlocks) (mBlock s) pos O numBlocks 0 (mNumSamples s) ;;
    match nth_error (mBlock s) rval with
    | None => Stuck
    | Some b =>
        if (rval <? numBlocks)%nat && (start b <=? pos)
           && (pos <? start b + Z.of_nat (GetLength (f b)))
        then Returned rval else Stuck
    end.

(** The static [Sequence::Read]. *)
Definition Sequence_Read (buffer : memory) (ptr : nat) (format : sampleFormat)
    (b : SeqBlock) (blockRelativeStart len : nat) (mayThrow : bool)
    : outcome (bool * memory) :=
  if negb (blockRelativeStart + len <=? GetLength (f b))%nat then Stuck
  else
    '(result, buffer') <- ReadData (f b) buffer ptr format blockRelativeStart len mayThrow ;;
    Returned ((result =? len)%nat, buffer').

(** The loop of [Sequence::Get(int b, ...)], over the blocks from [mBlock[b]]
    on. *)
Fixpoint Sequence_Get_loop (blocks : list SeqBlock) (buffer : memory)
    (ptr : nat) (format : sampleFormat) (start0 : Z) (len : nat)
    (mayThrow : bool) (result : bool) : outcome (bool * memory) :=
  match len with
  | O => Returned (result, buffer)
  | S _ =>
      match blocks with
      | [] => Stuck
      | block :: rest =>
          if start0 - start block <? 0 then Stuck else
          let bstart := Z.to_nat (start0 - start block) in
          let blen := Nat.min len (GetLength (f block) - bstart) in
          '(ok, buffer') <- Sequence_Read buffer ptr format block bstart blen mayThrow ;;
          Sequence_Get_loop rest buffer' (ptr + blen)%nat format
                            (start0 + Z.of_nat blen) (len - blen)%nat mayThrow
                            (result && ok)
      end
  end.

(** [Sequence::Get(int b, buffer, format, start, len, mayThrow)]. *)
Definition Sequence_Get_from (s : Sequence) (b : nat) (buffer : memory)
    (ptr : nat) (format : sampleFormat) (start0 : Z) (len : nat)
    (mayThrow : bool) : outcome (bool * memory) :=
  Sequence_Get_loop (skipn b (mBlock s)) buffer ptr format start0 len mayThrow true.

(** [Sequence::Get(buffer, format, start, len, mayThrow)]. *)
Definition Sequence_Get (s : Sequence) (buffer : memory) (ptr : nat)
    (format : sampleFormat) (start0 : Z) (len : nat) (mayThrow : bool)
    : outcome (bool * memory) :=
  if start0 =? mNumSamples s then Returned ((len =? 0)%nat, buffer)
  else if (start0 <? 0) || (mNumSamples s <? start0 + Z.of_nat len) then
    if mayThrow then Thrown InconsistencyException
    else Returned (false, ClearSamples buffer ptr floatSample 0 len)
  else
    b <- FindBlock s start0 ;;
    Sequence_Get_from s b buffer ptr format start0 len mayThrow.

(** [Sequence::ConsistencyCheck(mBlock, maxSamples, from, mNumSamples, ...)]:
    [true] when no inconsistency is found (otherwise the source reports the
    error and fails [assert(false)]). *)
Fixpoint ConsistencyCheck_loop (blocks : list SeqBlock) (maxSamples : nat)
    (pos : Z) : option Z :=
  match blocks with
  | [] => Some pos
  | seqBlock :: rest =>
      if negb (pos =? start seqBlock) then None
      else if (maxSamples <? GetLength (f seqBlock))%nat then None
      else ConsistencyCheck_loop rest maxSamples
                                 (pos + Z.of_nat (GetLength (f seqBlock)))
  end.

Definition ConsistencyCheck (blocks : list SeqBlock) (maxSamples from : nat)
    (numSamples : Z) : bool :=
  let pos := match nth_error blocks from with
             | Some b => start b
             | None => numSamples
             end in
  if (from =? 0)%nat && negb (pos =? 0) then false
  else match ConsistencyCheck_loop (skipn from blocks) maxSamples pos with
       | Some pos' => pos' =? numSamples
       | None => false
       end.

(** [Sequence::AppendBlocksIfConsistent]. *)
Definition AppendBlocksIfConsistent (s : Sequence)
    (additionalBlocks : list SeqBlock) (replaceLast : bool) (numSamples : Z)
    : outcome Sequence :=
  match additionalBlocks with
  | [] => Returned s
  | _ =>
      let kept := if replaceLast then removelast (mBlock s) else mBlock s in
      let prevSize := length kept in
      let blocks := kept ++ additionalBlocks in
      if ConsistencyCheck blocks (mMaxSamples s) prevSize numSamples then
        Returned {| mBlock := blocks;
                    mSampleFormat := mSampleFormat s;
                    mNumSamples := numSamples;
                    mMinSamples := mMinSamples s;
                    mMaxSamples := mMaxSamples s |}
      else Stuck
  end.

(** The [while (len)] loop of [Sequence::Append] that cuts the rest of the
    buffer into new blocks.  A round consumes [min(idealSamples, len)]
    samples, so [len] rounds suffice unless [idealSamples] is zero, in which
    case the source does not terminate either. *)
Fixpoint Append_new_blocks (fuel : nat) (s : Sequence) (buffer : list sample)
    (format : sampleFormat) (len : nat) (newNumSamples : Z)
    (newBlock : list SeqBlock) (buffer2 : memory)
    : outcome (list SeqBlock * Z) :=
  match len with
  | O => Returned (newBlock, newNumSamples)
  | S _ =>
      match fuel with
      | O => Stuck
      | S fuel' =>
          let idealSamples := GetIdealBlockSize s in
          let addedLen := Nat.min idealSamples len in
          let buffer2' :=
            if sampleFormat_eqb format (mSampleFormat s) then buffer2
            else CopySamples buffer format buffer2 0 (mSampleFormat s) addedLen 1 in
          let pFile :=
            if sampleFormat_eqb format (mSampleFormat s) then
              NewSimpleBlockFile buffer addedLen (mSampleFormat s)
            else
              NewSimpleBlockFile (peek_samples buffer2' 0 addedLen)
                                 addedLen (mSampleFormat s) in
          Append_new_blocks fuel' s (skipn addedLen buffer) format
                            (len - addedLen)%nat
                            (newNumSamples + Z.of_nat addedLen)
                            (newBlock ++ [{| f := pFile; start := newNumSamples |}])
                            buffer2'
      end
  end.

(** [Overflows] of Sequence.cpp. *)
Definition Overflows (numSamples : Z) : bool := 9223372036854775807 <? numSamples.

(** [Sequence::Append(buffer, format, len)].  The scratch [buffer2] starts
    as zeros; only what was written to it is ever read. *)
Definition Sequence_Append (s : Sequence) (buffer : list sample)
    (format : sampleFormat) (len : nat) : outcome Sequence :=
  match len with
  | O => Returned s
  | S _ =>
      if Overflows (mNumSamples s + Z.of_nat len) then Thrown InconsistencyException
      else
        let enlarge :=
          match back (mBlock s) with
          | Some lastBlock =>
              if (GetLength (f lastBlock) <? mMinSamples s)%nat then Some lastBlock
              else None
          | None => None
          end in
        '(newBlock, len1, newNumSamples, buffer1, replaceLast, scratch) <-
          match enlarge with
          | Some lastBlock =>
              let length0 := GetLength (f lastBlock) in
              let addLen := Nat.min (mMaxSamples s - length0) len in
              '(_, buffer2) <- Sequence_Read (fun _ => 0%Q) 0 (mSampleFormat s)
                                             lastBlock 0 length0 true ;;
              let buffer2' := CopySamples buffer format buffer2 length0
                                          (mSampleFormat s) addLen 1 in
              let newLastBlockLen := (length0 + addLen)%nat in
              let newLastBlock :=
                {| f := NewSimpleBlockFile (peek_samples buffer2' 0 newLastBlockLen)
                                           newLastBlockLen (mSampleFormat s);
                   start := start lastBlock |} in
              Returned ([newLastBlock], (len - addLen)%nat,
                        mNumSamples s + Z.of_nat addLen,
                        skipn addLen buffer, true, buffer2')
          | None => Returned ([], len, mNumSamples s, buffer, false, fun _ => 0%Q)
          end ;;
        '(newBlock', newNumSamples') <-
          Append_new_blocks len1 s buffer1 format len1 newNumSamples newBlock scratch ;;
        AppendBlocksIfConsistent s newBlock' replaceLast newNumSamples'
  end.

(** ** WaveClip (WaveClip.cpp)

    [mAppendBuffer] holds the [mAppendBufferLen] valid samples of the append
    buffer; cut lines are not modelled. *)

Record WaveClip : Type := {
  clip_mOffset : Q;
  clip_mRate : Z;
  clip_mDirty : Z;
  mSequence : Sequence;
  mEnvelope : Envelope;
  mAppendBuffer : list sample
}.

Definition mAppendBufferLen (c : WaveClip) : nat := length (mAppendBuffer c).

(** [WaveClip::WaveClip(projDirManager, format, rate)]. *)
Definition WaveClip_new (format : sampleFormat) (rate : Z) : WaveClip :=
  {| clip_mOffset := 0;
     clip_mRate := rate;
     clip_mDirty := 0;
     mSequence := Sequence_new format;
     mEnvelope := Envelope_new;
     mAppendBuffer := [] |}.

Definition GetStartSample (c : WaveClip) : Z :=
  Qfloor (clip_mOffset c * inject_Z (clip_mRate c) + (1 # 2)).

Definition WaveClip_GetNumSamples (c : WaveClip) : Z := mNumSamples (mSequence c).

Definition GetEndSample (c : WaveClip) : Z :=
  GetStartSample c + mNumSamples (mSequence c).

Definition GetSamples (c : WaveClip) (buffer : memory) (ptr : nat)
    (format : sampleFormat) (start0 : Z) (len : nat) (mayThrow : bool)
    : outcome (bool * memory) :=
  Sequence_Get (mSequence c) buffer ptr format start0 len mayThrow.

Definition BeforeClip (c : WaveClip) (t : Q) : bool :=
  let ts := Qfloor (t * inject_Z (clip_mRate c) + (1 # 2)) in
  ts <=? GetStartSample c.

Definition AfterClip (c : WaveClip) (t : Q) : bool :=
  let ts := Qfloor (t * inject_Z (clip_mRate c) + (1 # 2)) in
  GetEndSample c + Z.of_nat (mAppendBufferLen c) <=? ts.

Definition WithinClip (c : WaveClip) (t : Q) : bool :=
  let ts := Qfloor (t * inject_Z (clip_mRate c) + (1 # 2)) in
  (GetStartSample c <? ts) && (ts <? GetEndSample c + Z.of_nat (mAppendBufferLen c)).

Definition SetOffset (c : WaveClip) (offset : Q) : WaveClip :=
  {| clip_mOffset := offset;
     clip_mRate := clip_mRate c;
     clip_mDirty := clip_mDirty c;
     mSequence := mSequence c;
     mEnvelope := mEnvelope c;
     mAppendBuffer := mAppendBuffer c |}.

Definition SetEnvelope (c : WaveClip) (e : Envelope) : WaveClip :=
  {| clip_mOffset := clip_mOffset c;
     clip_mRate := clip_mRate c;
     clip_mDirty := clip_mDirty c;
     mSequence := mSequence c;
     mEnvelope := e;
     mAppendBuffer := mAppendBuffer c |}.

Definition MarkChanged (c : WaveClip) : WaveClip :=
  {| clip_mOffset := clip_mOffset c;
     clip_mRate := clip_mRate c;
     clip_mDirty := clip_mDirty c + 1;
     mSequence := mSequence c;
     mEnvelope := mEnvelope c;
     mAppendBuffer := mAppendBuffer c |}.

Definition UpdateEnvelopeTrackLen (c : WaveClip) : WaveClip :=
  SetEnvelope c
    (Envelope_SetTrackLen
       (inject_Z (mNumSamples (mSequence c)) / inject_Z (clip_mRate c))%Q
       (1 / inject_Z (clip_mRate c))%Q
       (mEnvelope c)).

(** The clip with its sequence and append buffer replaced. *)
Definition with_data (c : WaveClip) (s : Sequence) (buf : list sample) : WaveClip :=
  {| clip_mOffset := clip_mOffset c;
     clip_mRate := clip_mRate c;
     clip_mDirty := clip_mDirty c;
     mSequence := s;
     mEnvelope := mEnvelope c;
     mAppendBuffer := buf |}.

(** [WaveClip::Flush].  The clean-up also runs when [Sequence::Append]
    throws; the clip left behind by an exception is not tracked. *)
Definition WaveClip_Flush (c : WaveClip) : outcome WaveClip :=
  if (0 <? mAppendBufferLen c)%nat then
    s' <- Sequence_Append (mSequence c) (mAppendBuffer c)
                          (mSampleFormat (mSequence c)) (mAppendBufferLen c) ;;
    Returned (MarkChanged (UpdateEnvelopeTrackLen (with_data c s' [])))
  else Returned c.

(** The [for (;;)] loop of [WaveClip::Append].  A round that copies nothing
    is followed by one that flushes and copies, so [2 * len + 2] rounds
    suffice unless the maximum block size is zero, in which case the source
    does not terminate either. *)
Fixpoint WaveClip_Append_loop (fuel : nat) (c : WaveClip) (buffer : list sample)
    (format : sampleFormat) (len stride : nat) (maxBlockSize blockSize : nat)
    : outcome WaveClip :=
  match fuel with
  | O => Stuck
  | S fuel' =>
      let seqFormat := mSampleFormat (mSequence c) in
      '(c1, blockSize1) <-
        (if (blockSize <=? mAppendBufferLen c)%nat then
           s' <- Sequence_Append (mSequence c) (mAppendBuffer c) seqFormat blockSize ;;
           Returned (with_data c s' (skipn blockSize (mAppendBuffer c)),
                     GetIdealAppendLen s')
         else Returned (c, blockSize)) ;;
      match len with
      | O => Returned c1
      | S _ =>
          if negb (mAppendBufferLen c1 <=? maxBlockSize)%nat then Stuck
          else
            let toCopy := Nat.min len (maxBlockSize - mAppendBufferLen c1) in
            let c2 :=
              with_data c1 (mSequence c1)
                (mAppendBuffer c1
                 ++ map (CopySample format seqFormat) (strided buffer stride toCopy)) in
            WaveClip_Append_loop fuel' c2 (skipn (toCopy * stride) buffer) format
                                 (len - toCopy)%nat stride maxBlockSize blockSize1
      end
  end.

(** [WaveClip::Append(buffer, format, len, stride)]. *)
Definition WaveClip_Append (c : WaveClip) (buffer : list sample)
    (format : sampleFormat) (len stride : nat) : outcome WaveClip :=
  let maxBlockSize := GetMaxBlockSize (mSequence c) in
  let blockSize := GetIdealAppendLen (mSequence c) in
  c' <- WaveClip_Append_loop (2 * len + 2) c buffer format len stride
                             maxBlockSize blockSize ;;
  Returned (MarkChanged (UpdateEnvelopeTrackLen c')).

(** ** WaveTrack (WaveTrack.cpp) *)

Record WaveTrack : Type := {
  mClips : list WaveClip;
  mFormat : sampleFormat;
  mRate : Z;
  mGain : Q;
  mPan : Q;
  mOffset : Q;
  mChannel : Z
}.

Definition with_clips (tr : WaveTrack) (clips : list WaveClip) : WaveTrack :=
  {| mClips := clips;
     mFormat := mFormat tr;
     mRate := mRate tr;
     mGain := mGain tr;
     mPan := mPan tr;
     mOffset := mOffset tr;
     mChannel := mChannel tr |}.


Definition Qlt_bool (a b : Q) : bool := negb (Qle_bool b a).

Definition SetPan (tr : WaveTrack) (newPan : Q) : WaveTrack :=
  {| mClips := mClips tr;
     mFormat := mFormat tr;
     mRate := mRate tr;
     mGain := mGain tr;
     mPan := if Qlt_bool 1 newPan then 1
             else if Qlt_bool newPan (-1) then -1
             else newPan;
     mOffset := mOffset tr;
     mChannel := mChannel tr |}.

(** [WaveTrack::GetChannelGain]. *)
Definition GetChannelGain (tr : WaveTrack) (channel : Z) : Q :=
  let right := if Qlt_bool (mPan tr) 0 then (mPan tr + 1)%Q else 1%Q in
  let left := if Qlt_bool (mPan tr) 0 then 1%Q
              else if Qlt_bool 0 (mPan tr) then (1 - mPan tr)%Q else 1%Q in
  if Z.rem channel 2 =? 0 then (left * mGain tr)%Q else (right * mGain tr)%Q.

(** [WaveTrack::TimeToLongSamples]. *)
Definition TimeToLongSamples (tr : WaveTrack) (t0 : Q) : Z :=
  Qfloor (t0 * inject_Z (mRate tr) + (1 # 2)).

(** [WaveTrack::LongSamplesToTime]. *)
Definition LongSamplesToTime (tr : WaveTrack) (pos : Z) : Q :=
  (inject_Z pos / inject_Z (mRate tr))%Q.

(** The second loop of [WaveTrack::Get], over the clips in vector order. *)
Fixpoint Get_clips (clips : list WaveClip) (buffer : memory)
    (format : sampleFormat) (start0 : Z) (len : nat) (mayThrow : bool)
    (result : bool) (samplesCopied : Z) : outcome (bool * memory * Z) :=
  match clips with
  | [] => Returned (result, buffer, samplesCopied)
  | clip :: rest =>
      let clipStart := GetStartSample clip in
      let clipEnd := GetEndSample clip in
      if (start0 <? clipEnd) && (clipStart <? start0 + Z.of_nat len) then
        let samplesToCopy0 :=
          Z.min (start0 + Z.of_nat len - clipStart) (WaveClip_GetNumSamples clip) in
        let startDelta0 := clipStart - start0 in
        let '(inclipDelta, samplesToCopy, startDelta) :=
          if startDelta0 <? 0
          then (- startDelta0, samplesToCopy0 - (- startDelta0), 0)
          else (0, samplesToCopy0, startDelta0) in
        '(ok, buffer') <- GetSamples clip buffer (Z.to_nat startDelta) format
                                     inclipDelta (Z.to_nat samplesToCopy) mayThrow ;;
        if ok
        then Get_clips rest buffer' format start0 len mayThrow result
                       (samplesCopied + samplesToCopy)
        else Get_clips rest buffer' format start0 len mayThrow false samplesCopied
      else Get_clips rest buffer format start0 len mayThrow result samplesCopied
  end.

(** [WaveTrack::Get]; the result is the returned flag, the buffer and the
    value stored through [pNumCopied]. *)
Definition WaveTrack_Get (tr : WaveTrack) (buffer : memory)
    (format : sampleFormat) (start0 : Z) (len : nat) (fill : fillFormat)
    (mayThrow : bool) : outcome (bool * memory * Z) :=
  let doClear :=
    negb (existsb (fun clip => (GetStartSample clip <=? start0)
                               && (start0 + Z.of_nat len <=? GetEndSample clip))
                  (mClips tr)) in
  buffer1 <-
    (if doClear then
       match fill with
       | fillZero => Returned (ClearSamples buffer 0 format 0 len)
       | fillTwo =>
           if sampleFormat_eqb format floatSample
           then Returned (write_samples buffer 0 (repeat (2 # 1)%Q len))
           else Stuck
       | fillInvalid => Returned buffer
       end
     else Returned buffer) ;;
  Get_clips (mClips tr) buffer1 format start0 len mayThrow true 0.

(** Index of the clip [WaveTrack::RightmostOrNewClip] picks among a
    non-empty [mClips]: the first clip of greatest offset. *)
Fixpoint rightmost_index (clips : list WaveClip) (i : nat) (best : nat)
    (maxOffset : Q) : nat :=
  match clips with
  | [] => best
  | clip :: rest =>
      let offset := clip_mOffset clip in
      if Qlt_bool maxOffset offset
      then rightmost_index rest (S i) i offset
      else rightmost_index rest (S i) best maxOffset
  end.

(** [WaveTrack::RightmostOrNewClip]: the track (with the clip [CreateClip]
    adds and [SetOffset] moves to [mOffset] when it had none) and the index
    of the clip returned. *)
Definition RightmostOrNewClip (tr : WaveTrack) : WaveTrack * nat :=
  match mClips tr with
  | [] =>
      (with_clips tr [SetOffset (WaveClip_new (mFormat tr) (mRate tr)) (mOffset tr)],
       O)
  | first :: rest => (tr, rightmost_index rest 1%nat O (clip_mOffset first))
  end.

(** Replace the clip at index [i]. *)
Fixpoint set_clip (clips : list WaveClip) (i : nat) (c : WaveClip) : list WaveClip :=
  match clips, i with
  | [], _ => []
  | _ :: rest, O => c :: rest
  | x :: rest, S i' => x :: set_clip rest i' c
  end.

(** [WaveTrack::Append]. *)
Definition WaveTrack_Append (tr : WaveTrack) (buffer : list sample)
    (format : sampleFormat) (len stride : nat) : outcome WaveTrack :=
  let '(tr1, i) := RightmostOrNewClip tr in
  match nth_error (mClips tr1) i with
  | None => Stuck
  | Some clip =>
      clip' <- WaveClip_Append clip buffer format len stride ;;
      Returned (with_clips tr1 (set_clip (mClips tr1) i clip'))
  end.

(** [WaveTrack::Flush]. *)
Definition WaveTrack_Flush (tr : WaveTrack) : outcome WaveTrack :=
  let '(tr1, i) := RightmostOrNewClip tr in
  match nth_error (mClips tr1) i with
  | None => Stuck
  | Some clip =>
      clip' <- WaveClip_Flush clip ;;
      Returned (with_clips tr1 (set_clip (mClips tr1) i clip'))
  end.

(** ** What a read should deliver, and well-formed stores

    These definitions do not come from a source function; they state the
    expected contents against which the reads above are checked. *)

(** Sample [j] of a block file as a read in [format] delivers it: zero for a
    silent block and past the end of a short file. *)
Definition block_sample (bf : BlockFile) (format : sampleFormat) (j : nat) : sample :=
  match bf with
  | SilentBlock _ _ _ _ => 0%Q
  | SimpleBlock _ fileFormat disk =>
      match nth_error disk j with
      | Some x => sf_readf fileFormat format x
      | None => 0%Q
      end
  end.

(** Sample [i] of the concatenation of the blocks. *)
Fixpoint blocks_sample (blocks : list SeqBlock) (format : sampleFormat) (i : nat)
    : sample :=
  match blocks with
  | [] => 0%Q
  | b :: rest =>
      if (i <? GetLength (f b))%nat then block_sample (f b) format i
      else blocks_sample rest format (i - GetLength (f b))%nat
  end.

Definition sequence_sample (s : Sequence) (format : sampleFormat) (i : nat) : sample :=
  blocks_sample (mBlock s) format i.

(** Total length of a run of blocks. *)
Fixpoint blocks_length (blocks : list SeqBlock) : nat :=
  match blocks with
  | [] => O
  | b :: rest => (GetLength (f b) + blocks_length rest)%nat
  end.

(** The blocks start one after the other, the first at [base]. *)
Fixpoint chained (blocks : list SeqBlock) (base : Z) : Prop :=
  match blocks with
  | [] => True
  | b :: rest =>
      start b = base /\ chained rest (base + Z.of_nat (GetLength (f b)))
  end.

(** Absolute sample position [p] lies inside the clip. *)
Definition covers (c : WaveClip) (p : Z) : bool :=
  (GetStartSample c <=? p) && (p <? GetEndSample c).

(** The clip's stored sample at absolute position [p]. *)
Definition clip_sample (c : WaveClip) (format : sampleFormat) (p : Z) : sample :=
  sequence_sample (mSequence c) format (Z.to_nat (p - GetStartSample c)).

(** What [WaveTrack::Get] leaves at position [p] when the clips are visited
    in order and later clips overwrite earlier ones. *)
Fixpoint last_cover (clips : list WaveClip) (format : sampleFormat) (p : Z)
    (default : sample) : sample :=
  match clips with
  | [] => default
  | c :: rest =>
      last_cover rest format p
                 (if covers c p then clip_sample c format p else default)
  end.

(** What the buffer holds after a [fillZero] read of [len] samples at
    [start0]: inside a clip that clip's stored sample, inside no clip zero,
    beyond [len] what it held before. *)
Definition filled_from_clips (tr : WaveTrack) (buffer buffer' : memory)
    (format : sampleFormat) (start0 : Z) (len : nat) : Prop :=
  (forall j c, (j < len)%nat -> In c (mClips tr) ->
     covers c (start0 + Z.of_nat j) = true ->
     buffer' j = clip_sample c format (start0 + Z.of_nat j))
  /\ (forall j, (j < len)%nat ->
        (forall c, In c (mClips tr) -> covers c (start0 + Z.of_nat j) = false) ->
        buffer' j = 0%Q)
  /\ (forall j, (len <= j)%nat -> buffer' j = buffer j).

(** A sequence that passes [ConsistencyCheck] and has no empty block (the
    [assert] of [FindBlock]). *)
Definition Sequence_ok (s : Sequence) : bool :=
  ConsistencyCheck (mBlock s) (mMaxSamples s) 0 (mNumSamples s)
  && forallb (fun b => (0 <? GetLength (f b))%nat) (mBlock s).

(** The block file delivers all of its [mLen] samples. *)
Definition block_complete (bf : BlockFile) : bool :=
  match bf with
  | SilentBlock _ _ _ _ => true
  | SimpleBlock n _ disk => (n <=? length disk)%nat
  end.

Definition Sequence_complete (s : Sequence) : bool :=
  forallb (fun b => block_complete (f b)) (mBlock s).

(** Sample ranges of two clips do not intersect. *)
Definition clips_apart (c1 c2 : WaveClip) : bool :=
  (GetEndSample c1 <=? GetStartSample c2) || (GetEndSample c2 <=? GetStartSample c1).

Fixpoint no_overlap (clips : list WaveClip) : bool :=
  match clips with
  | [] => true
  | c :: rest => forallb (clips_apart c) rest && no_overlap rest
  end.

(** Every clip of the track has a well-formed sequence. *)
Definition track_ok (tr : WaveTrack) : bool :=
  forallb (fun c => Sequence_ok (mSequence c)) (mClips tr).

(** Every block file of the track delivers all of its samples. *)
Definition track_complete (tr : WaveTrack) : bool :=
  forallb (fun c => Sequence_complete (mSequence c)) (mClips tr).

(** A block written by this sequence: it holds exactly [mLen] samples in the
    sequence's format. *)
Definition block_own (format : sampleFormat) (bf : BlockFile) : bool :=
  match bf with
  | SilentBlock _ _ _ _ => true
  | SimpleBlock n fileFormat disk =>
      (length disk =? n)%nat && sampleFormat_eqb fileFormat format
  end.

(** Block-size settings under which appending makes progress, and blocks
    the sequence wrote itself. *)
Definition Sequence_appendable (s : Sequence) : bool :=
  Sequence_ok s
  && (0 <? mMaxSamples s)%nat && (mMinSamples s <=? mMaxSamples s)%nat
  && forallb (fun b => block_own (mSampleFormat s) (f b)) (mBlock s).

(** [Sequence_appendable], spelled out. *)
Definition Sequence_wf (s : Sequence) : Prop :=
  chained (mBlock s) 0
  /\ mNumSamples s = Z.of_nat (blocks_length (mBlock s))
  /\ Forall (fun b => (0 < GetLength (f b) <= mMaxSamples s)%nat
                      /\ block_own (mSampleFormat s) (f b) = true) (mBlock s)
  /\ (0 < mMaxSamples s)%nat
  /\ (mMinSamples s <= mMaxSamples s)%nat.

(** The samples of a block, in the sequence's format. *)
Definition block_values (bf : BlockFile) : list sample :=
  match bf with
  | SilentBlock n _ _ _ => repeat 0%Q n
  | SimpleBlock _ _ disk => disk
  end.

Definition sequence_values (s : Sequence) : list sample :=
  flat_map (fun b => block_values (f b)) (mBlock s).

(** The summary values a block file reports, when it carries them. *)
Definition summary (bf : BlockFile) : option (Q * Q * Q) :=
  match bf with
  | SilentBlock _ mMin mMax mRMS => Some (mMin, mMax, mRMS)
  | SimpleBlock _ _ _ => None
  end.



(** ** Further functions of WaveClip.cpp and WaveTrack.cpp *)

(** A [double] cast to an integer type: truncation toward zero. *)
Definition truncate (x : Q) : Z :=
  if Qlt_bool x 0 then Qceiling x else Qfloor x.

(** [WaveClip::GetStartTime]. *)
Definition WaveClip_GetStartTime (c : WaveClip) : Q := clip_mOffset c.


(** [WaveClip::TimeToSamplesClip]; the result is the value stored through
    [s0]. *)
Definition TimeToSamplesClip (c : WaveClip) (t0 : Q) : Z :=
  if Qlt_bool t0 (clip_mOffset c) then 0
  else if Qlt_bool (clip_mOffset c
                    + inject_Z (mNumSamples (mSequence c)) / inject_Z (clip_mRate c))%Q
                   t0
  then mNumSamples (mSequence c)
  else Qfloor ((t0 - clip_mOffset c) * inject_Z (clip_mRate c) + (1 # 2)).

(** [WaveTrack::WaveTrack(projDirManager, format, rate)], as
    [TrackFactory::NewWaveTrack] calls it; [mOffset] has its default 0.0 and
    [MonoChannel] is 2. *)
Definition WaveTrack_new (format : sampleFormat) (rate : Q) : WaveTrack :=
  {| mClips := [];
     mFormat := format;
     mRate := truncate rate;
     mGain := 1;
     mPan := 0;
     mOffset := 0;
     mChannel := 2 |}.

Definition SetChannel (tr : WaveTrack) (c : Z) : WaveTrack :=
  {| mClips := mClips tr;
     mFormat := mFormat tr;
     mRate := mRate tr;
     mGain := mGain tr;
     mPan := mPan tr;
     mOffset := mOffset tr;
     mChannel := c |}.






(** [WaveTrack::IsEmpty]. *)
Definition IsEmpty (tr : WaveTrack) (t0 t1 : Q) : bool :=
  if Qlt_bool t1 t0 then true
  else negb (existsb (fun clip => negb (BeforeClip clip t1) && negb (AfterClip clip t0))
                     (mClips tr)).

(** [WaveTrack::NewestOrNewClip]: the track and the index of the clip
    returned. *)
Definition NewestOrNewClip (tr : WaveTrack) : WaveTrack * nat :=
  match mClips tr with
  | [] =>
      (with_clips tr [SetOffset (WaveClip_new (mFormat tr) (mRate tr)) (mOffset tr)],
       O)
  | _ => (tr, (length (mClips tr) - 1)%nat)
  end.

(** ** Further functions of Sequence.cpp *)

(** [Sequence::GetBlockStart]. *)
Definition Sequence_GetBlockStart (s : Sequence) (position : Z) : outcome Z :=
  b <- FindBlock s position ;;
  match nth_error (mBlock s) b with
  | None => Stuck
  | Some blk => Returned (start blk)
  end.

(** The [while] loop of [Sequence::GetBestBlockSize], over the blocks that
    follow [mBlock[b]]. *)
Fixpoint GetBestBlockSize_loop (following : list SeqBlock) (minSamples maxSamples : nat)
    (result : nat) : nat :=
  match following with
  | [] => result
  | next :: rest =>
      if (result <? minSamples)%nat
         && (GetLength (f next) + result <=? maxSamples)%nat
      then GetBestBlockSize_loop rest minSamples maxSamples
                                 (result + GetLength (f next))%nat
      else result
  end.

(** [Sequence::GetBestBlockSize]. *)
Definition Sequence_GetBestBlockSize (s : Sequence) (start0 : Z) : outcome nat :=
  if (start0 <? 0) || (mNumSamples s <=? start0) then Returned (mMaxSamples s)
  else
    b <- FindBlock s start0 ;;
    match nth_error (mBlock s) b with
    | None => Stuck
    | Some block =>
        if start block + Z.of_nat (GetLength (f block)) - start0 <? 0 then Stuck
        else
          let result0 :=
            Z.to_nat (start block + Z.of_nat (GetLength (f block)) - start0) in
          let result :=
            GetBestBlockSize_loop (skipn (S b) (mBlock s)) (mMinSamples s)
                                  (mMaxSamples s) result0 in
          if (0 <? result)%nat && (result <=? mMaxSamples s)%nat
          then Returned result else Stuck
    end.

(** [WaveTrack::GetMaxBlockSize]. *)
Definition WaveTrack_GetMaxBlockSize (tr : WaveTrack) : outcome nat :=
  let maxblocksize :=
    fold_left (fun m clip => Nat.max m (GetMaxBlockSize (mSequence clip)))
              (mClips tr) O in
  let maxblocksize1 :=
    if (maxblocksize =? 0)%nat then GetMaxBlockSize (Sequence_new (mFormat tr))
    else maxblocksize in
  if (0 <? maxblocksize1)%nat then Returned maxblocksize1 else Stuck.

(** The loop of [WaveTrack::GetBestBlockSize]; it places a clip with the
    track's rate. *)
Fixpoint GetBestBlockSize_clips (clips : list WaveClip) (rate : Z) (s : Z)
    (bestBlockSize : nat) : outcome nat :=
  match clips with
  | [] => Returned bestBlockSize
  | clip :: rest =>
      let startSample :=
        Qfloor (WaveClip_GetStartTime clip * inject_Z rate + (1 # 2)) in
      let endSample := startSample + WaveClip_GetNumSamples clip in
      if (startSample <=? s) && (s <? endSample)
      then Sequence_GetBestBlockSize (mSequence clip) (s - startSample)
      else GetBestBlockSize_clips rest rate s bestBlockSize
  end.

(** [WaveTrack::GetBestBlockSize]. *)
Definition WaveTrack_GetBestBlockSize (tr : WaveTrack) (s : Z) : outcome nat :=
  bestBlockSize <- WaveTrack_GetMaxBlockSize tr ;;
  GetBestBlockSize_clips (mClips tr) (mRate tr) s bestBlockSize.

(** [WaveTrack::GetBlockStart]. *)
Fixpoint WaveTrack_GetBlockStart_clips (clips : list WaveClip) (rate : Z) (s : Z)
    : outcome Z :=
  match clips with
  | [] => Returned (-1)
  | clip :: rest =>
      let startSample :=
        Qfloor ((1 # 2) + WaveClip_GetStartTime clip * inject_Z rate) in
      let endSample := startSample + WaveClip_GetNumSamples clip in
      if (startSample <=? s) && (s <? endSample)
      then
        blockStart <- Sequence_GetBlockStart (mSequence clip) (s - startSample) ;;
        Returned (startSample + blockStart)
      else WaveTrack_GetBlockStart_clips rest rate s
  end.

Definition WaveTrack_GetBlockStart (tr : WaveTrack) (s : Z) : outcome Z :=
  WaveTrack_GetBlockStart_clips (mClips tr) (mRate tr) s.

(** ** Rewriting the block array (Sequence.cpp) *)






(** [limitSampleBufferSize(bufferSize, limit)] of Types.h, which is not
    among the sources: the lesser of [bufferSize] and [limit], 0 for a
    negative [limit], as its call sites say ("the std::min is a guard",
    "Never increase rlen here"). *)
Definition limitSampleBufferSize (bufferSize : nat) (limit : Z) : nat :=
  Z.to_nat (Z.min (Z.of_nat bufferSize) (Z.max 0 limit)).

(** ** Overwriting samples (Sequence.cpp, WaveClip.cpp, WaveTrack.cpp) *)

(** The [while] loop of [Sequence::SetSamples] over the blocks from
    [mBlock[b]] on: the blocks it pushes to [newBlock], followed by the
    blocks the final [std::copy] adds.  [buffer] is [None] for a null
    pointer (silence) and otherwise the caller's samples from the current
    position on. *)
Fixpoint SetSamples_loop (seqFormat : sampleFormat) (blocks : list SeqBlock)
    (buffer : option (list sample)) (format : sampleFormat) (start0 len : Z)
    : outcome (list SeqBlock) :=
  match blocks with
  | [] => Returned []
  | block0 :: rest =>
      if len <=? 0 then Returned (block0 :: rest)
      else if start0 - start block0 <? 0 then Stuck
      else
        let bstart := Z.to_nat (start0 - start block0) in
        let fileLength := GetLength (f block0) in
        let blen :=
          limitSampleBufferSize (fileLength - Nat.min bstart fileLength) len in
        if negb ((blen =? 0)%nat || (bstart + blen <=? fileLength)%nat) then Stuck
        else
          let useBuffer :=
            match buffer with
            | Some data =>
                if sampleFormat_eqb format seqFormat then Some data
                else Some (peek_samples
                             (CopySamples data format (fun _ => 0%Q) 0 seqFormat blen 1)
                             0 blen)
            | None => None
            end in
          newFile <-
            (if (0 <? bstart)%nat || (blen <? fileLength)%nat then
               '(_, scratch) <- Sequence_Read (fun _ => 0%Q) 0 seqFormat block0
                                              0 fileLength true ;;
               let scratch1 :=
                 match useBuffer with
                 | Some u => write_samples scratch bstart (firstn blen u)
                 | None => ClearSamples scratch 0 seqFormat bstart blen
                 end in
               Returned (NewSimpleBlockFile (peek_samples scratch1 0 fileLength)
                                            fileLength seqFormat)
             else
               Returned (match useBuffer with
                         | Some u => NewSimpleBlockFile u fileLength seqFormat
                         | None => SilentBlockFile fileLength
                         end)) ;;
          rest1 <- SetSamples_loop seqFormat rest (option_map (skipn blen) buffer)
                                   format (start0 + Z.of_nat blen)
                                   (len - Z.of_nat blen) ;;
          Returned ({| f := newFile; start := start block0 |} :: rest1)
  end.

(** The block array [newBlock] that [Sequence::SetSamples] builds. *)
Definition SetSamples_newBlock (s : Sequence) (buffer : option (list sample))
    (format : sampleFormat) (start0 len : Z) : outcome (list SeqBlock) :=
  if (start0 <? 0) || (mNumSamples s <? start0 + len)
  then Thrown InconsistencyException
  else
    b <- FindBlock s start0 ;;
    replaced <- SetSamples_loop (mSampleFormat s) (skipn b (mBlock s)) buffer
                                format start0 len ;;
    Returned (firstn b (mBlock s) ++ replaced).

(** [Sequence::SetSamples]: the function ends after [newBlock] is complete,
    without a call that would install it. *)
Definition Sequence_SetSamples (s : Sequence) (buffer : option (list sample))
    (format : sampleFormat) (start0 len : Z) : outcome Sequence :=
  _ <- SetSamples_newBlock s buffer format start0 len ;;
  Returned s.

(** [WaveClip::SetSamples]. *)
Definition WaveClip_SetSamples (c : WaveClip) (buffer : option (list sample))
    (format : sampleFormat) (start0 : Z) (len : nat) : outcome WaveClip :=
  s1 <- Sequence_SetSamples (mSequence c) buffer format start0 (Z.of_nat len) ;;
  Returned (MarkChanged (with_data c s1 (mAppendBuffer c))).

(** The loop of [WaveTrack::Set] over the clips. *)
Fixpoint Set_clips (clips : list WaveClip) (buffer : list sample)
    (format : sampleFormat) (start0 : Z) (len : nat) : outcome (list WaveClip) :=
  match clips with
  | [] => Returned []
  | clip :: rest =>
      let clipStart := GetStartSample clip in
      let clipEnd := GetEndSample clip in
      if (start0 <? clipEnd) && (clipStart <? start0 + Z.of_nat len) then
        let samplesToCopy0 :=
          Z.min (start0 + Z.of_nat len - clipStart) (WaveClip_GetNumSamples clip) in
        let startDelta0 := clipStart - start0 in
        let '(inclipDelta, samplesToCopy, startDelta) :=
          if startDelta0 <? 0
          then (- startDelta0, samplesToCopy0 - (- startDelta0), 0)
          else (0, samplesToCopy0, startDelta0) in
        clip1 <- WaveClip_SetSamples clip (Some (skipn (Z.to_nat startDelta) buffer))
                                     format inclipDelta (Z.to_nat samplesToCopy) ;;
        rest1 <- Set_clips rest buffer format start0 len ;;
        Returned (clip1 :: rest1)
      else
        rest1 <- Set_clips rest buffer format start0 len ;;
        Returned (clip :: rest1)
  end.

(** [WaveTrack::Set]. *)
Definition WaveTrack_Set (tr : WaveTrack) (buffer : list sample)
    (format : sampleFormat) (start0 : Z) (len : nat) : outcome WaveTrack :=
  clips1 <- Set_clips (mClips tr) buffer format start0 len ;;
  Returned (with_clips tr clips1).

(** ** Importing a PCM file (ImportPCM.cpp) *)

Inductive ProgressResult : Type := Cancelled | Success | Failed | Stopped.

(** The channel tracks [PCMImportFileHandle::Import] creates; the handle's
    format is always [floatSample], [LeftChannel] is 0 and [RightChannel]
    is 1. *)
Definition Import_channels (channels : nat) (samplerate : Z) : list WaveTrack :=
  map (fun c =>
         let track := WaveTrack_new floatSample (inject_Z samplerate) in
         if (1 <? channels)%nat then
           SetChannel track (match c with O => 0 | 1%nat => 1 | _ => 2 end)
         else track)
      (seq 0 channels).

(** The samples of channel [c] in [block] interleaved frames:
    [srcbuffer[channels * j + c]]. *)
Definition deinterleave (srcbuffer : list sample) (channels c block : nat)
    : list sample :=
  map (fun j => nth (channels * j + c) srcbuffer 0%Q) (seq 0 block).

(** The [for] loop over the channels inside the read loop of [Import]. *)
Fixpoint Import_append (tracks : list WaveTrack) (srcbuffer : list sample)
    (channels c block : nat) : outcome (list WaveTrack) :=
  match tracks with
  | [] => Returned []
  | track :: rest =>
      track1 <- WaveTrack_Append track (deinterleave srcbuffer channels c block)
                                 floatSample block 1 ;;
      rest1 <- Import_append rest srcbuffer channels (S c) block ;;
      Returned (track1 :: rest1)
  end.

(** The [do ... while (block > 0)] loop of [Import].  [file] holds the
    interleaved samples libsndfile has still to deliver, as floats; a read
    delivers whole frames, at most [maxBlock] of them.  Every round but the
    last consumes a frame, so one round more than there are frames
    suffices. *)
Fixpoint Import_loop (fuel : nat) (tracks : list WaveTrack) (file : list sample)
    (channels maxBlock : nat) : outcome (list WaveTrack) :=
  match fuel with
  | O => Stuck
  | S fuel' =>
      let block := Nat.min maxBlock (length file / channels) in
      if (block =? 0)%nat then Returned tracks
      else
        tracks1 <- Import_append tracks (firstn (block * channels) file)
                                 channels 0 block ;;
        Import_loop fuel' tracks1 (skipn (block * channels) file) channels maxBlock
  end.

(** The final loop of [Import] that flushes every channel. *)
Fixpoint Import_flush (tracks : list WaveTrack) : outcome (list WaveTrack) :=
  match tracks with
  | [] => Returned []
  | track :: rest =>
      track1 <- WaveTrack_Flush track ;;
      rest1 <- Import_flush rest ;;
      Returned (track1 :: rest1)
  end.

(** [PCMImportFileHandle::Import]: the result and [outTracks].  Allocating
    the two buffers succeeds at once.  With no channel the source
    dereferences [channels.begin()] of an empty vector before it tests the
    channel count. *)
Definition Import (file : list sample) (channels : nat) (samplerate : Z)
    : outcome (ProgressResult * list WaveTrack) :=
  match Import_channels channels samplerate with
  | [] => Stuck
  | first :: rest =>
      maxBlockSize <- WaveTrack_GetMaxBlockSize first ;;
      if (channels * SAMPLE_SIZE floatSample =? 0)%nat then Stuck
      else
        let maxBlock :=
          Z.to_nat (Z.min (Z.of_nat maxBlockSize)
                          (18446744073709551615
                           / Z.of_nat (channels * SAMPLE_SIZE floatSample))) in
        if (maxBlock <? 1)%nat then Returned (Failed, [])
        else
          tracks1 <- Import_loop (S (length file / channels)) (first :: rest) file
                                 channels maxBlock ;;
          tracks2 <- Import_flush tracks1 ;;
          Returned (Success, tracks2)
  end.

(** ** Further expected contents *)

(** What a position outside every clip holds after [WaveTrack::Get], by
    fill mode. *)
Definition fill_value (fill : fillFormat) (old : sample) : sample :=
  match fill with
  | fillZero => 0%Q
  | fillTwo => (2 # 1)%Q
  | fillInvalid => old
  end.

(** Start sample of a clip as [WaveTrack::GetBlockStart] and
    [WaveTrack::GetBestBlockSize] place it, with the track's rate. *)
Definition track_start_sample (tr : WaveTrack) (c : WaveClip) : Z :=
  Qfloor (WaveClip_GetStartTime c * inject_Z (mRate tr) + (1 # 2)).

(** Position [s] lies inside the clip so placed. *)
Definition track_covers (tr : WaveTrack) (c : WaveClip) (s : Z) : bool :=
  (track_start_sample tr c <=? s)
  && (s <? track_start_sample tr c + WaveClip_GetNumSamples c).

(** The clip [c'] differs from [c] at most in its change counter. *)
Definition same_audio (c c' : WaveClip) : Prop :=
  clip_mOffset c' = clip_mOffset c /\ clip_mRate c' = clip_mRate c
  /\ mSequence c' = mSequence c /\ mAppendBuffer c' = mAppendBuffer c
  /\ mEnvelope c' = mEnvelope c.

(** The channel track of an import holds exactly [vals], stored or
    pending, in at most one clip placed at time 0. *)
Definition channel_holds (tr : WaveTrack) (rate : Z) (vals : list sample) : Prop :=
  mFormat tr = floatSample /\ mOffset tr = 0%Q /\ mRate tr = rate
  /\ match mClips tr with
     | [] => vals = []
     | [c] =>
         Sequence_wf (mSequence c)
         /\ mSampleFormat (mSequence c) = floatSample
         /\ (mAppendBufferLen c <= mMaxSamples (mSequence c))%nat
         /\ sequence_values (mSequence c) ++ mAppendBuffer c = vals
         /\ clip_mOffset c = 0%Q /\ clip_mRate c = rate
     | _ => False
     end.

(** The channel track holds exactly [vals] in one flushed clip placed at
    time 0. *)
Definition channel_flushed (tr : WaveTrack) (rate : Z) (vals : list sample) : Prop :=
  mFormat tr = floatSample /\ mRate tr = rate
  /\ exists c,
       mClips tr = [c]
       /\ Sequence_wf (mSequence c)
       /\ mSampleFormat (mSequence c) = floatSample
       /\ mAppendBuffer c = []
       /\ sequence_values (mSequence c) = vals
       /\ clip_mOffset c = 0%Q /\ clip_mRate c = rate.

(** ** Copying, deleting and pasting sample ranges (Sequence.cpp)

    [sampleCount::as_size_t] (Types.h, which is not among the sources) is
    the count as a size, [Z.to_nat]; the counts it is applied to below are
    not negative for sequences that pass the consistency check. *)









(** ** Further expected contents of block arrays *)


(** Blocks a sequence of format [format] and maximum block size [maxSamples]
    wrote itself: none empty, none longer than [maxSamples]. *)
Definition blocks_own (format : sampleFormat) (maxSamples : nat)
    (blocks : list SeqBlock) : Prop :=
  Forall (fun b => (0 < GetLength (f b) <= maxSamples)%nat
                   /\ block_own format (f b) = true) blocks.


End Model.

(** ** Noise statistics and profiling bounds

    NoiseReduction.cpp is not among the sources; only its header is. *)

(** Modelled from the spec: the sealed [Statistics], per bin [k] the mean
    [meanLog[k]] and the standard deviation [stdevLog[k]] of the log power. *)
Record Statistics : Type := {
  meanLog : list Q;
  stdevLog : list Q
}.

(** Modelled from the spec: [threshold(k, sensitivityDb)] "returns
    [meanLog[k] + (sensitivityDb/10) * stdevLog[k]]". *)
Definition threshold (st : Statistics) (k : nat) (sensitivityDb : Q) : Q :=
  (nth k (meanLog st) 0 + (sensitivityDb / 10) * nth k (stdevLog st) 0)%Q.

(** Modelled from the spec: the instantaneous classification of the
    Classifier, "isNoise[k] = (log(|X_k|^2 + eps) < threshold[k, sensitivity])".
    The frame is given by [logPower], its value [log(|X_k|^2 + eps)] per
    bin. *)
Definition isNoise (st : Statistics) (sensitivityDb : Q) (logPower : list Q)
    (k : nat) : bool :=
  Qlt_bool (nth k logPower 0%Q) (threshold st k sensitivityDb).

(** Modelled from the spec: frequency smoothing, "for each bin k classified
    as signal, also mark bins k-B ... k+B as signal": bin [k] stays noise
    when every bin of the frame within [B] of it is noise. *)
Definition isNoiseSmoothed (st : Statistics) (sensitivityDb : Q)
    (logPower : list Q) (B k : nat) : bool :=
  forallb (fun j => negb ((k - B <=? j)%nat && (j <=? k + B)%nat)
                    || isNoise st sensitivityDb logPower j)
          (seq 0 (length logPower)).

(** Number of bins of the frame a classification marks as noise. *)
Definition countNoise (classify : nat -> bool) (logPower : list Q) : nat :=
  length (filter classify (seq 0 (length logPower))).


(** ** Concrete collaborators and stores used to run the model *)

(** Collaborators with 64-byte disk blocks, two-byte 16-bit samples and
    four-byte 24-bit and float samples, value-preserving conversions and a
    trivial envelope. *)
#[local] Instance small_blocks : Externals := {|
  Envelope := unit;
  Envelope_new := tt;
  Envelope_SetTrackLen := fun _ _ e => e;
  CopySample := fun _ _ x => x;
  sf_readf := fun _ _ x => x;
  SAMPLE_SIZE := fun fmt => match fmt with int16Sample => 2%nat | _ => 4%nat end;
  sMaxDiskBlockSize := 64
|}.

(** A float track without clips. *)
Definition empty_track : WaveTrack :=
  {| mClips := []; mFormat := floatSample; mRate := 44100;
     mGain := 1; mPan := 0; mOffset := 0; mChannel := 2 |}.

(** A sequence of one float block of three samples whose file is complete. *)
Definition three_samples : Sequence :=
  {| mBlock := [ {| f := SimpleBlock 3 floatSample [1 # 4; - (1 # 2); 3 # 4]%Q;
                    start := 0 |} ];
     mSampleFormat := floatSample;
     mNumSamples := 3;
     mMinSamples := 8;
     mMaxSamples := 16 |}.

(** The same sequence after its block file was lost. *)
Definition lost_file : Sequence :=
  {| mBlock := [ {| f := SimpleBlock 3 floatSample []; start := 0 |} ];
     mSampleFormat := floatSample;
     mNumSamples := 3;
     mMinSamples := 8;
     mMaxSamples := 16 |}.

Definition clip_of (s : Sequence) (offset : Q) (pending : list sample) : WaveClip :=
  {| clip_mOffset := offset; clip_mRate := 44100; clip_mDirty := 0;
     mSequence := s; mEnvelope := tt; mAppendBuffer := pending |}.

Definition track_of (clips : list WaveClip) : WaveTrack :=
  {| mClips := clips; mFormat := floatSample; mRate := 44100;
     mGain := 1; mPan := 0; mOffset := 0; mChannel := 2 |}.

(** A profile of two bins, and a frame whose second bin is the louder. *)
Definition two_bins : Statistics :=
  {| meanLog := [0; 0]%Q; stdevLog := [1; 1]%Q |}.

Definition louder_second_bin : list Q := [1 # 2; 2 # 1]%Q.

(** A track of one clip at time zero. *)
Definition one_clip_track (s : Sequence) (pending : list sample) : WaveTrack :=
  track_of [clip_of s 0 pending].


(** Memory holding a recognisable value everywhere. *)
Definition junk : memory := fun _ => (7 # 1)%Q.

(** A sequence of two float blocks, of two and of three samples. *)
Definition five_samples : Sequence :=
  {| mBlock := [ {| f := SimpleBlock 2 floatSample [1 # 4; - (1 # 2)]%Q; start := 0 |};
                 {| f := SimpleBlock 3 floatSample [3 # 4; 1 # 8; - (1 # 8)]%Q;
                    start := 2 |} ];
     mSampleFormat := floatSample;
     mNumSamples := 5;
     mMinSamples := 8;
     mMaxSamples := 16 |}.

(** Three interleaved stereo frames. *)
Definition stereo_file : list sample := [1; 2; 3; 4; 5; 6]%Q.

(** Five samples to store. *)
Definition ramp : list sample := [4; 5; 6; 7; 8]%Q.

(** A block file of four samples whose .au file lost the last two. *)
Definition truncated_file : BlockFile :=
  SimpleBlock 4 floatSample [1 # 4; 1 # 2]%Q.

(** Two clips, the second starting one second after the first. *)
Definition two_clip_track : WaveTrack :=
  track_of [clip_of three_samples 0 []; clip_of five_samples 1 []].

(** * Facts *)

(** ** Rounding to sample positions *)


Lemma floor_unique (x : Q) (n : Z) :
  (inject_Z n <= x)%Q -> (x < inject_Z (n + 1))%Q -> Qfloor x = n.
Proof.
  intros Hlo Hhi.
  assert (H1 : n <= Qfloor x).
  { rewrite <- (Qfloor_Z n). apply Qfloor_resp_le. exact Hlo. }
  assert (H2 : Qfloor x < n + 1).
  { rewrite Zlt_Qlt. eapply Qle_lt_trans; [apply Qfloor_le | exact Hhi]. }
  lia.
Qed.

Lemma round_to_sample_of_sample (n rate : Z) :
  0 < rate -> round_to_sample (inject_Z n / inject_Z rate) rate = n.
Proof.
  intros Hr. unfold round_to_sample.
  assert (Hne : ~ (inject_Z rate == 0)%Q).
  { intro E. unfold Qeq in E. simpl in E. lia. }
  assert (E : (inject_Z n / inject_Z rate * inject_Z rate + (1 # 2)
               == inject_Z n + (1 # 2))%Q).
  { rewrite Qmult_comm, Qmult_div_r by exact Hne. reflexivity. }
  rewrite E. apply floor_unique.
  - rewrite <- (Qplus_0_r (inject_Z n)) at 1.
    apply Qplus_le_r. discriminate.
  - rewrite inject_Z_plus. apply Qplus_lt_r. reflexivity.
Qed.

Section Facts.

Context {X : Externals}.


(** C10: for every nonnegative sample count [n] and every track of positive
    rate, [TimeToLongSamples (LongSamplesToTime n) = n] in exact
    arithmetic. *)
Theorem TimeToLongSamples_LongSamplesToTime (tr : WaveTrack) (n : Z) :
  0 <= n -> 0 < mRate tr ->
  TimeToLongSamples tr (LongSamplesToTime tr n) = n.
Proof.
  intros _ Hr. unfold TimeToLongSamples, LongSamplesToTime.
  exact (round_to_sample_of_sample n (mRate tr) Hr).
Qed.

(** C9: for a clip with at least one sample and an empty append buffer,
    exactly one of [BeforeClip t], [WithinClip t], [AfterClip t] holds at
    every time [t]. *)
Theorem clip_position_trichotomy (c : WaveClip) (t : Q) :
  1 <= WaveClip_GetNumSamples c -> mAppendBufferLen c = O ->
  (BeforeClip c t = true /\ WithinClip c t = false /\ AfterClip c t = false)
  \/ (BeforeClip c t = false /\ WithinClip c t = true /\ AfterClip c t = false)
  \/ (BeforeClip c t = false /\ WithinClip c t = false /\ AfterClip c t = true).
Proof.
  unfold BeforeClip, WithinClip, AfterClip, GetEndSample, WaveClip_GetNumSamples.
  intros Hn Hb. rewrite Hb.
  set (ts := Qfloor (t * inject_Z (clip_mRate c) + (1 # 2))).
  set (s0 := GetStartSample c).
  destruct (Z.leb_spec ts s0); destruct (Z.ltb_spec s0 ts);
    destruct (Z.ltb_spec ts (s0 + mNumSamples (mSequence c) + Z.of_nat 0));
    destruct (Z.leb_spec (s0 + mNumSamples (mSequence c) + Z.of_nat 0) ts);
    simpl; try lia; auto.
Qed.

(** ** Silent block files *)

Lemma ClearSamples_spec (mem : memory) (ptr : nat) (format : sampleFormat)
    (start0 len j : nat) :
  ClearSamples mem ptr format start0 len j
  = if in_range (ptr + start0) len j then 0%Q else mem j.
Proof. reflexivity. Qed.

Lemma in_range_true (lo len j : nat) :
  in_range lo len j = true <-> (lo <= j < lo + len)%nat.
Proof.
  unfold in_range. rewrite andb_true_iff, Nat.leb_le, Nat.ltb_lt. tauto.
Qed.

Lemma in_range_false (lo len j : nat) :
  in_range lo len j = false <-> (j < lo \/ lo + len <= j)%nat.
Proof.
  unfold in_range. rewrite andb_false_iff, Nat.leb_gt, Nat.ltb_ge. tauto.
Qed.

(** C8: whatever the start offset, the length and the sample format,
    [SilentBlockFile::ReadData] returns [len] and leaves [len] zero samples
    at the destination, touching nothing else and not looking at the start
    offset; and a new [SilentBlockFile] of any length reports
    min = max = RMS = 0. *)
Theorem SilentBlockFile_reads_zeros (sampleLen : nat) (data : memory)
    (ptr : nat) (format : sampleFormat) (start0 len : nat) (mayThrow : bool) :
  exists data',
    ReadData (SilentBlockFile sampleLen) data ptr format start0 len mayThrow
    = Returned (len, data')
    /\ (forall j, (ptr <= j < ptr + len)%nat -> data' j = 0%Q)
    /\ (forall j, (j < ptr \/ ptr + len <= j)%nat -> data' j = data j)
    /\ ReadData (SilentBlockFile sampleLen) data ptr format 0 len mayThrow
       = Returned (len, data')
    /\ summary (SilentBlockFile sampleLen) = Some (0%Q, 0%Q, 0%Q).
Proof.
  exists (ClearSamples data ptr format 0 len).
  repeat split; try reflexivity.
  - intros j Hj. rewrite ClearSamples_spec.
    replace (in_range (ptr + 0) len j) with true; [reflexivity|].
    symmetry. apply in_range_true. lia.
  - intros j Hj. rewrite ClearSamples_spec.
    replace (in_range (ptr + 0) len j) with false; [reflexivity|].
    symmetry. apply in_range_false. lia.
Qed.

(** ** Gain, pan and envelopes do not reach [WaveTrack::Get] *)




(** ** Reading one block file *)

Lemma write_samples_spec (mem : memory) (ptr : nat) (xs : list sample) (j : nat) :
  write_samples mem ptr xs j
  = if in_range ptr (length xs) j then nth (j - ptr) xs 0%Q else mem j.
Proof. reflexivity. Qed.

Lemma in_range_dec (lo len j : nat) :
  (in_range lo len j = true /\ (lo <= j < lo + len)%nat)
  \/ (in_range lo len j = false /\ (j < lo \/ lo + len <= j)%nat).
Proof.
  destruct (in_range lo len j) eqn:E.
  - left. split; [reflexivity | apply in_range_true; exact E].
  - right. split; [reflexivity | apply in_range_false; exact E].
Qed.

Lemma nth_delivered (g : sample -> sample) (disk : list sample) (bstart n k : nat) :
  (k < n)%nat -> (k < length (skipn bstart disk))%nat ->
  nth k (map g (firstn n (skipn bstart disk))) 0%Q
  = match nth_error disk (bstart + k) with
    | Some x => g x
    | None => 0%Q
    end.
Proof.
  intros Hk Hlen.
  rewrite <- nth_error_skipn.
  destruct (nth_error (skipn bstart disk) k) as [x|] eqn:E.
  - apply nth_error_nth.
    rewrite nth_error_map, nth_error_firstn.
    destruct (Nat.ltb_spec k n); [|lia]. rewrite E. reflexivity.
  - apply nth_error_None in E. lia.
Qed.

Lemma ReadData_spec (bf : BlockFile) (mem : memory) (ptr : nat)
    (format : sampleFormat) (bstart len : nat) (mayThrow : bool) :
  (bstart + len <= GetLength bf)%nat ->
  mayThrow = false \/ block_complete bf = true ->
  exists r mem',
    ReadData bf mem ptr format bstart len mayThrow = Returned (r, mem')
    /\ (forall j, mem' j = if in_range ptr len j
                           then block_sample bf format (bstart + (j - ptr))
                           else mem j)
    /\ (block_complete bf = true -> r = len).
Proof.
  intros Hlen Hmode.
  destruct bf as [n mn mx rms | n fileFormat disk]; cbn [GetLength] in Hlen.
  - exists len, (ClearSamples mem ptr format 0 len). repeat split.
    intro j. rewrite ClearSamples_spec, Nat.add_0_r.
    destruct (in_range ptr len j); reflexivity.
  - cbn [ReadData block_complete] in *.
    unfold SimpleBlockFile_ReadData, CommonReadData.
    set (avail := skipn bstart disk).
    assert (Havail : length avail = (length disk - bstart)%nat)
      by (unfold avail; apply length_skipn).
    set (framesRead := Nat.min len (length avail)).
    set (data1 := write_samples mem ptr
                    (map (sf_readf fileFormat format) (firstn framesRead avail))).
    assert (Hlen1 : length (map (sf_readf fileFormat format) (firstn framesRead avail))
                    = framesRead).
    { rewrite length_map, length_firstn. unfold framesRead. lia. }
    assert (Hdata1 : forall j,
               data1 j = if in_range ptr framesRead j
                         then block_sample (SimpleBlock n fileFormat disk) format
                                           (bstart + (j - ptr))
                         else mem j).
    { intro j. unfold data1. rewrite write_samples_spec, Hlen1.
      destruct (in_range_dec ptr framesRead j) as [[-> Hj]|[-> Hj]]; [|reflexivity].
      cbn [block_sample]. unfold avail.
      apply nth_delivered; fold avail; unfold framesRead in *; lia. }
    destruct (Nat.ltb_spec framesRead len) as [Hshort|Hfull].
    + assert (Hmt : mayThrow = false).
      { destruct Hmode as [H|H]; [exact H|].
        apply Nat.leb_le in H. unfold framesRead in Hshort. lia. }
      rewrite Hmt.
      exists framesRead, (ClearSamples data1 ptr format framesRead (len - framesRead)).
      split; [reflexivity|]. split.
      * intro j. rewrite ClearSamples_spec, Hdata1.
        destruct (in_range_dec (ptr + framesRead) (len - framesRead) j) as [[-> Hj]|[-> Hj]].
        -- replace (in_range ptr len j) with true
             by (symmetry; apply in_range_true; lia).
           cbn [block_sample].
           replace (nth_error disk (bstart + (j - ptr))) with (@None sample);
             [reflexivity|].
           symmetry. apply nth_error_None. unfold framesRead in *. lia.
        -- destruct (in_range_dec ptr framesRead j) as [[-> Hj']|[-> Hj']].
           ++ replace (in_range ptr len j) with true
                by (symmetry; apply in_range_true; lia).
              reflexivity.
           ++ replace (in_range ptr len j) with false
                by (symmetry; apply in_range_false; lia).
              reflexivity.
      * intro H. apply Nat.leb_le in H. unfold framesRead in Hshort. lia.
    + assert (Hfr : framesRead = len) by (unfold framesRead in *; lia).
      exists framesRead, data1. split; [reflexivity|]. split.
      * intro j. rewrite Hdata1, Hfr. reflexivity.
      * intros _. exact Hfr.
Qed.

(** ** Reading a run of blocks *)

Lemma Sequence_Get_loop_spec (blocks : list SeqBlock) :
  forall (mem : memory) (ptr : nat) (format : sampleFormat) (start0 : Z)
         (len : nat) (mayThrow result : bool) (base : Z),
    chained blocks base ->
    base <= start0 ->
    (Z.to_nat (start0 - base) + len <= blocks_length blocks)%nat ->
    match blocks with
    | b :: _ => (Z.to_nat (start0 - base) <= GetLength (f b))%nat
    | [] => True
    end ->
    mayThrow = false \/ forallb (fun b => block_complete (f b)) blocks = true ->
    exists ok mem',
      Sequence_Get_loop blocks mem ptr format start0 len mayThrow result
      = Returned (ok, mem')
      /\ (forall j, mem' j = if in_range ptr len j
                             then blocks_sample blocks format
                                    (Z.to_nat (start0 - base) + (j - ptr))
                             else mem j)
      /\ (forallb (fun b => block_complete (f b)) blocks = true -> ok = result).
Proof.
  induction blocks as [|block rest IH];
    intros mem ptr format start0 len mayThrow result base Hch Hbase Htot Hfirst Hmode.
  - cbn [blocks_length] in Htot. assert (len = O) by lia. subst len.
    exists result, mem. cbn [Sequence_Get_loop]. repeat split.
    intro j. destruct (in_range_dec ptr 0 j) as [[-> Hj]|[-> Hj]]; [lia|reflexivity].
  - destruct len as [|len'].
    { exists result, mem. cbn [Sequence_Get_loop]. repeat split.
      intro j. destruct (in_range_dec ptr 0 j) as [[-> Hj]|[-> Hj]]; [lia|reflexivity]. }
    set (len := S len') in *.
    cbn [chained] in Hch. destruct Hch as [Hstart Hch].
    cbn [blocks_length] in Htot.
    set (L := GetLength (f block)) in *.
    set (o := Z.to_nat (start0 - base)) in *.
    assert (Hmode_b : mayThrow = false \/ block_complete (f block) = true).
    { destruct Hmode as [H|H]; [left; exact H|right].
      cbn [forallb] in H. apply andb_true_iff in H. apply H. }
    assert (Hmode_r : mayThrow = false
                      \/ forallb (fun b => block_complete (f b)) rest = true).
    { destruct Hmode as [H|H]; [left; exact H|right].
      cbn [forallb] in H. apply andb_true_iff in H. apply H. }
    unfold len at 1. cbn [Sequence_Get_loop]. fold len.
    rewrite Hstart.
    destruct (Z.ltb_spec (start0 - base) 0) as [Hneg|_]; [lia|].
    fold o. fold L.
    set (blen := Nat.min len (L - o)).
    unfold Sequence_Read. fold L.
    destruct (Nat.leb_spec (o + blen) L) as [_|Hbad]; [|unfold blen in Hbad; lia].
    cbn [negb].
    destruct (ReadData_spec (f block) mem ptr format o blen mayThrow)
      as (r & mem1 & Hread & Hmem1 & Hr); [fold L; unfold blen; lia|exact Hmode_b|].
    rewrite Hread. cbn [bind].
    destruct (Nat.le_gt_cases len (L - o)) as [Hfit|Hmore].
    + (* the request ends inside this block *)
      assert (Hblen : blen = len) by (unfold blen; lia).
      rewrite Hblen, Nat.sub_diag.
      exists (result && (r =? len)%nat), mem1.
      split; [destruct rest; reflexivity|]. split.
      * intro j. rewrite Hmem1, Hblen.
        destruct (in_range_dec ptr len j) as [[-> Hj]|[-> Hj]]; [|reflexivity].
        cbn [blocks_sample]. fold L.
        destruct (Nat.ltb_spec (o + (j - ptr)) L); [reflexivity|lia].
      * intro Hc. cbn [forallb] in Hc. apply andb_true_iff in Hc.
        destruct Hc as [Hc _]. specialize (Hr Hc). rewrite Hr, Hblen, Nat.eqb_refl.
        apply andb_true_r.
    + (* it goes on into the next blocks *)
      assert (Hblen : blen = (L - o)%nat) by (unfold blen; lia).
      destruct (IH mem1 (ptr + blen)%nat format (start0 + Z.of_nat blen)
                   (len - blen)%nat mayThrow (result && (r =? blen)%nat)
                   (base + Z.of_nat L) Hch)
        as (ok & mem' & Hrun & Hmem' & Hok); [lia|lia| |exact Hmode_r|].
      { destruct rest; [exact I|lia]. }
      exists ok, mem'. split; [exact Hrun|]. split.
      * intro j. rewrite Hmem', Hmem1.
        replace (Z.to_nat (start0 + Z.of_nat blen - (base + Z.of_nat L))) with O by lia.
        cbn [blocks_sample]. fold L.
        destruct (in_range_dec (ptr + blen) (len - blen) j) as [[-> Hj]|[-> Hj]].
        -- replace (in_range ptr len j) with true
             by (symmetry; apply in_range_true; lia).
           destruct (Nat.ltb_spec (o + (j - ptr)) L); [lia|].
           f_equal. lia.
        -- destruct (in_range_dec ptr blen j) as [[-> Hj']|[-> Hj']].
           ++ replace (in_range ptr len j) with true
                by (symmetry; apply in_range_true; lia).
              destruct (Nat.ltb_spec (o + (j - ptr)) L); [reflexivity|lia].
           ++ replace (in_range ptr len j) with false
                by (symmetry; apply in_range_false; lia).
              reflexivity.
      * intro Hc. cbn [forallb] in Hc. apply andb_true_iff in Hc.
        destruct Hc as [Hc Hcr]. rewrite (Hok Hcr), (Hr Hc), Nat.eqb_refl.
        apply andb_true_r.
Qed.

(** ** Consistent sequences and block starts *)

Lemma prefix_succ (blocks : list SeqBlock) (k : nat) (b : SeqBlock) :
  nth_error blocks k = Some b ->
  blocks_length (firstn (S k) blocks)
  = (blocks_length (firstn k blocks) + GetLength (f b))%nat.
Proof.
  revert k. induction blocks as [|b0 rest IH]; intros [|k] H; try discriminate.
  - injection H as ->. cbn. lia.
  - cbn [nth_error] in H. specialize (IH k H).
    change (firstn (S (S k)) (b0 :: rest)) with (b0 :: firstn (S k) rest).
    change (firstn (S k) (b0 :: rest)) with (b0 :: firstn k rest).
    cbn [blocks_length]. rewrite IH. lia.
Qed.

Lemma prefix_mono (blocks : list SeqBlock) (k k' : nat) :
  (k <= k')%nat ->
  (blocks_length (firstn k blocks) <= blocks_length (firstn k' blocks))%nat.
Proof.
  revert k k'. induction blocks as [|b0 rest IH]; intros k k' Hk.
  - rewrite !firstn_nil. lia.
  - destruct k as [|k]; [cbn; lia|]. destruct k' as [|k']; [lia|].
    cbn [firstn blocks_length]. specialize (IH k k'). lia.
Qed.

Lemma prefix_all (blocks : list SeqBlock) (k : nat) :
  (length blocks <= k)%nat -> blocks_length (firstn k blocks) = blocks_length blocks.
Proof. intro H. rewrite firstn_all2 by exact H. reflexivity. Qed.

Lemma blocks_length_split (blocks : list SeqBlock) (k : nat) :
  blocks_length blocks
  = (blocks_length (firstn k blocks) + blocks_length (skipn k blocks))%nat.
Proof.
  revert k. induction blocks as [|b0 rest IH]; intros [|k]; try reflexivity.
  cbn [firstn skipn blocks_length]. rewrite (IH k). lia.
Qed.

Lemma chained_nth (blocks : list SeqBlock) (base : Z) (k : nat) (b : SeqBlock) :
  chained blocks base -> nth_error blocks k = Some b ->
  start b = base + Z.of_nat (blocks_length (firstn k blocks)).
Proof.
  revert base k. induction blocks as [|b0 rest IH]; intros base [|k] Hch H;
    try discriminate.
  - injection H as ->. cbn in *. lia.
  - cbn [nth_error] in H. cbn [chained] in Hch. destruct Hch as [_ Hch].
    rewrite (IH _ _ Hch H). cbn [firstn blocks_length]. lia.
Qed.

Lemma chained_skipn (blocks : list SeqBlock) (base : Z) (k : nat) :
  chained blocks base ->
  chained (skipn k blocks) (base + Z.of_nat (blocks_length (firstn k blocks))).
Proof.
  revert base k. induction blocks as [|b0 rest IH]; intros base [|k] Hch.
  - exact I.
  - exact I.
  - cbn [skipn firstn blocks_length]. rewrite Z.add_0_r. exact Hch.
  - cbn [chained] in Hch. destruct Hch as [_ Hch].
    cbn [skipn firstn blocks_length]. specialize (IH _ k Hch).
    replace (base + Z.of_nat (GetLength (f b0) + blocks_length (firstn k rest)))
      with (base + Z.of_nat (GetLength (f b0))
            + Z.of_nat (blocks_length (firstn k rest))) by lia.
    exact IH.
Qed.

Lemma blocks_sample_skipn (blocks : list SeqBlock) (format : sampleFormat) (k i : nat) :
  (blocks_length (firstn k blocks) <= i)%nat ->
  blocks_sample blocks format i
  = blocks_sample (skipn k blocks) format (i - blocks_length (firstn k blocks)).
Proof.
  revert k i. induction blocks as [|b0 rest IH]; intros [|k] i Hi.
  - reflexivity.
  - reflexivity.
  - cbn [firstn skipn blocks_length]. rewrite Nat.sub_0_r. reflexivity.
  - cbn [firstn skipn blocks_length] in *. cbn [blocks_sample].
    destruct (Nat.ltb_spec i (GetLength (f b0))); [lia|].
    rewrite (IH k) by lia. f_equal. lia.
Qed.

Lemma ConsistencyCheck_loop_chained (blocks : list SeqBlock) (maxSamples : nat)
    (pos pos' : Z) :
  ConsistencyCheck_loop blocks maxSamples pos = Some pos' ->
  chained blocks pos /\ pos' = pos + Z.of_nat (blocks_length blocks)
  /\ forallb (fun b => (GetLength (f b) <=? maxSamples)%nat) blocks = true.
Proof.
  revert pos. induction blocks as [|b0 rest IH]; intros pos H.
  - cbn in *. injection H as <-. repeat split. lia.
  - cbn [ConsistencyCheck_loop] in H.
    destruct (Z.eqb_spec pos (start b0)) as [E|]; [|discriminate].
    cbn [negb] in H.
    destruct (Nat.ltb_spec maxSamples (GetLength (f b0))); [discriminate|].
    destruct (IH _ H) as (Hch & Hpos & Hmax).
    cbn [chained blocks_length forallb]. repeat split; auto; try lia.
    rewrite Hmax. apply andb_true_iff. split; [apply Nat.leb_le; lia|reflexivity].
Qed.

Lemma Sequence_ok_chained (s : Sequence) :
  Sequence_ok s = true ->
  chained (mBlock s) 0
  /\ mNumSamples s = Z.of_nat (blocks_length (mBlock s))
  /\ forallb (fun b => (0 <? GetLength (f b))%nat) (mBlock s) = true
  /\ forallb (fun b => (GetLength (f b) <=? mMaxSamples s)%nat) (mBlock s) = true.
Proof.
  unfold Sequence_ok, ConsistencyCheck. intro H.
  apply andb_true_iff in H. destruct H as [H Hne].
  cbn [skipn] in H.
  destruct ((0 =? 0)%nat && negb (_ =? 0)) eqn:Efirst; [discriminate|].
  destruct (ConsistencyCheck_loop (mBlock s) (mMaxSamples s) _) as [pos'|] eqn:E;
    [|discriminate].
  apply ConsistencyCheck_loop_chained in E. destruct E as (Hch & Hpos & Hmax).
  apply Z.eqb_eq in H.
  cbn [Nat.eqb andb] in Efirst. apply negb_false_iff, Z.eqb_eq in Efirst.
  rewrite Efirst in *. repeat split; auto. lia.
Qed.

(** ** [FindBlock] finds the block that holds the position *)

Lemma FindBlock_loop_spec (blocks : list SeqBlock) (pos : Z) :
  chained blocks 0 ->
  forallb (fun b => (0 <? GetLength (f b))%nat) blocks = true ->
  forall (fuel lo hi : nat),
    (lo < hi <= length blocks)%nat ->
    (hi - lo <= fuel)%nat ->
    Z.of_nat (blocks_length (firstn lo blocks)) <= pos
    < Z.of_nat (blocks_length (firstn hi blocks)) ->
    exists (b : nat) (blk : SeqBlock),
      FindBlock_loop fuel blocks pos lo hi
                     (Z.of_nat (blocks_length (firstn lo blocks)))
                     (Z.of_nat (blocks_length (firstn hi blocks)))
      = Returned b
      /\ nth_error blocks b = Some blk
      /\ start blk <= pos < start blk + Z.of_nat (GetLength (f blk)).
Proof.
  intros Hch Hne. induction fuel as [|fuel IH]; intros lo hi Hrange Hfuel Hpos.
  - lia.
  - cbn [FindBlock_loop].
    set (P := fun k => blocks_length (firstn k blocks)) in *.
    change (blocks_length (firstn lo blocks)) with (P lo) in *.
    change (blocks_length (firstn hi blocks)) with (P hi) in *.
    destruct (Z.ltb_spec (pos - Z.of_nat (P lo)) 0) as [Hbad|_]; [lia|].
    destruct (Z.leb_spec (Z.of_nat (P hi) - Z.of_nat (P lo)) 0) as [Hbad|_]; [lia|].
    cbn [orb].
    set (guess := Nat.min (hi - 1) _).
    assert (Hguess : (lo <= guess <= hi - 1)%nat) by (unfold guess; lia).
    destruct (nth_error blocks guess) as [block|] eqn:Eblock;
      [|apply nth_error_None in Eblock; lia].
    assert (Hlen : (0 < GetLength (f block))%nat).
    { rewrite forallb_forall in Hne. apply Nat.ltb_lt, Hne.
      eapply nth_error_In. exact Eblock. }
    assert (Hst : start block = Z.of_nat (P guess)).
    { rewrite (chained_nth blocks 0 guess block Hch Eblock). reflexivity. }
    assert (Hnext : P (S guess) = (P guess + GetLength (f block))%nat)
      by (apply prefix_succ; exact Eblock).
    destruct (Nat.ltb_spec 0 (GetLength (f block))) as [_|]; [|lia].
    destruct (Nat.leb_spec lo guess) as [_|]; [|lia].
    destruct (Nat.ltb_spec guess hi) as [_|]; [|lia].
    destruct (Nat.ltb_spec lo hi) as [_|]; [|lia].
    cbn [andb negb].
    destruct (Z.ltb_spec pos (start block)) as [Hbelow|Habove].
    + (* the position is before the guessed block *)
      destruct (Nat.eqb_spec lo guess) as [E|Hneq]; [subst guess; rewrite <- E in Hst; lia|].
      rewrite Hst. unfold P in *. apply IH; lia.
    + destruct (Z.ltb_spec pos (start block + Z.of_nat (GetLength (f block))))
        as [Hin|Hpast].
      * exists guess, block. repeat split; auto.
      * assert (Hlt : (S guess < hi)%nat).
        { destruct (Nat.lt_ge_cases (S guess) hi) as [H|H]; [exact H|].
          pose proof (prefix_mono blocks hi (S guess) H) as Hm.
          fold (P hi) in Hm. fold (P (S guess)) in Hm. lia. }
        destruct (Nat.ltb_spec guess (hi - 1)) as [_|]; [|lia].
        cbn [negb].
        replace (start block + Z.of_nat (GetLength (f block)))
          with (Z.of_nat (P (guess + 1)%nat))
          by (rewrite Nat.add_1_r, Hnext; lia).
        unfold P in *. apply IH; try lia.
        rewrite Nat.add_1_r, Hnext. lia.
Qed.

Lemma FindBlock_spec (s : Sequence) (pos : Z) :
  Sequence_ok s = true -> 0 <= pos < mNumSamples s ->
  exists (b : nat) (blk : SeqBlock),
    FindBlock s pos = Returned b
    /\ nth_error (mBlock s) b = Some blk
    /\ start blk <= pos < start blk + Z.of_nat (GetLength (f blk)).
Proof.
  intros Hok Hpos.
  destruct (Sequence_ok_chained s Hok) as (Hch & Hnum & Hne & _).
  unfold FindBlock.
  destruct (Z.leb_spec 0 pos) as [_|]; [|lia].
  destruct (Z.ltb_spec pos (mNumSamples s)) as [_|]; [|lia].
  cbn [andb negb].
  destruct (Z.eqb_spec pos 0) as [E0|Hnz].
  - destruct (mBlock s) as [|b0 rest] eqn:Eb; [cbn in Hnum; lia|].
    exists O, b0. split; [reflexivity|]. split; [reflexivity|].
    cbn [chained] in Hch. destruct Hch as [Hst _].
    cbn [forallb] in Hne. apply andb_true_iff in Hne. destruct Hne as [Hne _].
    apply Nat.ltb_lt in Hne. lia.
  - destruct (FindBlock_loop_spec (mBlock s) pos Hch Hne
                (S (length (mBlock s))) O (length (mBlock s)))
      as (b & blk & Hrun & Hnth & Hin).
    + destruct (mBlock s); [cbn in Hnum; lia|cbn; lia].
    + lia.
    + rewrite (prefix_all (mBlock s) (length (mBlock s))) by lia.
      cbn [firstn blocks_length]. lia.
    + rewrite (prefix_all (mBlock s) (length (mBlock s))) in Hrun by lia. cbn [firstn blocks_length] in Hrun.
      rewrite <- Hnum in Hrun. change (Z.of_nat 0) with 0 in Hrun.
      rewrite Hrun. cbn [bind]. rewrite Hnth.
      assert (Hb : (b < length (mBlock s))%nat)
        by (apply nth_error_Some; rewrite Hnth; discriminate).
      destruct (Nat.ltb_spec b (length (mBlock s))); [|lia].
      destruct (Z.leb_spec (start blk) pos); [|lia].
      destruct (Z.ltb_spec pos (start blk + Z.of_nat (GetLength (f blk)))); [|lia].
      exists b, blk. repeat split; auto; lia.
Qed.

(** ** [Sequence::Get] delivers the stored samples *)

Lemma Sequence_Get_spec (s : Sequence) (mem : memory) (ptr : nat)
    (format : sampleFormat) (start0 : Z) (len : nat) (mayThrow : bool) :
  Sequence_ok s = true ->
  0 <= start0 -> start0 + Z.of_nat len <= mNumSamples s ->
  mayThrow = false \/ Sequence_complete s = true ->
  exists ok mem',
    Sequence_Get s mem ptr format start0 len mayThrow = Returned (ok, mem')
    /\ (forall j, mem' j = if in_range ptr len j
                           then sequence_sample s format (Z.to_nat start0 + (j - ptr))
                           else mem j)
    /\ (Sequence_complete s = true -> ok = true).
Proof.
  intros Hok Hlo Hhi Hmode.
  destruct (Sequence_ok_chained s Hok) as (Hch & Hnum & Hne & _).
  unfold Sequence_Get.
  destruct (Z.eqb_spec start0 (mNumSamples s)) as [Eend|Hnend].
  - assert (len = O) by lia. subst len.
    exists true, mem. repeat split.
    intro j. destruct (in_range_dec ptr 0 j) as [[-> Hj]|[-> Hj]]; [lia|reflexivity].
  - destruct (Z.ltb_spec start0 0) as [|_]; [lia|].
    destruct (Z.ltb_spec (mNumSamples s) (start0 + Z.of_nat len)) as [|_]; [lia|].
    cbn [orb].
    destruct (FindBlock_spec s start0 Hok) as (b & blk & Hfind & Hnth & Hin); [lia|].
    rewrite Hfind. cbn [bind]. unfold Sequence_Get_from.
    pose proof (chained_nth (mBlock s) 0 b blk Hch Hnth) as Hst.
    pose proof (chained_skipn (mBlock s) 0 b Hch) as Hch'.
    pose proof (blocks_length_split (mBlock s) b) as Hsplit.
    set (P := blocks_length (firstn b (mBlock s))) in *.
    assert (Hskip : exists rest, skipn b (mBlock s) = blk :: rest).
    { clear - Hnth. revert b Hnth. induction (mBlock s) as [|b0 l IH]; intros [|b] H;
        try discriminate.
      - injection H as ->. exists l. reflexivity.
      - cbn [nth_error] in H. cbn [skipn]. apply IH. exact H. }
    destruct Hskip as (rest & Hskip).
    destruct (Sequence_Get_loop_spec (skipn b (mBlock s)) mem ptr format start0 len
                mayThrow true (0 + Z.of_nat P) Hch')
      as (ok & mem' & Hrun & Hmem' & Hflag).
    + lia.
    + lia.
    + rewrite Hskip. lia.
    + destruct Hmode as [H|H]; [left; exact H|right].
      unfold Sequence_complete in H. rewrite forallb_forall in *.
      intros x Hx. apply H.
      rewrite <- (firstn_skipn b (mBlock s)). apply in_or_app. right. exact Hx.
    + exists ok, mem'. split; [exact Hrun|]. split.
      * intro j. rewrite Hmem'.
        destruct (in_range_dec ptr len j) as [[-> Hj]|[-> Hj]]; [|reflexivity].
        unfold sequence_sample.
        rewrite (blocks_sample_skipn (mBlock s) format b
                   (Z.to_nat start0 + (j - ptr))) by (fold P; lia).
        fold P. f_equal. lia.
      * intro Hc. apply Hflag.
        unfold Sequence_complete in Hc. rewrite forallb_forall in *.
        intros x Hx. apply Hc.
        rewrite <- (firstn_skipn b (mBlock s)). apply in_or_app. right. exact Hx.
Qed.

(** ** [WaveTrack::Get] *)

Lemma last_cover_cases (clips : list WaveClip) (format : sampleFormat) (p : Z)
    (d : sample) :
  (last_cover clips format p d = d
   /\ forall c, In c clips -> covers c p = false)
  \/ exists c, In c clips /\ covers c p = true
               /\ last_cover clips format p d = clip_sample c format p.
Proof.
  revert d. induction clips as [|c0 rest IH]; intro d.
  - left. split; [reflexivity|]. intros c [].
  - cbn [last_cover].
    destruct (IH (if covers c0 p then clip_sample c0 format p else d))
      as [[Heq Hnone]|(c & Hin & Hcov & Heq)].
    + destruct (covers c0 p) eqn:E0.
      * right. exists c0. split; [left; reflexivity|]. split; assumption.
      * left. split; [exact Heq|]. intros c [<-|Hin]; auto.
    + right. exists c. split; [right; exact Hin|]. split; assumption.
Qed.

Lemma apart_not_both (c1 c2 : WaveClip) (p : Z) :
  clips_apart c1 c2 = true -> covers c1 p = true -> covers c2 p = false.
Proof.
  unfold clips_apart, covers. intros Ha Hc.
  apply orb_true_iff in Ha. apply andb_true_iff in Hc.
  rewrite !Z.leb_le in *. rewrite Z.ltb_lt in Hc.
  apply andb_false_iff. rewrite Z.leb_gt, Z.ltb_ge. lia.
Qed.

Lemma last_cover_unique (clips : list WaveClip) (format : sampleFormat) (p : Z)
    (d : sample) (c : WaveClip) :
  no_overlap clips = true -> In c clips -> covers c p = true ->
  last_cover clips format p d = clip_sample c format p.
Proof.
  revert d. induction clips as [|c0 rest IH]; intros d Hno Hin Hcov; [destruct Hin|].
  cbn [no_overlap] in Hno. apply andb_true_iff in Hno. destruct Hno as [Hap Hno].
  cbn [last_cover]. destruct Hin as [->|Hin].
  - rewrite Hcov.
    destruct (last_cover_cases rest format p (clip_sample c format p))
      as [[Heq _]|(c' & Hin' & Hcov' & _)]; [exact Heq|].
    rewrite forallb_forall in Hap.
    rewrite (apart_not_both c c' p (Hap c' Hin') Hcov) in Hcov'. discriminate.
  - apply IH; assumption.
Qed.

Lemma Get_clips_spec (clips : list WaveClip) :
  forall (mem : memory) (format : sampleFormat) (start0 : Z) (len : nat)
         (mayThrow result : bool) (copied : Z),
    forallb (fun c => Sequence_ok (mSequence c)) clips = true ->
    mayThrow = false
    \/ forallb (fun c => Sequence_complete (mSequence c)) clips = true ->
    exists ok mem' n,
      Get_clips clips mem format start0 len mayThrow result copied
      = Returned (ok, mem', n)
      /\ forall j, mem' j = if (j <? len)%nat
                            then last_cover clips format (start0 + Z.of_nat j) (mem j)
                            else mem j.
Proof.
  induction clips as [|c rest IH];
    intros mem format start0 len mayThrow result copied Hok Hmode.
  - exists result, mem, copied. split; [reflexivity|].
    intro j. cbn [last_cover]. destruct (j <? len)%nat; reflexivity.
  - cbn [forallb] in Hok. apply andb_true_iff in Hok. destruct Hok as [Hokc Hokr].
    assert (Hmode_c : mayThrow = false \/ Sequence_complete (mSequence c) = true).
    { destruct Hmode as [H|H]; [left; exact H|right].
      cbn [forallb] in H. apply andb_true_iff in H. apply H. }
    assert (Hmode_r : mayThrow = false
              \/ forallb (fun c => Sequence_complete (mSequence c)) rest = true).
    { destruct Hmode as [H|H]; [left; exact H|right].
      cbn [forallb] in H. apply andb_true_iff in H. apply H. }
    destruct (Sequence_ok_chained _ Hokc) as (_ & Hnum & _ & _).
    cbn [Get_clips]. unfold GetEndSample, WaveClip_GetNumSamples.
    set (cs := GetStartSample c) in *.
    set (N := mNumSamples (mSequence c)) in *.
    assert (HN : 0 <= N) by lia.
    assert (Hstep : forall mem1 : memory,
               (forall j, mem1 j = if (j <? len)%nat
                                   then (if covers c (start0 + Z.of_nat j)
                                         then clip_sample c format (start0 + Z.of_nat j)
                                         else mem j)
                                   else mem j) ->
               forall result' copied',
               exists ok mem' n,
                 Get_clips rest mem1 format start0 len mayThrow result' copied'
                 = Returned (ok, mem', n)
                 /\ forall j, mem' j = if (j <? len)%nat
                       then last_cover (c :: rest) format (start0 + Z.of_nat j) (mem j)
                       else mem j).
    { intros mem1 Hmem1 result' copied'.
      destruct (IH mem1 format start0 len mayThrow result' copied' Hokr Hmode_r)
        as (ok & mem' & n & Hrun & Hmem').
      exists ok, mem', n. split; [exact Hrun|].
      intro j. rewrite Hmem', Hmem1. cbn [last_cover].
      destruct (j <? len)%nat; reflexivity. }
    destruct (Z.ltb_spec start0 (cs + N)) as [Hov1|Hno1];
      [destruct (Z.ltb_spec cs (start0 + Z.of_nat len)) as [Hov2|Hno2]|]; cbn [andb].
    + (* the clip and the request intersect *)
      destruct (Z.ltb_spec (cs - start0) 0) as [Hneg|Hpos].
      * (* the clip starts before the request *)
        set (stc := Z.min (start0 + Z.of_nat len - cs) N - - (cs - start0)).
        unfold GetSamples.
        destruct (Sequence_Get_spec (mSequence c) mem (Z.to_nat 0) format
                    (- (cs - start0)) (Z.to_nat stc) mayThrow Hokc)
          as (ok & mem1 & Hget & Hmem1 & _);
          [lia|fold N; unfold stc; lia|exact Hmode_c|].
        rewrite Hget. cbn [bind].
        assert (H1 : forall j, mem1 j = if (j <? len)%nat
                                   then (if covers c (start0 + Z.of_nat j)
                                         then clip_sample c format (start0 + Z.of_nat j)
                                         else mem j)
                                   else mem j).
        { intro j. rewrite Hmem1. unfold covers, GetEndSample. fold cs. fold N.
          destruct (in_range_dec (Z.to_nat 0) (Z.to_nat stc) j) as [[-> Hj]|[-> Hj]].
          - destruct (Nat.ltb_spec j len); [|unfold stc in Hj; lia].
            destruct (Z.leb_spec cs (start0 + Z.of_nat j)); [|lia].
            destruct (Z.ltb_spec (start0 + Z.of_nat j) (cs + N));
              [|unfold stc in Hj; lia].
            cbn [andb]. unfold clip_sample. fold cs. f_equal. lia.
          - destruct (Nat.ltb_spec j len); [|reflexivity].
            destruct (Z.leb_spec cs (start0 + Z.of_nat j)); [|reflexivity].
            destruct (Z.ltb_spec (start0 + Z.of_nat j) (cs + N));
              [unfold stc in Hj; lia|reflexivity]. }
        destruct ok; apply Hstep; exact H1.
      * (* the clip starts inside the request *)
        set (stc := Z.min (start0 + Z.of_nat len - cs) N).
        unfold GetSamples.
        destruct (Sequence_Get_spec (mSequence c) mem (Z.to_nat (cs - start0)) format
                    0 (Z.to_nat stc) mayThrow Hokc)
          as (ok & mem1 & Hget & Hmem1 & _);
          [lia|fold N; unfold stc; lia|exact Hmode_c|].
        rewrite Hget. cbn [bind].
        assert (H1 : forall j, mem1 j = if (j <? len)%nat
                                   then (if covers c (start0 + Z.of_nat j)
                                         then clip_sample c format (start0 + Z.of_nat j)
                                         else mem j)
                                   else mem j).
        { intro j. rewrite Hmem1. unfold covers, GetEndSample. fold cs. fold N.
          destruct (in_range_dec (Z.to_nat (cs - start0)) (Z.to_nat stc) j)
            as [[-> Hj]|[-> Hj]].
          - destruct (Nat.ltb_spec j len); [|unfold stc in Hj; lia].
            destruct (Z.leb_spec cs (start0 + Z.of_nat j)); [|lia].
            destruct (Z.ltb_spec (start0 + Z.of_nat j) (cs + N));
              [|unfold stc in Hj; lia].
            cbn [andb]. unfold clip_sample. fold cs. f_equal. lia.
          - destruct (Nat.ltb_spec j len); [|reflexivity].
            destruct (Z.leb_spec cs (start0 + Z.of_nat j)); [|reflexivity].
            destruct (Z.ltb_spec (start0 + Z.of_nat j) (cs + N));
              [unfold stc in Hj; lia|reflexivity]. }
        destruct ok; apply Hstep; exact H1.
    + apply Hstep. intro j. unfold covers, GetEndSample. fold cs. fold N.
      destruct (Nat.ltb_spec j len); [|reflexivity].
      destruct (Z.leb_spec cs (start0 + Z.of_nat j)); [lia|reflexivity].
    + apply Hstep. intro j. unfold covers, GetEndSample. fold cs. fold N.
      destruct (Nat.ltb_spec j len); [|reflexivity].
      destruct (Z.ltb_spec (start0 + Z.of_nat j) (cs + N)); [lia|].
      rewrite andb_false_r. reflexivity.
Qed.

Lemma request_inside_clip (clips : list WaveClip) (start0 : Z) (len : nat) :
  existsb (fun clip => (GetStartSample clip <=? start0)
                       && (start0 + Z.of_nat len <=? GetEndSample clip)) clips
  = true ->
  exists c, In c clips
            /\ forall j, (j < len)%nat -> covers c (start0 + Z.of_nat j) = true.
Proof.
  intro H. apply existsb_exists in H. destruct H as (c & Hin & Hc).
  exists c. split; [exact Hin|]. intros j Hj.
  apply andb_true_iff in Hc. rewrite !Z.leb_le in Hc.
  unfold covers. apply andb_true_iff. rewrite Z.leb_le, Z.ltb_lt. lia.
Qed.

Lemma Get_fillZero_spec (tr : WaveTrack) (buffer : memory) (format : sampleFormat)
    (start0 : Z) (len : nat) (mayThrow : bool) :
  track_ok tr = true ->
  mayThrow = false \/ track_complete tr = true ->
  exists ok buffer' copied,
    WaveTrack_Get tr buffer format start0 len fillZero mayThrow
    = Returned (ok, buffer', copied)
    /\ (forall j, (j < len)%nat ->
          exists d,
            buffer' j = last_cover (mClips tr) format (start0 + Z.of_nat j) d
            /\ ((forall c, In c (mClips tr) -> covers c (start0 + Z.of_nat j) = false)
                -> buffer' j = 0%Q))
    /\ (forall j, (len <= j)%nat -> buffer' j = buffer j).
Proof.
  intros Hok Hmode. unfold WaveTrack_Get.
  destruct (existsb _ (mClips tr)) eqn:Einside; cbn [negb bind].
  - destruct (Get_clips_spec (mClips tr) buffer format start0 len mayThrow true 0
                Hok Hmode) as (ok & mem' & n & Hrun & Hmem').
    exists ok, mem', n. split; [exact Hrun|]. split.
    + intros j Hj. exists (buffer j). rewrite Hmem'.
      destruct (Nat.ltb_spec j len); [|lia].
      split; [reflexivity|]. intro Hnone.
      destruct (request_inside_clip _ _ _ Einside) as (c0 & Hin0 & Hcov0).
      specialize (Hcov0 j Hj). rewrite (Hnone c0 Hin0) in Hcov0. discriminate.
    + intros j Hj. rewrite Hmem'. destruct (Nat.ltb_spec j len); [lia|reflexivity].
  - destruct (Get_clips_spec (mClips tr) (ClearSamples buffer 0 format 0 len) format
                start0 len mayThrow true 0 Hok Hmode) as (ok & mem' & n & Hrun & Hmem').
    exists ok, mem', n. split; [exact Hrun|]. split.
    + intros j Hj. exists 0%Q. rewrite Hmem'. destruct (Nat.ltb_spec j len); [|lia].
      rewrite ClearSamples_spec.
      replace (in_range (0 + 0) len j) with true
        by (symmetry; apply in_range_true; lia).
      split; [reflexivity|]. intro Hnone.
      destruct (last_cover_cases (mClips tr) format (start0 + Z.of_nat j) 0%Q)
        as [[Heq _]|(c & Hin & Hcov & _)]; [exact Heq|].
      rewrite (Hnone c Hin) in Hcov. discriminate.
    + intros j Hj. rewrite Hmem'. destruct (Nat.ltb_spec j len); [lia|].
      rewrite ClearSamples_spec.
      replace (in_range (0 + 0) len j) with false
        by (symmetry; apply in_range_false; lia).
      reflexivity.
Qed.

(** *** A read that returns with [mayThrow] set returns the same without *)

Lemma ReadData_returns_same (bf : BlockFile) (mem : memory) (ptr : nat)
    (format : sampleFormat) (bstart len : nat) (r : nat * memory) :
  ReadData bf mem ptr format bstart len true = Returned r ->
  ReadData bf mem ptr format bstart len false = Returned r.
Proof.
  destruct bf as [n mn mx rms|n fileFormat disk]; cbn [ReadData]; [exact (fun H => H)|].
  unfold SimpleBlockFile_ReadData, CommonReadData.
  destruct (_ <? len)%nat; [discriminate|exact (fun H => H)].
Qed.

Lemma Sequence_Read_returns_same (mem : memory) (ptr : nat) (format : sampleFormat)
    (b : SeqBlock) (bstart len : nat) (r : bool * memory) :
  Sequence_Read mem ptr format b bstart len true = Returned r ->
  Sequence_Read mem ptr format b bstart len false = Returned r.
Proof.
  unfold Sequence_Read. destruct (negb _); [discriminate|].
  destruct (ReadData (f b) mem ptr format bstart len true) as [r0| |] eqn:E;
    try discriminate.
  rewrite (ReadData_returns_same _ _ _ _ _ _ _ E). exact (fun H => H).
Qed.

Lemma Sequence_Get_loop_returns_same (blocks : list SeqBlock) :
  forall (mem : memory) (ptr : nat) (format : sampleFormat) (start0 : Z)
         (len : nat) (result : bool) (r : bool * memory),
    Sequence_Get_loop blocks mem ptr format start0 len true result = Returned r ->
    Sequence_Get_loop blocks mem ptr format start0 len false result = Returned r.
Proof.
  induction blocks as [|block rest IH]; intros mem ptr format start0 len result r;
    destruct len as [|len']; cbn [Sequence_Get_loop]; try exact (fun H => H).
  destruct (start0 - start block <? 0); [discriminate|].
  destruct (Sequence_Read mem ptr format block _ _ true) as [[ok mem1]| |] eqn:E;
    try discriminate.
  rewrite (Sequence_Read_returns_same _ _ _ _ _ _ _ E). cbn [bind]. apply IH.
Qed.

Lemma Sequence_Get_returns_same (s : Sequence) (mem : memory) (ptr : nat)
    (format : sampleFormat) (start0 : Z) (len : nat) (r : bool * memory) :
  Sequence_Get s mem ptr format start0 len true = Returned r ->
  Sequence_Get s mem ptr format start0 len false = Returned r.
Proof.
  unfold Sequence_Get, Sequence_Get_from.
  destruct (start0 =? mNumSamples s); [exact (fun H => H)|].
  destruct ((start0 <? 0) || (mNumSamples s <? start0 + Z.of_nat len));
    [discriminate|].
  destruct (FindBlock s start0) as [b| |]; cbn [bind]; try discriminate.
  apply Sequence_Get_loop_returns_same.
Qed.

Lemma Get_clips_returns_same (clips : list WaveClip) :
  forall (mem : memory) (format : sampleFormat) (start0 : Z) (len : nat)
         (result : bool) (copied : Z) (r : bool * memory * Z),
    Get_clips clips mem format start0 len true result copied = Returned r ->
    Get_clips clips mem format start0 len false result copied = Returned r.
Proof.
  induction clips as [|c rest IH]; intros mem format start0 len result copied r;
    cbn [Get_clips]; [exact (fun H => H)|].
  destruct ((start0 <? GetEndSample c) && (GetStartSample c <? start0 + Z.of_nat len));
    [|apply IH].
  destruct (if GetStartSample c - start0 <? 0 then _ else _)
    as [[inclipDelta samplesToCopy] startDelta].
  unfold GetSamples.
  destruct (Sequence_Get (mSequence c) mem (Z.to_nat startDelta) format inclipDelta
                         (Z.to_nat samplesToCopy) true) as [[ok mem1]| |] eqn:E;
    try discriminate.
  rewrite (Sequence_Get_returns_same _ _ _ _ _ _ _ E). cbn [bind].
  destruct ok; apply IH.
Qed.

Lemma WaveTrack_Get_returns_same (tr : WaveTrack) (buffer : memory)
    (format : sampleFormat) (start0 : Z) (len : nat) (fill : fillFormat)
    (r : bool * memory * Z) :
  WaveTrack_Get tr buffer format start0 len fill true = Returned r ->
  WaveTrack_Get tr buffer format start0 len fill false = Returned r.
Proof.
  unfold WaveTrack_Get.
  destruct (if negb _ then _ else _) as [buffer1| |]; cbn [bind];
    try discriminate.
  apply Get_clips_returns_same.
Qed.

Lemma block_sample_missing (n : nat) (fileFormat format : sampleFormat)
    (disk : list sample) (j : nat) :
  (length disk <= j)%nat ->
  block_sample (SimpleBlock n fileFormat disk) format j = 0%Q.
Proof.
  intro H. cbn [block_sample].
  replace (nth_error disk j) with (@None sample); [reflexivity|].
  symmetry. apply nth_error_None. exact H.
Qed.

(** C1 (amended): on a track with consistent sequences whose clips do not
    overlap, a [WaveTrack::Get] with fill mode [fillZero] that returns has
    filled exactly [len] samples: a position inside a clip holds that clip's
    stored sample, a position inside no clip holds zero, nothing beyond
    [len] is touched.  The call returns whenever [mayThrow] is false or
    every block file of the track delivers its samples; and the stored
    sample of a position the block file could not deliver is zero. *)
Theorem Get_fills_clip_samples_or_zero (tr : WaveTrack) (buffer : memory)
    (format : sampleFormat) (start0 : Z) (len : nat) (mayThrow : bool) :
  track_ok tr = true ->
  no_overlap (mClips tr) = true ->
  (forall ok buffer' copied,
     WaveTrack_Get tr buffer format start0 len fillZero mayThrow
     = Returned (ok, buffer', copied) ->
     filled_from_clips tr buffer buffer' format start0 len)
  /\ (mayThrow = false \/ track_complete tr = true ->
      exists ok buffer' copied,
        WaveTrack_Get tr buffer format start0 len fillZero mayThrow
        = Returned (ok, buffer', copied))
  /\ (forall n fileFormat disk j, (length disk <= j)%nat ->
        block_sample (SimpleBlock n fileFormat disk) format j = 0%Q).
Proof.
  intros Hok Hno.
  assert (Hspec : forall mt, mt = false \/ track_complete tr = true ->
            exists ok buffer' copied,
              WaveTrack_Get tr buffer format start0 len fillZero mt
              = Returned (ok, buffer', copied)
              /\ filled_from_clips tr buffer buffer' format start0 len).
  { intros mt Hmode.
    destruct (Get_fillZero_spec tr buffer format start0 len mt Hok Hmode)
      as (ok & buffer' & copied & Hrun & Hin & Hout).
    exists ok, buffer', copied. split; [exact Hrun|]. repeat split.
    - intros j c Hj Hc Hcov. destruct (Hin j Hj) as (d & Heq & _).
      rewrite Heq. apply last_cover_unique; assumption.
    - intros j Hj Hnone. destruct (Hin j Hj) as (d & _ & Hz). apply Hz. exact Hnone.
    - exact Hout. }
  split; [|split].
  - intros ok buffer' copied Hrun.
    assert (Hrun' : WaveTrack_Get tr buffer format start0 len fillZero false
                    = Returned (ok, buffer', copied)).
    { destruct mayThrow; [apply WaveTrack_Get_returns_same|]; exact Hrun. }
    destruct (Hspec false (or_introl eq_refl))
      as (ok0 & buffer0 & copied0 & Hrun0 & Hfilled).
    rewrite Hrun0 in Hrun'. injection Hrun' as _ <- _. exact Hfilled.
  - intro Hmode. destruct (Hspec mayThrow Hmode) as (ok & buffer' & copied & Hrun & _).
    exists ok, buffer', copied. exact Hrun.
  - intros. apply block_sample_missing. assumption.
Qed.


(** ** Lists and memory *)

Lemma strided_one (l : list sample) (n : nat) :
  (n <= length l)%nat -> strided l 1 n = firstn n l.
Proof.
  unfold strided. revert n. induction l as [|x l IH]; intros [|n] H;
    try reflexivity; cbn [length] in H; [lia|].
  cbn [seq map firstn]. f_equal.
  rewrite <- seq_shift, map_map. rewrite <- (IH n) by lia.
  apply map_ext. intro i. rewrite !Nat.mul_1_r. reflexivity.
Qed.

Lemma peek_samples_is (xs : list sample) (mem : memory) (p : nat) :
  (forall i, (i < length xs)%nat -> mem (p + i)%nat = nth i xs 0%Q) ->
  peek_samples mem p (length xs) = xs.
Proof.
  unfold peek_samples. revert p. induction xs as [|x xs IH]; intros p H;
    [reflexivity|].
  cbn [length seq map]. f_equal.
  - apply (H O). cbn. lia.
  - rewrite <- seq_shift, map_map. rewrite <- (IH (S p)) at 2.
    + apply map_ext. intro i. f_equal. lia.
    + intros i Hi. specialize (H (S i)). cbn [nth length] in H.
      rewrite <- H by lia. f_equal. lia.
Qed.

Lemma firstn_add_skipn {A : Type} (l : list A) (a b : nat) :
  firstn (a + b) l = firstn a l ++ firstn b (skipn a l).
Proof.
  revert l. induction a as [|a IH]; intros [|x l]; cbn [Nat.add firstn skipn app];
    try reflexivity.
  - rewrite firstn_nil. reflexivity.
  - rewrite IH. reflexivity.
Qed.

Lemma map_id_on {A : Type} (g : A -> A) (l : list A) :
  (forall x, g x = x) -> map g l = l.
Proof.
  intro H. induction l as [|x l IH]; [reflexivity|]. cbn. rewrite H, IH. reflexivity.
Qed.

Lemma back_app_one {A : Type} (l : list A) (x : A) : back (l ++ [x]) = Some x.
Proof.
  induction l as [|y l IH]; [reflexivity|].
  cbn [app back]. destruct (l ++ [x]) eqn:E; [destruct l; discriminate|exact IH].
Qed.

Lemma back_cases {A : Type} (l : list A) :
  (l = [] /\ back l = None)
  \/ exists x, l = removelast l ++ [x] /\ back l = Some x.
Proof.
  destruct l as [|y l]; [left; split; reflexivity|right].
  assert (Hne : y :: l <> []) by discriminate.
  destruct (exists_last Hne) as (l' & x & E). exists x.
  rewrite E. rewrite removelast_last. split; [reflexivity|apply back_app_one].
Qed.

(** ** Well-formed sequences *)

Lemma blocks_length_app (l1 l2 : list SeqBlock) :
  blocks_length (l1 ++ l2) = (blocks_length l1 + blocks_length l2)%nat.
Proof.
  induction l1 as [|b l1 IH]; [reflexivity|]. cbn [app blocks_length]. lia.
Qed.

Lemma chained_app (l1 l2 : list SeqBlock) (base : Z) :
  chained (l1 ++ l2) base
  <-> chained l1 base /\ chained l2 (base + Z.of_nat (blocks_length l1)).
Proof.
  revert base. induction l1 as [|b l1 IH]; intro base; cbn [app chained blocks_length].
  - rewrite Z.add_0_r. tauto.
  - rewrite IH.
    replace (base + Z.of_nat (GetLength (f b) + blocks_length l1))
      with (base + Z.of_nat (GetLength (f b)) + Z.of_nat (blocks_length l1)) by lia.
    tauto.
Qed.

Lemma ConsistencyCheck_loop_complete (blocks : list SeqBlock) (maxSamples : nat)
    (pos : Z) :
  chained blocks pos ->
  Forall (fun b => (GetLength (f b) <= maxSamples)%nat) blocks ->
  ConsistencyCheck_loop blocks maxSamples pos
  = Some (pos + Z.of_nat (blocks_length blocks)).
Proof.
  revert pos. induction blocks as [|b rest IH]; intros pos Hch Hmax.
  - cbn. f_equal. lia.
  - cbn [chained] in Hch. destruct Hch as [Hst Hch].
    apply Forall_cons_iff in Hmax. destruct Hmax as [Hb Hrest].
    cbn [ConsistencyCheck_loop]. rewrite Hst, Z.eqb_refl. cbn [negb].
    destruct (Nat.ltb_spec maxSamples (GetLength (f b))); [lia|].
    rewrite (IH _ Hch Hrest). cbn [blocks_length]. f_equal. lia.
Qed.

Lemma ConsistencyCheck_from (kept added : list SeqBlock) (maxSamples : nat)
    (numSamples : Z) :
  added <> [] ->
  chained (kept ++ added) 0 ->
  Forall (fun b => (GetLength (f b) <= maxSamples)%nat) added ->
  numSamples = Z.of_nat (blocks_length (kept ++ added)) ->
  ConsistencyCheck (kept ++ added) maxSamples (length kept) numSamples = true.
Proof.
  intros Hne Hch Hmax Hnum. unfold ConsistencyCheck.
  destruct added as [|a added]; [contradiction|].
  rewrite nth_error_app2 by lia. rewrite Nat.sub_diag. cbn [nth_error].
  apply chained_app in Hch. destruct Hch as [Hk Ha].
  assert (Hsta : start a = Z.of_nat (blocks_length kept))
    by (cbn [chained] in Ha; lia).
  replace ((length kept =? 0)%nat && negb (start a =? 0)) with false.
  - rewrite skipn_app, Nat.sub_diag, skipn_all. cbn [skipn app].
    rewrite (ConsistencyCheck_loop_complete (a :: added) maxSamples (start a)).
    + apply Z.eqb_eq. rewrite Hnum, blocks_length_app. lia.
    + rewrite Hsta. exact Ha.
    + exact Hmax.
  - symmetry. destruct kept; [|reflexivity].
    cbn in Hsta. rewrite Hsta. reflexivity.
Qed.

Lemma appendable_wf (s : Sequence) :
  Sequence_appendable s = true <-> Sequence_wf s.
Proof.
  unfold Sequence_appendable, Sequence_wf. split.
  - intro H.
    apply andb_true_iff in H. destruct H as [H Hown].
    apply andb_true_iff in H. destruct H as [H Hminmax].
    apply andb_true_iff in H. destruct H as [H Hpos].
    destruct (Sequence_ok_chained s H) as (Hch & Hnum & Hne & Hmax).
    repeat split; auto; try (apply Nat.ltb_lt; assumption);
      try (apply Nat.leb_le; assumption).
    rewrite forallb_forall in *. apply Forall_forall. intros b Hb.
    specialize (Hne b Hb). specialize (Hmax b Hb).
    apply Nat.ltb_lt in Hne. apply Nat.leb_le in Hmax. auto.
  - intros (Hch & Hnum & Hall & Hmax & Hmin).
    rewrite Forall_forall in Hall.
    apply andb_true_iff; split;
      [apply andb_true_iff; split; [apply andb_true_iff; split|]|];
      try (apply Nat.ltb_lt; assumption); try (apply Nat.leb_le; assumption).
    + unfold Sequence_ok. apply andb_true_iff. split.
      * destruct (mBlock s) as [|b0 rest] eqn:E.
        -- unfold ConsistencyCheck. cbn. cbn in Hnum. rewrite Hnum. reflexivity.
        -- apply (ConsistencyCheck_from [] (b0 :: rest)); auto; [discriminate|].
           apply Forall_forall. intros b Hb. apply Hall in Hb. lia.
      * apply forallb_forall. intros b Hb. apply Nat.ltb_lt. apply Hall in Hb. lia.
    + apply forallb_forall. intros b Hb. apply Hall in Hb. tauto.
Qed.

(** ** Appending to a sequence

    The facts of this part hold when a copy between equal formats, and a
    read of a block file in the format it is stored in, leave the sample
    values as they are. *)

Section Appending.

Hypothesis CopySample_same : forall fmt x, CopySample fmt fmt x = x.
Hypothesis sf_readf_same : forall fmt x, sf_readf fmt fmt x = x.

Lemma sampleFormat_eqb_eq (a b : sampleFormat) :
  sampleFormat_eqb a b = true <-> a = b.
Proof. destruct a, b; cbn; split; intro H; try reflexivity; discriminate. Qed.

Lemma peek_written (mem : memory) (p : nat) (ys : list sample) :
  peek_samples (write_samples mem p ys) p (length ys) = ys.
Proof.
  apply peek_samples_is. intros i Hi. rewrite write_samples_spec.
  replace (in_range p (length ys) (p + i)) with true
    by (symmetry; apply in_range_true; lia).
  f_equal. lia.
Qed.

Lemma copied_block (data : list sample) (format fmt : sampleFormat)
    (scratch : memory) (n : nat) :
  (n <= length data)%nat ->
  (if sampleFormat_eqb format fmt then NewSimpleBlockFile data n fmt
   else NewSimpleBlockFile
          (peek_samples (if sampleFormat_eqb format fmt then scratch
                         else CopySamples data format scratch 0 fmt n 1) 0 n)
          n fmt)
  = SimpleBlock n fmt (map (CopySample format fmt) (firstn n data)).
Proof.
  intro Hn. unfold NewSimpleBlockFile.
  destruct (sampleFormat_eqb format fmt) eqn:E.
  - apply sampleFormat_eqb_eq in E. subst fmt.
    rewrite (map_id_on _ _ (CopySample_same format)). reflexivity.
  - unfold CopySamples. rewrite strided_one by exact Hn.
    set (ys := map (CopySample format fmt) (firstn n data)).
    assert (Hys : length ys = n)
      by (unfold ys; rewrite length_map, length_firstn; lia).
    pose proof (peek_written scratch 0 ys) as Hp. rewrite Hys in Hp.
    fold ys. rewrite Hp, firstn_all2 by lia. reflexivity.
Qed.

Lemma Append_new_blocks_spec (s : Sequence) (format : sampleFormat) :
  (0 < mMaxSamples s)%nat ->
  forall (fuel : nat) (data : list sample) (len : nat) (num : Z)
         (newBlock : list SeqBlock) (scratch : memory),
    (len <= fuel)%nat -> (len <= length data)%nat ->
    exists nb,
      Append_new_blocks fuel s data format len num newBlock scratch
      = Returned (newBlock ++ nb, num + Z.of_nat len)
      /\ chained nb num
      /\ blocks_length nb = len
      /\ Forall (fun b => (0 < GetLength (f b) <= mMaxSamples s)%nat
                          /\ block_own (mSampleFormat s) (f b) = true) nb
      /\ flat_map (fun b => block_values (f b)) nb
         = map (CopySample format (mSampleFormat s)) (firstn len data).
Proof.
  intro Hmax. induction fuel as [|fuel IH];
    intros data len num newBlock scratch Hfuel Hdata.
  - assert (len = O) by lia. subst len. exists [].
    cbn. rewrite app_nil_r, Z.add_0_r. repeat split. constructor.
  - destruct len as [|len'].
    { exists []. cbn. rewrite app_nil_r, Z.add_0_r. repeat split. constructor. }
    set (len := S len') in *.
    unfold len at 1. cbn [Append_new_blocks]. fold len.
    unfold GetIdealBlockSize.
    set (addedLen := Nat.min (mMaxSamples s) len).
    assert (Hadded : (0 < addedLen <= len)%nat) by (unfold addedLen; lia).
    rewrite (copied_block data format (mSampleFormat s) scratch addedLen) by lia.
    set (blk := {| f := SimpleBlock addedLen (mSampleFormat s)
                          (map (CopySample format (mSampleFormat s))
                               (firstn addedLen data));
                   start := num |}).
    destruct (IH (skipn addedLen data) (len - addedLen)%nat
                 (num + Z.of_nat addedLen) (newBlock ++ [blk])
                 (if sampleFormat_eqb format (mSampleFormat s) then scratch
                  else CopySamples data format scratch 0 (mSampleFormat s) addedLen 1))
      as (nb & Hrun & Hch & Hlen & Hall & Hvals);
      [lia|rewrite length_skipn; lia|].
    exists (blk :: nb). split.
    + rewrite Hrun. f_equal. f_equal.
      * rewrite <- app_assoc. reflexivity.
      * lia.
    + split; [cbn [chained]; split; [reflexivity|exact Hch]|].
      split; [cbn [blocks_length]; cbn [blk f GetLength]; lia|].
      split.
      * constructor; [|exact Hall]. cbn [blk f GetLength block_own].
        split; [unfold addedLen; lia|].
        rewrite length_map, length_firstn.
        replace (Nat.min addedLen (length data)) with addedLen by lia.
        rewrite Nat.eqb_refl. cbn [andb].
        apply sampleFormat_eqb_eq. reflexivity.
      * cbn [flat_map blk f block_values]. rewrite Hvals, <- map_app.
        f_equal. replace len with (addedLen + (len - addedLen))%nat at 2 by lia.
        symmetry. apply firstn_add_skipn.
Qed.

Lemma own_block_length (fmt : sampleFormat) (bf : BlockFile) :
  block_own fmt bf = true -> length (block_values bf) = GetLength bf.
Proof.
  destruct bf as [n ? ? ?|n ff disk]; cbn [block_own block_values GetLength].
  - intros _. apply repeat_length.
  - intro H. apply andb_true_iff in H. destruct H as [H _].
    apply Nat.eqb_eq in H. exact H.
Qed.

Lemma own_block_complete (fmt : sampleFormat) (bf : BlockFile) :
  block_own fmt bf = true -> block_complete bf = true.
Proof.
  destruct bf as [n ? ? ?|n ff disk]; cbn [block_own block_complete]; [reflexivity|].
  intro H. apply andb_true_iff in H. destruct H as [H _].
  apply Nat.eqb_eq in H. apply Nat.leb_le. lia.
Qed.

Lemma own_block_sample (fmt : sampleFormat) (bf : BlockFile) (i : nat) :
  block_own fmt bf = true -> (i < GetLength bf)%nat ->
  block_sample bf fmt i = nth i (block_values bf) 0%Q.
Proof.
  destruct bf as [n ? ? ?|n ff disk];
    cbn [block_own block_values GetLength block_sample]; intros H Hi.
  - symmetry. apply nth_repeat.
  - apply andb_true_iff in H. destruct H as [Hlen Hfmt].
    apply Nat.eqb_eq in Hlen. apply sampleFormat_eqb_eq in Hfmt. subst ff.
    destruct (nth_error disk i) as [x|] eqn:E.
    + rewrite sf_readf_same. symmetry. apply nth_error_nth. exact E.
    + apply nth_error_None in E. lia.
Qed.

Lemma AppendBlocksIfConsistent_spec (s : Sequence) (kept added : list SeqBlock)
    (replaceLast : bool) (num' : Z) :
  kept = (if replaceLast then removelast (mBlock s) else mBlock s) ->
  added <> [] ->
  chained (kept ++ added) 0 ->
  Forall (fun b => (0 < GetLength (f b) <= mMaxSamples s)%nat
                   /\ block_own (mSampleFormat s) (f b) = true) (kept ++ added) ->
  num' = Z.of_nat (blocks_length (kept ++ added)) ->
  (0 < mMaxSamples s)%nat -> (mMinSamples s <= mMaxSamples s)%nat ->
  exists s',
    AppendBlocksIfConsistent s added replaceLast num' = Returned s'
    /\ mBlock s' = kept ++ added
    /\ mNumSamples s' = num'
    /\ mSampleFormat s' = mSampleFormat s
    /\ mMaxSamples s' = mMaxSamples s
    /\ mMinSamples s' = mMinSamples s
    /\ Sequence_wf s'.
Proof.
  intros Hkept Hne Hch Hall Hnum Hmax Hmin.
  unfold AppendBlocksIfConsistent.
  destruct added as [|a added']; [contradiction|].
  rewrite <- Hkept.
  rewrite (ConsistencyCheck_from kept (a :: added') (mMaxSamples s) num');
    auto.
  - eexists. split; [reflexivity|]. cbn [mBlock mNumSamples mSampleFormat
                                           mMaxSamples mMinSamples].
    repeat split; auto.
  - apply Forall_app in Hall. destruct Hall as [_ Hall].
    eapply Forall_impl; [|exact Hall]. cbn beta. intros b Hb. lia.
Qed.

Lemma Sequence_Append_spec (s : Sequence) (data : list sample)
    (format : sampleFormat) (len : nat) :
  Sequence_wf s ->
  (len <= length data)%nat ->
  mNumSamples s + Z.of_nat len <= 9223372036854775807 ->
  exists s',
    Sequence_Append s data format len = Returned s'
    /\ Sequence_wf s'
    /\ mNumSamples s' = mNumSamples s + Z.of_nat len
    /\ mSampleFormat s' = mSampleFormat s
    /\ mMaxSamples s' = mMaxSamples s
    /\ mMinSamples s' = mMinSamples s
    /\ sequence_values s'
       = sequence_values s
         ++ map (CopySample format (mSampleFormat s)) (firstn len data).
Proof.
  intros Hwf Hdata Hfit.
  destruct len as [|len'].
  { exists s. cbn [Sequence_Append firstn map]. rewrite app_nil_r, Z.add_0_r.
    split; [reflexivity|]. split; [exact Hwf|]. repeat split. }
  set (len := S len') in *.
  pose proof Hwf as (Hch & Hnum & Hall & Hmax & Hmin).
  unfold len at 1. cbn [Sequence_Append]. fold len.
  unfold Overflows.
  destruct (Z.ltb_spec 9223372036854775807 (mNumSamples s + Z.of_nat len)); [lia|].
  set (conv := CopySample format (mSampleFormat s)).
  (* the common last step: cut the rest into new blocks and commit *)
  assert (Hfinish : forall (kept first : list SeqBlock) (replaceLast : bool)
                      (data1 : list sample) (len1 : nat) (num1 : Z)
                      (scratch : memory) (vals : list sample),
             kept = (if replaceLast then removelast (mBlock s) else mBlock s) ->
             (len1 <= length data1)%nat ->
             (first <> [] \/ 0 < len1)%nat ->
             chained (kept ++ first) 0 ->
             num1 = Z.of_nat (blocks_length (kept ++ first)) ->
             Forall (fun b => (0 < GetLength (f b) <= mMaxSamples s)%nat
                              /\ block_own (mSampleFormat s) (f b) = true)
                    (kept ++ first) ->
             num1 + Z.of_nat len1 = mNumSamples s + Z.of_nat len ->
             flat_map (fun b => block_values (f b)) (kept ++ first)
             ++ map conv (firstn len1 data1)
             = sequence_values s ++ map conv (firstn len data) ->
             exists s',
               (r <- Append_new_blocks len1 s data1 format len1 num1 first scratch ;;
                let '(newBlock', newNumSamples') := r in
                AppendBlocksIfConsistent s newBlock' replaceLast newNumSamples')
               = Returned s'
               /\ Sequence_wf s'
               /\ mNumSamples s' = mNumSamples s + Z.of_nat len
               /\ mSampleFormat s' = mSampleFormat s
               /\ mMaxSamples s' = mMaxSamples s
               /\ mMinSamples s' = mMinSamples s
               /\ sequence_values s' = sequence_values s ++ map conv (firstn len data)).
  { intros kept first replaceLast data1 len1 num1 scratch vals
           Hkept Hd1 Hne Hchk Hnum1 Hallk Htot Hvals.
    destruct (Append_new_blocks_spec s format Hmax len1 data1 len1 num1 first scratch)
      as (nb & Hrun & Hchn & Hlen & Halln & Hvn); [lia|exact Hd1|].
    rewrite Hrun. cbn [bind].
    destruct (AppendBlocksIfConsistent_spec s kept (first ++ nb) replaceLast
                (num1 + Z.of_nat len1) Hkept)
      as (s' & Hcommit & Hblocks & Hn' & Hf' & Hmax' & Hmin' & Hwf'); auto.
    - destruct Hne as [Hne|Hne].
      + intro E. apply app_eq_nil in E. destruct E. contradiction.
      + intro E. apply app_eq_nil in E. destruct E as [_ E]. subst nb.
        cbn in Hlen. lia.
    - rewrite app_assoc. apply chained_app. split; [exact Hchk|].
      rewrite Z.add_0_l, <- Hnum1. exact Hchn.
    - rewrite app_assoc. apply Forall_app. split; assumption.
    - rewrite app_assoc, blocks_length_app, Hlen. lia.
    - exists s'. split; [exact Hcommit|]. split; [exact Hwf'|].
      split; [lia|]. split; [exact Hf'|]. split; [exact Hmax'|].
      split; [exact Hmin'|].
      unfold sequence_values at 1. rewrite Hblocks, app_assoc, flat_map_app, Hvn.
      exact Hvals. }
  destruct (back_cases (mBlock s)) as [[Hnil Hback]|(lb & Hsplit & Hback)].
  - (* no block yet *)
    rewrite Hback. cbn [bind].
    apply (Hfinish (mBlock s) [] false data len (mNumSamples s) (fun _ => 0%Q) []);
      auto; try lia; rewrite ?app_nil_r; auto.
  - rewrite Hback.
    assert (Hlb : In lb (mBlock s)).
    { rewrite Hsplit. apply in_or_app. right. left. reflexivity. }
    pose proof Hall as Hall'. rewrite Forall_forall in Hall'.
    destruct (Hall' lb Hlb) as [HL Hown].
    destruct (Nat.ltb_spec (GetLength (f lb)) (mMinSamples s)) as [Hsmall|Hbig].
    + (* the last block is enlarged *)
      set (L0 := GetLength (f lb)) in *.
      set (addLen := Nat.min (mMaxSamples s - L0) len).
      assert (Hadd : (0 < addLen <= len)%nat) by (unfold addLen; lia).
      unfold Sequence_Read. fold L0.
      destruct (Nat.leb_spec (0 + L0) L0) as [_|]; [|lia]. cbn [negb].
      destruct (ReadData_spec (f lb) (fun _ => 0%Q) 0 (mSampleFormat s) 0 L0 true)
        as (r & mem1 & Hread & Hmem1 & _);
        [fold L0; lia|right; eapply own_block_complete; exact Hown|].
      rewrite Hread. cbn [bind].
      set (kept := removelast (mBlock s)) in *.
      set (newLast :=
             {| f := NewSimpleBlockFile
                       (peek_samples
                          (CopySamples data format mem1 L0 (mSampleFormat s) addLen 1)
                          0 (L0 + addLen))
                       (L0 + addLen) (mSampleFormat s);
                start := start lb |}).
      assert (Hpeek : peek_samples
                        (CopySamples data format mem1 L0 (mSampleFormat s) addLen 1)
                        0 (L0 + addLen)
                      = block_values (f lb) ++ map conv (firstn addLen data)).
      { set (xs := block_values (f lb) ++ map conv (firstn addLen data)).
        assert (Hxs : length xs = (L0 + addLen)%nat).
        { unfold xs. rewrite length_app, length_map, length_firstn,
            (own_block_length _ _ Hown). fold L0. lia. }
        rewrite <- Hxs. apply peek_samples_is. intros i Hi.
        unfold CopySamples. rewrite strided_one by lia.
        rewrite write_samples_spec, length_map, length_firstn.
        replace (Nat.min addLen (length data)) with addLen by lia.
        cbn [Nat.add]. unfold xs.
        destruct (in_range_dec L0 addLen i) as [[-> Hr]|[-> Hr]].
        - rewrite app_nth2 by (rewrite (own_block_length _ _ Hown); fold L0; lia).
          rewrite (own_block_length _ _ Hown). reflexivity.
        - rewrite app_nth1 by (rewrite (own_block_length _ _ Hown); fold L0; lia).
          rewrite Hmem1.
          replace (in_range 0 L0 i) with true
            by (symmetry; apply in_range_true; lia).
          rewrite Nat.sub_0_r. apply own_block_sample; [exact Hown|fold L0; lia]. }
      fold kept in Hsplit.
      assert (Hchs : chained (kept ++ [lb]) 0) by (rewrite <- Hsplit; exact Hch).
      apply chained_app in Hchs. destruct Hchs as [Hchk Hchl].
      cbn [chained] in Hchl. destruct Hchl as [Hstl _].
      assert (Hlens : blocks_length (mBlock s) = (blocks_length kept + L0)%nat).
      { rewrite Hsplit at 1. rewrite blocks_length_app. cbn [blocks_length].
        fold L0. lia. }
      assert (Hallk : Forall (fun b => (0 < GetLength (f b) <= mMaxSamples s)%nat
                              /\ block_own (mSampleFormat s) (f b) = true) kept).
      { rewrite Hsplit in Hall. apply Forall_app in Hall. apply Hall. }
      assert (Hnl : GetLength (f newLast) = (L0 + addLen)%nat) by reflexivity.
      assert (Hvl : block_values (f newLast)
                    = block_values (f lb) ++ map conv (firstn addLen data)).
      { cbn [newLast f NewSimpleBlockFile block_values]. rewrite Hpeek.
        apply firstn_all2. rewrite length_app, length_map, length_firstn,
          (own_block_length _ _ Hown). fold L0. lia. }
      apply (Hfinish kept [newLast] true (skipn addLen data) (len - addLen)%nat
                     (mNumSamples s + Z.of_nat addLen)
                     (CopySamples data format mem1 L0 (mSampleFormat s) addLen 1) []).
      * reflexivity.
      * rewrite length_skipn. lia.
      * left. discriminate.
      * apply chained_app. split; [exact Hchk|].
        cbn [chained]. split; [cbn [newLast start]; lia|exact I].
      * rewrite blocks_length_app. cbn [blocks_length]. rewrite Hnl. lia.
      * apply Forall_app. split; [exact Hallk|]. constructor; [|constructor].
        rewrite Hnl. split; [unfold addLen; lia|].
        cbn [newLast f NewSimpleBlockFile block_own].
        rewrite Hpeek, firstn_all2
          by (rewrite length_app, length_map, length_firstn,
                (own_block_length _ _ Hown); fold L0; lia).
        rewrite length_app, length_map, length_firstn, (own_block_length _ _ Hown).
        fold L0. replace (Nat.min addLen (length data)) with addLen by lia.
        rewrite Nat.eqb_refl. cbn [andb]. apply sampleFormat_eqb_eq. reflexivity.
      * lia.
      * rewrite flat_map_app. cbn [flat_map]. rewrite Hvl, app_nil_r.
        unfold sequence_values. rewrite Hsplit.
        rewrite flat_map_app. cbn [flat_map]. rewrite app_nil_r.
        rewrite <- !app_assoc. f_equal. f_equal. rewrite <- map_app. f_equal.
        replace len with (addLen + (len - addLen))%nat at 2 by lia.
        symmetry. apply firstn_add_skipn.
    + (* the last block is left alone *)
      cbn [bind].
      apply (Hfinish (mBlock s) [] false data len (mNumSamples s) (fun _ => 0%Q) []);
        auto; try lia; rewrite ?app_nil_r; auto.
Qed.

Lemma wf_values_length (s : Sequence) :
  Sequence_wf s -> Z.of_nat (length (sequence_values s)) = mNumSamples s.
Proof.
  intros (_ & Hnum & Hall & _). rewrite Hnum. f_equal. unfold sequence_values.
  clear Hnum. induction (mBlock s) as [|b rest IH]; [reflexivity|].
  apply Forall_cons_iff in Hall. destruct Hall as [[_ Hown] Hall].
  cbn [flat_map blocks_length]. rewrite length_app, (own_block_length _ _ Hown).
  rewrite (IH Hall). reflexivity.
Qed.

Lemma wf_sample_values (s : Sequence) (i : nat) :
  Sequence_wf s ->
  sequence_sample s (mSampleFormat s) i = nth i (sequence_values s) 0%Q.
Proof.
  intros (_ & _ & Hall & _). unfold sequence_sample, sequence_values.
  revert i. induction (mBlock s) as [|b rest IH]; intro i.
  - destruct i; reflexivity.
  - apply Forall_cons_iff in Hall. destruct Hall as [[_ Hown] Hall].
    cbn [blocks_sample flat_map].
    destruct (Nat.ltb_spec i (GetLength (f b))) as [Hi|Hi].
    + rewrite app_nth1 by (rewrite (own_block_length _ _ Hown); exact Hi).
      apply own_block_sample; assumption.
    + rewrite app_nth2 by (rewrite (own_block_length _ _ Hown); exact Hi).
      rewrite (own_block_length _ _ Hown). apply IH. exact Hall.
Qed.


Lemma GetIdealAppendLen_bounds (s : Sequence) :
  Sequence_wf s -> (1 <= GetIdealAppendLen s <= mMaxSamples s)%nat.
Proof.
  intros (_ & _ & _ & Hmax & _). unfold GetIdealAppendLen, GetMaxBlockSize.
  destruct (back (mBlock s)) as [b|]; [|lia].
  destruct (Nat.leb_spec (mMaxSamples s) (GetLength (f b))); lia.
Qed.

(** ** Appending to a clip *)

Lemma WaveClip_Append_loop_spec (format : sampleFormat) :
  forall (fuel : nat) (c : WaveClip) (buffer : list sample) (len : nat),
    Sequence_wf (mSequence c) ->
    (mAppendBufferLen c <= mMaxSamples (mSequence c))%nat ->
    (len <= length buffer)%nat ->
    mNumSamples (mSequence c) + Z.of_nat (mAppendBufferLen c) + Z.of_nat len
    <= 9223372036854775807 ->
    (len < fuel)%nat ->
    exists c',
      WaveClip_Append_loop fuel c buffer format len 1
                           (mMaxSamples (mSequence c))
                           (GetIdealAppendLen (mSequence c))
      = Returned c'
      /\ Sequence_wf (mSequence c')
      /\ (mAppendBufferLen c' <= mMaxSamples (mSequence c'))%nat
      /\ mSampleFormat (mSequence c') = mSampleFormat (mSequence c)
      /\ mMaxSamples (mSequence c') = mMaxSamples (mSequence c)
      /\ clip_mOffset c' = clip_mOffset c
      /\ clip_mRate c' = clip_mRate c
      /\ sequence_values (mSequence c') ++ mAppendBuffer c'
         = sequence_values (mSequence c) ++ mAppendBuffer c
           ++ map (CopySample format (mSampleFormat (mSequence c)))
                  (firstn len buffer).
Proof.
  induction fuel as [|fuel IH]; intros c buffer len Hwf Habl Hbuf Hfit Hfuel; [lia|].
  cbn [WaveClip_Append_loop].
  set (fmt := mSampleFormat (mSequence c)) in *.
  set (maxB := mMaxSamples (mSequence c)) in *.
  pose proof (GetIdealAppendLen_bounds _ Hwf) as Hideal. fold maxB in Hideal.
  (* the flush at the head of a round *)
  assert (Hflush : exists c1,
             (if (GetIdealAppendLen (mSequence c) <=? mAppendBufferLen c)%nat
              then s' <- Sequence_Append (mSequence c) (mAppendBuffer c) fmt
                                         (GetIdealAppendLen (mSequence c)) ;;
                   Returned (with_data c s'
                               (skipn (GetIdealAppendLen (mSequence c))
                                      (mAppendBuffer c)),
                             GetIdealAppendLen s')
              else Returned (c, GetIdealAppendLen (mSequence c)))
             = Returned (c1, GetIdealAppendLen (mSequence c1))
             /\ Sequence_wf (mSequence c1)
             /\ (mAppendBufferLen c1 < maxB)%nat
             /\ mSampleFormat (mSequence c1) = fmt
             /\ mMaxSamples (mSequence c1) = maxB
             /\ clip_mOffset c1 = clip_mOffset c
             /\ clip_mRate c1 = clip_mRate c
             /\ sequence_values (mSequence c1) ++ mAppendBuffer c1
                = sequence_values (mSequence c) ++ mAppendBuffer c
             /\ mNumSamples (mSequence c1) + Z.of_nat (mAppendBufferLen c1)
                = mNumSamples (mSequence c) + Z.of_nat (mAppendBufferLen c)).
  { destruct (Nat.leb_spec (GetIdealAppendLen (mSequence c)) (mAppendBufferLen c))
      as [Hfull|Hroom].
    - destruct (Sequence_Append_spec (mSequence c) (mAppendBuffer c) fmt
                  (GetIdealAppendLen (mSequence c)) Hwf)
        as (s' & Hrun & Hwf' & Hnum' & Hfmt' & Hmax' & _ & Hvals');
        [exact Hfull|unfold mAppendBufferLen in *; lia|].
      rewrite Hrun. cbn [bind].
      exists (with_data c s' (skipn (GetIdealAppendLen (mSequence c)) (mAppendBuffer c))).
      cbn [with_data mSequence mAppendBuffer clip_mOffset clip_mRate].
      unfold mAppendBufferLen in *. cbn [with_data mAppendBuffer].
      rewrite length_skipn.
      split; [reflexivity|]. split; [exact Hwf'|].
      split; [lia|]. split; [exact Hfmt'|]. split; [exact Hmax'|].
      split; [reflexivity|]. split; [reflexivity|]. split; [|lia].
      rewrite Hvals'. fold fmt.
      rewrite (map_id_on _ _ (CopySample_same fmt)), <- app_assoc.
      rewrite firstn_skipn. reflexivity.
    - exists c. split; [reflexivity|]. split; [exact Hwf|].
      split; [lia|]. repeat split. }
  destruct Hflush as (c1 & Hrun1 & Hwf1 & Habl1 & Hfmt1 & Hmax1 & Hoff1 & Hrate1
                         & Hvals1 & Hnum1).
  rewrite Hrun1. cbn [bind].
  destruct len as [|len'].
  - exists c1. split; [reflexivity|]. split; [exact Hwf1|].
    split; [lia|]. split; [exact Hfmt1|]. split; [exact Hmax1|].
    split; [exact Hoff1|]. split; [exact Hrate1|].
    cbn [firstn map]. rewrite app_nil_r. exact Hvals1.
  - set (len := S len') in *.
    destruct (Nat.leb_spec (mAppendBufferLen c1) maxB) as [_|]; [|lia].
    cbn [negb].
    set (toCopy := Nat.min len (maxB - mAppendBufferLen c1)).
    assert (HtoCopy : (0 < toCopy <= len)%nat) by (unfold toCopy; lia).
    rewrite strided_one by lia. rewrite Nat.mul_1_r.
    set (c2 := with_data c1 (mSequence c1)
                 (mAppendBuffer c1 ++ map (CopySample format fmt) (firstn toCopy buffer))).
    assert (Habl2 : mAppendBufferLen c2 = (mAppendBufferLen c1 + toCopy)%nat).
    { unfold mAppendBufferLen, c2. cbn [with_data mAppendBuffer].
      rewrite length_app, length_map, length_firstn. lia. }
    destruct (IH c2 (skipn toCopy buffer) (len - toCopy)%nat)
      as (c' & Hrun & Hwf' & Habl' & Hfmt' & Hmax' & Hoff' & Hrate' & Hvals').
    + exact Hwf1.
    + cbn [c2 with_data mSequence]. rewrite Habl2, Hmax1. unfold toCopy. lia.
    + rewrite length_skipn. lia.
    + cbn [c2 with_data mSequence]. rewrite Habl2. lia.
    + lia.
    + cbn [c2 with_data mSequence] in Hrun, Hwf', Hfmt', Hmax', Hvals'.
      rewrite Hmax1 in Hrun.
      exists c'. split; [exact Hrun|]. split; [exact Hwf'|].
      split; [exact Habl'|]. split; [congruence|]. split; [congruence|].
      split; [cbn [c2 with_data clip_mOffset] in Hoff'; congruence|].
      split; [cbn [c2 with_data clip_mRate] in Hrate'; congruence|].
      rewrite Hvals'. cbn [c2 with_data mAppendBuffer]. rewrite Hfmt1.
      rewrite !app_assoc, Hvals1, <- !app_assoc. f_equal. f_equal.
      rewrite <- map_app. f_equal.
      replace len with (toCopy + (len - toCopy))%nat at 2 by lia.
      symmetry. apply firstn_add_skipn.
Qed.

Lemma WaveClip_Append_spec (c : WaveClip) (buffer : list sample)
    (format : sampleFormat) (len : nat) :
  Sequence_wf (mSequence c) ->
  (mAppendBufferLen c <= mMaxSamples (mSequence c))%nat ->
  (len <= length buffer)%nat ->
  mNumSamples (mSequence c) + Z.of_nat (mAppendBufferLen c) + Z.of_nat len
  <= 9223372036854775807 ->
  exists c',
    WaveClip_Append c buffer format len 1 = Returned c'
    /\ Sequence_wf (mSequence c')
    /\ (mAppendBufferLen c' <= mMaxSamples (mSequence c'))%nat
    /\ mSampleFormat (mSequence c') = mSampleFormat (mSequence c)
    /\ clip_mOffset c' = clip_mOffset c
    /\ clip_mRate c' = clip_mRate c
    /\ sequence_values (mSequence c') ++ mAppendBuffer c'
       = sequence_values (mSequence c) ++ mAppendBuffer c
         ++ map (CopySample format (mSampleFormat (mSequence c)))
                (firstn len buffer).
Proof.
  intros Hwf Habl Hbuf Hfit. unfold WaveClip_Append, GetMaxBlockSize.
  destruct (WaveClip_Append_loop_spec format (2 * len + 2) c buffer len
              Hwf Habl Hbuf Hfit)
    as (c0 & Hrun & Hwf0 & Habl0 & Hfmt0 & Hmax0 & Hoff0 & Hrate0 & Hvals0); [lia|].
  rewrite Hrun. cbn [bind].
  exists (MarkChanged (UpdateEnvelopeTrackLen c0)).
  split; [reflexivity|]. split; [exact Hwf0|]. split; [exact Habl0|].
  split; [exact Hfmt0|]. split; [exact Hoff0|]. split; [exact Hrate0|].
  exact Hvals0.
Qed.

Lemma WaveClip_Flush_spec (c : WaveClip) :
  Sequence_wf (mSequence c) ->
  mNumSamples (mSequence c) + Z.of_nat (mAppendBufferLen c) <= 9223372036854775807 ->
  exists c',
    WaveClip_Flush c = Returned c'
    /\ Sequence_wf (mSequence c')
    /\ mAppendBuffer c' = []
    /\ mSampleFormat (mSequence c') = mSampleFormat (mSequence c)
    /\ clip_mOffset c' = clip_mOffset c
    /\ clip_mRate c' = clip_mRate c
    /\ sequence_values (mSequence c')
       = sequence_values (mSequence c) ++ mAppendBuffer c.
Proof.
  intros Hwf Hfit. unfold WaveClip_Flush, mAppendBufferLen in *.
  destruct (Nat.ltb_spec 0 (length (mAppendBuffer c))) as [Hpos|Hzero].
  - destruct (Sequence_Append_spec (mSequence c) (mAppendBuffer c)
                (mSampleFormat (mSequence c)) (length (mAppendBuffer c)) Hwf)
      as (s' & Hrun & Hwf' & _ & Hfmt' & _ & _ & Hvals'); [lia|exact Hfit|].
    rewrite Hrun. cbn [bind].
    eexists. split; [reflexivity|].
    cbn [MarkChanged UpdateEnvelopeTrackLen SetEnvelope with_data mSequence
         mAppendBuffer clip_mOffset clip_mRate].
    split; [exact Hwf'|]. split; [reflexivity|]. split; [exact Hfmt'|].
    split; [reflexivity|]. split; [reflexivity|].
    rewrite Hvals', firstn_all, (map_id_on _ _ (CopySample_same _)). reflexivity.
  - exists c. split; [reflexivity|]. split; [exact Hwf|].
    assert (E : mAppendBuffer c = []) by (destruct (mAppendBuffer c); [reflexivity|cbn in Hzero; lia]).
    rewrite E, app_nil_r. repeat split.
Qed.

(** ** The rightmost clip *)

Lemma rightmost_index_bound (rest : list WaveClip) :
  forall (i best : nat) (m : Q),
    (best < i)%nat -> (rightmost_index rest i best m < i + length rest)%nat.
Proof.
  induction rest as [|c rest IH]; intros i best m H; cbn [rightmost_index length].
  - lia.
  - destruct (Qlt_bool m (clip_mOffset c)).
    + specialize (IH (S i) i (clip_mOffset c)). lia.
    + specialize (IH (S i) best m). lia.
Qed.





(** ** [Append] followed by [Flush] *)


End Appending.

End Facts.

(** ** Thresholds and sensitivity *)

Lemma Qlt_bool_true (a b : Q) : Qlt_bool a b = true <-> (a < b)%Q.
Proof.
  unfold Qlt_bool. rewrite negb_true_iff. split.
  - intro H. apply Qnot_le_lt. intro Hle. apply Qle_bool_iff in Hle. congruence.
  - intro H. destruct (Qle_bool b a) eqn:E; [|reflexivity].
    apply Qle_bool_iff in E. exfalso. exact (Qlt_not_le _ _ H E).
Qed.

Lemma filter_length_mono {A : Type} (p q : A -> bool) (l : list A) :
  (forall x, p x = true -> q x = true) ->
  (length (filter p l) <= length (filter q l))%nat.
Proof.
  intro H. induction l as [|x l IH]; [apply Nat.le_refl|].
  cbn [filter]. destruct (p x) eqn:Ep.
  - rewrite (H x Ep). cbn [length]. lia.
  - destruct (q x); cbn [length]; lia.
Qed.

Lemma threshold_monotone (st : Statistics) (k : nat) (s1 s2 : Q) :
  (0 <= nth k (stdevLog st) 0)%Q -> (s1 <= s2)%Q ->
  (threshold st k s1 <= threshold st k s2)%Q.
Proof.
  intros Hsd Hs. unfold threshold.
  apply Qplus_le_r. apply Qmult_le_compat_r; [|exact Hsd].
  unfold Qdiv. apply Qmult_le_compat_r; [exact Hs|discriminate].
Qed.

Lemma isNoise_monotone (st : Statistics) (logPower : list Q) (s1 s2 : Q) (k : nat) :
  (0 <= nth k (stdevLog st) 0)%Q -> (s1 <= s2)%Q ->
  isNoise st s1 logPower k = true -> isNoise st s2 logPower k = true.
Proof.
  unfold isNoise. intros Hsd Hs H. apply Qlt_bool_true in H. apply Qlt_bool_true.
  eapply Qlt_le_trans; [exact H|]. apply threshold_monotone; assumption.
Qed.

(** C7: for a sealed profile with [stdevLog[k] >= 0] and a fixed frame, the
    threshold [meanLog[k] + (sensitivityDb/10) * stdevLog[k]] does not
    decrease when [sensitivityDb] grows, for every bin [k]; hence the number
    of bins classified as noise does not decrease either, before and after
    frequency smoothing. *)
Theorem noise_count_monotone_in_sensitivity (st : Statistics) (logPower : list Q)
    (s1 s2 : Q) (B : nat) :
  (forall k, 0 <= nth k (stdevLog st) 0)%Q ->
  (s1 <= s2)%Q ->
  (forall k, threshold st k s1 <= threshold st k s2)%Q
  /\ (countNoise (isNoise st s1 logPower) logPower
      <= countNoise (isNoise st s2 logPower) logPower)%nat
  /\ (countNoise (isNoiseSmoothed st s1 logPower B) logPower
      <= countNoise (isNoiseSmoothed st s2 logPower B) logPower)%nat.
Proof.
  intros Hsd Hs. split; [|split].
  - intro k. apply threshold_monotone; [apply Hsd|exact Hs].
  - apply filter_length_mono. intros k. apply isNoise_monotone; [apply Hsd|exact Hs].
  - apply filter_length_mono. intros k. unfold isNoiseSmoothed.
    rewrite !forallb_forall. intros H j Hj. specialize (H j Hj).
    apply orb_true_iff in H. apply orb_true_iff. destruct H as [H|H]; [left; exact H|].
    right. revert H. apply isNoise_monotone; [apply Hsd|exact Hs].
Qed.

(** * The facts on concrete stores *)

Lemma noise_count_monotone_in_sensitivity_witness :
  (0 <= 10)%Q
  /\ (countNoise (isNoise two_bins 0%Q louder_second_bin) louder_second_bin
      <= countNoise (isNoise two_bins 10%Q louder_second_bin) louder_second_bin)%nat.
Proof.
  split; [discriminate|].
  apply (noise_count_monotone_in_sensitivity two_bins louder_second_bin 0 10 0).
  - intros [|[|[|k]]]; cbn; discriminate.
  - discriminate.
Defined.

Lemma TimeToLongSamples_LongSamplesToTime_witness :
  0 < mRate empty_track
  /\ TimeToLongSamples empty_track (LongSamplesToTime empty_track 5) = 5.
Proof.
  split; [reflexivity|].
  apply TimeToLongSamples_LongSamplesToTime; [lia|reflexivity].
Defined.

Lemma clip_position_trichotomy_witness :
  mAppendBufferLen (clip_of three_samples 0 []) = O
  /\ ((BeforeClip (clip_of three_samples 0 []) (1 # 44100) = true
       /\ WithinClip (clip_of three_samples 0 []) (1 # 44100) = false
       /\ AfterClip (clip_of three_samples 0 []) (1 # 44100) = false)
      \/ (BeforeClip (clip_of three_samples 0 []) (1 # 44100) = false
          /\ WithinClip (clip_of three_samples 0 []) (1 # 44100) = true
          /\ AfterClip (clip_of three_samples 0 []) (1 # 44100) = false)
      \/ (BeforeClip (clip_of three_samples 0 []) (1 # 44100) = false
          /\ WithinClip (clip_of three_samples 0 []) (1 # 44100) = false
          /\ AfterClip (clip_of three_samples 0 []) (1 # 44100) = true)).
Proof.
  split; [reflexivity|].
  apply clip_position_trichotomy; [cbn; lia|reflexivity].
Defined.

Lemma Get_fills_clip_samples_or_zero_witness :
  track_ok (one_clip_track three_samples []) = true
  /\ no_overlap (mClips (one_clip_track three_samples [])) = true
  /\ exists ok buffer' copied,
       WaveTrack_Get (one_clip_track three_samples []) junk floatSample (-1) 5
                     fillZero true
       = Returned (ok, buffer', copied)
       /\ buffer' 0%nat = 0%Q /\ buffer' 1%nat = (1 # 4)%Q
       /\ buffer' 4%nat = 0%Q /\ buffer' 5%nat = (7 # 1)%Q.
Proof.
  split; [reflexivity|]. split; [reflexivity|].
  destruct (Get_fills_clip_samples_or_zero
              (one_clip_track three_samples []) junk floatSample (-1) 5 true)
    as (Hfilled & Hreturns & _); [reflexivity|reflexivity|].
  destruct (Hreturns (or_intror eq_refl)) as (ok & buffer' & copied & Hrun).
  destruct (Hfilled ok buffer' copied Hrun) as (Hin & Hout & Hrest).
  exists ok, buffer', copied. split; [exact Hrun|].
  split; [|split; [|split]].
  - apply Hout; [lia|]. intros c [<-|[]]. reflexivity.
  - rewrite (Hin 1%nat (clip_of three_samples 0 [])); [reflexivity|lia| |reflexivity].
    left. reflexivity.
  - apply Hout; [lia|]. intros c [<-|[]]. reflexivity.
  - apply Hrest. lia.
Defined.



(** * Where the claims, as stated, fail *)

(** C1 as stated fails: on a track whose only block file delivers no
    sample, a [WaveTrack::Get] with fill mode [fillZero] and [mayThrow] true
    (the default of the call) throws a read exception and fills nothing. *)
Lemma Get_short_block_file_throws :
  track_ok (one_clip_track lost_file []) = true
  /\ no_overlap (mClips (one_clip_track lost_file [])) = true
  /\ WaveTrack_Get (one_clip_track lost_file []) junk floatSample 0 2 fillZero true
     = Thrown FileException_Read
  /\ ~ (exists ok buffer' copied,
          WaveTrack_Get (one_clip_track lost_file []) junk floatSample 0 2
                        fillZero true
          = Returned (ok, buffer', copied)).
Proof.
  split; [reflexivity|]. split; [reflexivity|]. split; [reflexivity|].
  intros (ok & buffer' & copied & H). discriminate H.
Qed.



(** * Further properties of the sources *)

(** ** Cutting a buffer into blocks *)






Section MoreFacts.

Context {X : Externals}.

(** ** Block files *)

(** X1: a read of [len] samples from sample [bstart] of a simple block file
    whose .au file holds fewer than [len] samples from there on throws
    [FileException] when [mayThrow] is set; otherwise it returns the number of samples the file delivered,
    puts them first and zero-fills the rest of the [len] positions, and
    writes nothing outside them. *)
Theorem SimpleBlockFile_short_read (n : nat) (fileFormat : sampleFormat)
    (disk : list sample) (mem : memory) (ptr : nat) (format : sampleFormat)
    (bstart len : nat) :
  (length disk - bstart < len)%nat ->
  ReadData (SimpleBlock n fileFormat disk) mem ptr format bstart len true
  = Thrown FileException_Read
  /\ exists mem',
       ReadData (SimpleBlock n fileFormat disk) mem ptr format bstart len false
       = Returned ((length disk - bstart)%nat, mem')
       /\ (forall k x, (k < len)%nat -> nth_error disk (bstart + k) = Some x ->
             mem' (ptr + k)%nat = sf_readf fileFormat format x)
       /\ (forall k, (k < len)%nat -> (length disk <= bstart + k)%nat ->
             mem' (ptr + k)%nat = 0%Q)
       /\ (forall j, (j < ptr \/ ptr + len <= j)%nat -> mem' j = mem j).
Proof.
  intro Hshort.
  assert (Hfr : Nat.min len (length (skipn bstart disk)) = (length disk - bstart)%nat).
  { rewrite length_skipn. lia. }
  assert (Hlt : ((length disk - bstart) <? len)%nat = true).
  { apply Nat.ltb_lt. lia. }
  split.
  - cbn [ReadData]. unfold SimpleBlockFile_ReadData, CommonReadData.
    rewrite Hfr, Hlt. reflexivity.
  - eexists. split.
    + cbn [ReadData]. unfold SimpleBlockFile_ReadData, CommonReadData.
      rewrite Hfr, Hlt. reflexivity.
    + assert (Hlen : length (map (sf_readf fileFormat format)
                               (firstn (length disk - bstart) (skipn bstart disk)))
                     = (length disk - bstart)%nat).
      { rewrite length_map, length_firstn, length_skipn. lia. }
      split; [|split].
      * intros k x Hk Hx.
        assert (Hkd : (bstart + k < length disk)%nat).
        { apply nth_error_Some. rewrite Hx. discriminate. }
        rewrite ClearSamples_spec.
        destruct (in_range_dec (ptr + (length disk - bstart)) (len - (length disk - bstart))
                               (ptr + k)) as [[E Hr]|[E Hr]]; [lia|].
        rewrite E, write_samples_spec, Hlen.
        destruct (in_range_dec ptr (length disk - bstart) (ptr + k)) as [[E2 Hr2]|[E2 Hr2]];
          [|lia].
        rewrite E2. replace (ptr + k - ptr)%nat with k by lia.
        rewrite nth_delivered; [rewrite Hx; reflexivity|lia|rewrite length_skipn; lia].
      * intros k Hk Hkd. rewrite ClearSamples_spec.
        destruct (in_range_dec (ptr + (length disk - bstart)) (len - (length disk - bstart))
                               (ptr + k)) as [[E Hr]|[E Hr]]; [|lia].
        rewrite E. reflexivity.
      * intros j Hj. rewrite ClearSamples_spec.
        destruct (in_range_dec (ptr + (length disk - bstart)) (len - (length disk - bstart))
                               j) as [[E Hr]|[E Hr]]; [lia|].
        rewrite E, write_samples_spec, Hlen.
        destruct (in_range_dec ptr (length disk - bstart) j) as [[E2 Hr2]|[E2 Hr2]];
          [lia|].
        rewrite E2. reflexivity.
Qed.


(** ** Sequence: finding and reading blocks *)

Lemma block_index_order (blocks : list SeqBlock) (base : Z) (b b' : nat)
    (blk blk' : SeqBlock) :
  chained blocks base ->
  nth_error blocks b = Some blk -> nth_error blocks b' = Some blk' ->
  (b < b')%nat ->
  start blk + Z.of_nat (GetLength (f blk)) <= start blk'.
Proof.
  intros Hch Hb Hb' Hlt.
  rewrite (chained_nth _ _ _ _ Hch Hb), (chained_nth _ _ _ _ Hch Hb').
  pose proof (prefix_succ _ _ _ Hb) as Hs.
  pose proof (prefix_mono blocks (S b) b' ltac:(lia)) as Hm.
  lia.
Qed.

Lemma block_index_unique (blocks : list SeqBlock) (base : Z) (pos : Z) (b b' : nat)
    (blk blk' : SeqBlock) :
  chained blocks base ->
  nth_error blocks b = Some blk -> nth_error blocks b' = Some blk' ->
  start blk <= pos < start blk + Z.of_nat (GetLength (f blk)) ->
  start blk' <= pos < start blk' + Z.of_nat (GetLength (f blk')) ->
  b' = b.
Proof.
  intros Hch Hb Hb' Hin Hin'.
  destruct (Nat.lt_trichotomy b b') as [Hlt|[Heq|Hgt]].
  - pose proof (block_index_order _ _ _ _ _ _ Hch Hb Hb' Hlt). lia.
  - symmetry. exact Heq.
  - pose proof (block_index_order _ _ _ _ _ _ Hch Hb' Hb Hgt). lia.
Qed.

(** X3: on a sequence that passes the consistency check and has no empty
    block, [Sequence::FindBlock] returns for every position inside the
    sequence: its dictionary search terminates, none of its asserts fails,
    and the index returned is that of the one block whose sample range
    contains the position. *)
Theorem FindBlock_finds_the_block (s : Sequence) (pos : Z) :
  Sequence_ok s = true -> 0 <= pos < mNumSamples s ->
  exists (b : nat) (blk : SeqBlock),
    FindBlock s pos = Returned b
    /\ nth_error (mBlock s) b = Some blk
    /\ start blk <= pos < start blk + Z.of_nat (GetLength (f blk))
    /\ forall (b' : nat) (blk' : SeqBlock),
         nth_error (mBlock s) b' = Some blk' ->
         start blk' <= pos < start blk' + Z.of_nat (GetLength (f blk')) ->
         b' = b.
Proof.
  intros Hok Hpos.
  destruct (FindBlock_spec s pos Hok Hpos) as (b & blk & Hrun & Hb & Hin).
  exists b, blk. split; [exact Hrun|]. split; [exact Hb|]. split; [exact Hin|].
  intros b' blk' Hb' Hin'.
  destruct (Sequence_ok_chained s Hok) as (Hch & _).
  exact (block_index_unique _ _ _ _ _ _ _ Hch Hb Hb' Hin Hin').
Qed.

(** X4: on a consistent sequence, [Sequence::Get] of a range that lies inside
    the sequence returns when [mayThrow] is false or every block file is
    complete; it fills the [len] positions with the stored samples from
    [start0] on, leaves the rest of the buffer alone, and reports success
    when every block file is complete. *)
Theorem Sequence_Get_delivers_range (s : Sequence) (mem : memory) (ptr : nat)
    (format : sampleFormat) (start0 : Z) (len : nat) (mayThrow : bool) :
  Sequence_ok s = true ->
  0 <= start0 -> start0 + Z.of_nat len <= mNumSamples s ->
  mayThrow = false \/ Sequence_complete s = true ->
  exists ok mem',
    Sequence_Get s mem ptr format start0 len mayThrow = Returned (ok, mem')
    /\ (forall k, (k < len)%nat ->
          mem' (ptr + k)%nat = sequence_sample s format (Z.to_nat start0 + k))
    /\ (forall j, (j < ptr \/ ptr + len <= j)%nat -> mem' j = mem j)
    /\ (Sequence_complete s = true -> ok = true).
Proof.
  intros Hok H0 Hend Hmode.
  destruct (Sequence_Get_spec s mem ptr format start0 len mayThrow Hok H0 Hend Hmode)
    as (ok & mem' & Hrun & Hmem & Hflag).
  exists ok, mem'. split; [exact Hrun|]. split; [|split; [|exact Hflag]].
  - intros k Hk. rewrite Hmem.
    destruct (in_range_dec ptr len (ptr + k)) as [[E _]|[_ Hr]]; [|lia].
    rewrite E. replace (ptr + k - ptr)%nat with k by lia. reflexivity.
  - intros j Hj. rewrite Hmem.
    destruct (in_range_dec ptr len j) as [[_ Hr]|[E _]]; [lia|].
    rewrite E. reflexivity.
Qed.


(** X6: [Sequence::ConsistencyCheck] over the whole block array accepts
    exactly the arrays whose blocks start one after the other from sample 0,
    hold at most [maxSamples] samples each and add up to [numSamples]. *)
Theorem ConsistencyCheck_accepts_exactly (blocks : list SeqBlock) (maxSamples : nat)
    (numSamples : Z) :
  ConsistencyCheck blocks maxSamples 0 numSamples = true
  <-> chained blocks 0
      /\ Forall (fun b => (GetLength (f b) <= maxSamples)%nat) blocks
      /\ numSamples = Z.of_nat (blocks_length blocks).
Proof.
  unfold ConsistencyCheck. cbn [Nat.eqb andb skipn]. split.
  - intro H.
    destruct blocks as [|b0 rest].
    + cbn in H. destruct (Z.eqb_spec numSamples 0) as [E|E]; cbn in H;
        [|discriminate].
      split; [exact I|]. split; [constructor|]. cbn. exact E.
    + cbn [nth_error] in H.
      destruct (Z.eqb_spec (start b0) 0) as [E0|E0]; cbn [negb] in H; [|discriminate].
      destruct (ConsistencyCheck_loop (b0 :: rest) maxSamples (start b0)) as [pos'|] eqn:El;
        [|discriminate].
      apply ConsistencyCheck_loop_chained in El. destruct El as (Hch & Hpos & Hmax).
      rewrite E0 in Hch, Hpos. apply Z.eqb_eq in H.
      split; [exact Hch|]. split; [|lia].
      apply Forall_forall. intros b Hb.
      rewrite forallb_forall in Hmax. apply Nat.leb_le. exact (Hmax b Hb).
  - intros (Hch & Hmax & Hnum).
    assert (Hpos : match nth_error blocks 0 with
                   | Some b => start b
                   | None => numSamples
                   end = 0).
    { destruct blocks as [|b0 rest]; [cbn in *; lia|]. cbn. destruct Hch as [E _]. exact E. }
    rewrite Hpos. cbn [Z.eqb negb].
    rewrite (ConsistencyCheck_loop_complete blocks maxSamples 0 Hch Hmax).
    apply Z.eqb_eq. lia.
Qed.

(** ** Reads that may throw *)

Lemma ReadData_mayThrow_full (bf : BlockFile) (mem : memory) (ptr : nat)
    (format : sampleFormat) (bstart len r : nat) (mem' : memory) :
  ReadData bf mem ptr format bstart len true = Returned (r, mem') -> r = len.
Proof.
  destruct bf as [n mn mx rms|n fileFormat disk]; cbn [ReadData].
  - unfold SilentBlockFile_ReadData. intro H. inversion H. reflexivity.
  - unfold SimpleBlockFile_ReadData, CommonReadData.
    destruct (Nat.ltb_spec (Nat.min len (length (skipn bstart disk))) len) as [Hlt|Hge].
    + discriminate.
    + intro H. inversion H. lia.
Qed.

Lemma Sequence_Read_mayThrow_true (mem : memory) (ptr : nat) (format : sampleFormat)
    (b : SeqBlock) (bstart len : nat) (ok : bool) (mem' : memory) :
  Sequence_Read mem ptr format b bstart len true = Returned (ok, mem') -> ok = true.
Proof.
  unfold Sequence_Read.
  destruct (negb (bstart + len <=? GetLength (f b))%nat); [discriminate|].
  destruct (ReadData (f b) mem ptr format bstart len true) as [[r m]| |] eqn:E;
    cbn [bind]; try discriminate.
  intro H. inversion H. apply ReadData_mayThrow_full in E. subst r.
  apply Nat.eqb_refl.
Qed.

Lemma Sequence_Get_loop_mayThrow_true (blocks : list SeqBlock) :
  forall (mem : memory) (ptr : nat) (format : sampleFormat) (start0 : Z)
         (len : nat) (result ok : bool) (mem' : memory),
    Sequence_Get_loop blocks mem ptr format start0 len true result
    = Returned (ok, mem') ->
    ok = result.
Proof.
  induction blocks as [|block rest IH]; intros mem ptr format start0 len result ok mem'.
  - destruct len; cbn [Sequence_Get_loop]; [|discriminate].
    intro H. inversion H. reflexivity.
  - destruct len as [|len']; cbn [Sequence_Get_loop].
    + intro H. inversion H. reflexivity.
    + destruct (start0 - start block <? 0); [discriminate|].
      destruct (Sequence_Read mem ptr format block _ _ true) as [[ok1 m1]| |] eqn:E;
        cbn [bind]; try discriminate.
      intro H. apply IH in H. apply Sequence_Read_mayThrow_true in E. subst ok1.
      rewrite andb_true_r in H. exact H.
Qed.

Lemma Sequence_Get_mayThrow_true (s : Sequence) (mem : memory) (ptr : nat)
    (format : sampleFormat) (start0 : Z) (len : nat) (ok : bool) (mem' : memory) :
  Sequence_Get s mem ptr format start0 len true = Returned (ok, mem') ->
  ok = true \/ (start0 = mNumSamples s /\ len <> O).
Proof.
  unfold Sequence_Get.
  destruct (Z.eqb_spec start0 (mNumSamples s)) as [E|E].
  - intro H. inversion H. destruct len; [left; reflexivity|right; split; [exact E|discriminate]].
  - destruct ((start0 <? 0) || (mNumSamples s <? start0 + Z.of_nat len)); [discriminate|].
    destruct (FindBlock s start0) as [b| |]; cbn [bind]; try discriminate.
    unfold Sequence_Get_from. intro H.
    apply Sequence_Get_loop_mayThrow_true in H. left. exact H.
Qed.

Lemma Get_clips_mayThrow_true (clips : list WaveClip) :
  forall (mem : memory) (format : sampleFormat) (start0 : Z) (len : nat)
         (result : bool) (copied : Z) (ok : bool) (mem' : memory) (n : Z),
    Get_clips clips mem format start0 len true result copied = Returned (ok, mem', n) ->
    ok = result.
Proof.
  induction clips as [|clip rest IH]; intros mem format start0 len result copied ok mem' n.
  - cbn [Get_clips]. intro H. inversion H. reflexivity.
  - cbn [Get_clips]. unfold GetEndSample, WaveClip_GetNumSamples, GetSamples.
    set (cs := GetStartSample clip). set (N := mNumSamples (mSequence clip)).
    destruct ((start0 <? cs + N) && (cs <? start0 + Z.of_nat len)) eqn:Hov;
      [|apply IH].
    apply andb_true_iff in Hov. destruct Hov as [Hov1 Hov2].
    apply Z.ltb_lt in Hov1. apply Z.ltb_lt in Hov2.
    destruct (Z.ltb_spec (cs - start0) 0) as [Hneg|Hpos].
    + destruct (Sequence_Get (mSequence clip) mem _ format _ _ true)
        as [[ok1 m1]| |] eqn:E; cbn [bind]; try discriminate.
      apply Sequence_Get_mayThrow_true in E.
      destruct E as [E|[E _]]; [|fold N in E; lia].
      subst ok1. apply IH.
    + destruct (Sequence_Get (mSequence clip) mem _ format _ _ true)
        as [[ok1 m1]| |] eqn:E; cbn [bind]; try discriminate.
      apply Sequence_Get_mayThrow_true in E.
      destruct E as [E|[E Hlen]].
      * subst ok1. apply IH.
      * exfalso. apply Hlen. fold N in E. rewrite <- E.
        rewrite Z.min_r by lia. reflexivity.
Qed.

(** X7: with [mayThrow] set, [WaveTrack::Get] never returns false: a call
    that returns reports success, and the same call with [mayThrow] clear
    returns the same buffer, the same count of copied samples and success. *)
Theorem Get_mayThrow_returns_only_success (tr : WaveTrack) (buffer : memory)
    (format : sampleFormat) (start0 : Z) (len : nat) (fill : fillFormat)
    (ok : bool) (buffer' : memory) (copied : Z) :
  WaveTrack_Get tr buffer format start0 len fill true = Returned (ok, buffer', copied) ->
  ok = true
  /\ WaveTrack_Get tr buffer format start0 len fill false
     = Returned (true, buffer', copied).
Proof.
  intro H.
  assert (Hok : ok = true).
  { unfold WaveTrack_Get in H.
    match type of H with
    | bind ?m _ = _ => destruct m as [b1| |]; cbn [bind] in H; try discriminate
    end.
    apply Get_clips_mayThrow_true in H. exact H. }
  split; [exact Hok|].
  subst ok. apply WaveTrack_Get_returns_same. exact H.
Qed.

Lemma filled_buffer (buffer : memory) (format : sampleFormat) (len : nat)
    (fill : fillFormat) :
  (fill = fillTwo -> format = floatSample) ->
  exists buffer1,
    match fill with
    | fillZero => Returned (ClearSamples buffer 0 format 0 len)
    | fillTwo =>
        if sampleFormat_eqb format floatSample
        then Returned (write_samples buffer 0 (repeat (2 # 1)%Q len))
        else Stuck
    | fillInvalid => Returned buffer
    end = Returned buffer1
    /\ forall j, buffer1 j = if (j <? len)%nat then fill_value fill (buffer j)
                             else buffer j.
Proof.
  intro Hfmt. destruct fill.
  - eexists. split; [reflexivity|]. intro j. rewrite ClearSamples_spec.
    unfold in_range. cbn [Nat.add Nat.leb andb fill_value]. reflexivity.
  - rewrite (Hfmt eq_refl). cbn [sampleFormat_eqb].
    eexists. split; [reflexivity|]. intro j. rewrite write_samples_spec.
    unfold in_range. rewrite repeat_length. cbn [Nat.add Nat.leb andb fill_value].
    destruct (Nat.ltb_spec j len) as [Hj|Hj]; [|reflexivity].
    rewrite Nat.sub_0_r. apply nth_repeat_lt. exact Hj.
  - eexists. split; [reflexivity|]. intro j. cbn [fill_value].
    destruct (j <? len)%nat; reflexivity.
Qed.

(** X8: [WaveTrack::Get] on a track of consistent clips returns with each of
    its fill modes (the 2.0 fill asks for float samples) whenever [mayThrow]
    is clear or every block file is complete.  A requested position that
    lies in no clip then holds zero with [fillZero], 2.0 with [fillTwo] and
    what the buffer held before the call with any other mode; when the clips
    do not overlap, a position inside a clip holds that clip's stored
    sample; nothing beyond [len] is written. *)
Theorem Get_fill_outside_clips (tr : WaveTrack) (buffer : memory)
    (format : sampleFormat) (start0 : Z) (len : nat) (fill : fillFormat)
    (mayThrow : bool) :
  track_ok tr = true ->
  mayThrow = false \/ track_complete tr = true ->
  (fill = fillTwo -> format = floatSample) ->
  exists ok buffer' copied,
    WaveTrack_Get tr buffer format start0 len fill mayThrow
    = Returned (ok, buffer', copied)
    /\ (forall j, (j < len)%nat ->
          (forall c, In c (mClips tr) -> covers c (start0 + Z.of_nat j) = false) ->
          buffer' j = fill_value fill (buffer j))
    /\ (no_overlap (mClips tr) = true ->
        forall j c, (j < len)%nat -> In c (mClips tr) ->
          covers c (start0 + Z.of_nat j) = true ->
          buffer' j = clip_sample c format (start0 + Z.of_nat j))
    /\ (forall j, (len <= j)%nat -> buffer' j = buffer j).
Proof.
  intros Hok Hmode Hfmt. unfold WaveTrack_Get.
  destruct (existsb _ (mClips tr)) eqn:Einside; cbn [negb bind].
  - destruct (Get_clips_spec (mClips tr) buffer format start0 len mayThrow true 0
                Hok Hmode) as (ok & mem' & n & Hrun & Hmem').
    exists ok, mem', n. split; [exact Hrun|]. split; [|split].
    + intros j Hj Hnone.
      destruct (request_inside_clip _ _ _ Einside) as (c0 & Hin0 & Hcov0).
      specialize (Hcov0 j Hj). rewrite (Hnone c0 Hin0) in Hcov0. discriminate.
    + intros Hno j c Hj Hin Hcov. rewrite Hmem'.
      destruct (Nat.ltb_spec j len); [|lia].
      apply last_cover_unique; assumption.
    + intros j Hj. rewrite Hmem'. destruct (Nat.ltb_spec j len); [lia|reflexivity].
  - destruct (filled_buffer buffer format len fill Hfmt) as (buffer1 & Hfill & Hb1).
    rewrite Hfill. cbn [bind].
    destruct (Get_clips_spec (mClips tr) buffer1 format start0 len mayThrow true 0
                Hok Hmode) as (ok & mem' & n & Hrun & Hmem').
    exists ok, mem', n. split; [exact Hrun|]. split; [|split].
    + intros j Hj Hnone. rewrite Hmem'. destruct (Nat.ltb_spec j len); [|lia].
      destruct (last_cover_cases (mClips tr) format (start0 + Z.of_nat j) (buffer1 j))
        as [[Hd _]|(c & Hin & Hcov & _)].
      * rewrite Hd, Hb1. destruct (Nat.ltb_spec j len); [reflexivity|lia].
      * rewrite (Hnone c Hin) in Hcov. discriminate.
    + intros Hno j c Hj Hin Hcov. rewrite Hmem'.
      destruct (Nat.ltb_spec j len); [|lia].
      apply last_cover_unique; assumption.
    + intros j Hj. rewrite Hmem'. destruct (Nat.ltb_spec j len); [lia|].
      rewrite Hb1. destruct (Nat.ltb_spec j len); [lia|reflexivity].
Qed.

(** ** Appending to a sequence and to a clip *)

(** ** The clip that receives appended samples *)

Lemma rightmost_index_max (rest : list WaveClip) :
  forall (pre : list WaveClip) (best : nat) (cb : WaveClip),
    nth_error pre best = Some cb ->
    (forall c', In c' pre -> (clip_mOffset c' <= clip_mOffset cb)%Q) ->
    exists c,
      nth_error (pre ++ rest)
                (rightmost_index rest (length pre) best (clip_mOffset cb))
      = Some c
      /\ forall c', In c' (pre ++ rest) -> (clip_mOffset c' <= clip_mOffset c)%Q.
Proof.
  induction rest as [|clip rest IH]; intros pre best cb Hbest Hmax.
  - cbn [rightmost_index]. rewrite app_nil_r. exists cb. split; assumption.
  - cbn [rightmost_index].
    assert (Hlen : length (pre ++ [clip]) = S (length pre)).
    { rewrite length_app. cbn. lia. }
    assert (Happ : pre ++ clip :: rest = (pre ++ [clip]) ++ rest).
    { rewrite <- app_assoc. reflexivity. }
    destruct (Qlt_bool (clip_mOffset cb) (clip_mOffset clip)) eqn:Hlt.
    + apply Qlt_bool_true in Hlt.
      rewrite Happ, <- Hlen.
      apply (IH (pre ++ [clip]) (length pre) clip).
      * rewrite nth_error_app2 by lia. rewrite Nat.sub_diag. reflexivity.
      * intros c' Hin. apply in_app_or in Hin. destruct Hin as [Hin|[Heq|[]]].
        -- apply Qlt_le_weak. eapply Qle_lt_trans; [apply Hmax; exact Hin|exact Hlt].
        -- subst c'. apply Qle_refl.
    + assert (Hle : (clip_mOffset clip <= clip_mOffset cb)%Q).
      { unfold Qlt_bool in Hlt. apply negb_false_iff in Hlt.
        apply Qle_bool_iff. exact Hlt. }
      rewrite Happ, <- Hlen. apply IH.
      * rewrite nth_error_app1; [exact Hbest|].
        apply nth_error_Some. rewrite Hbest. discriminate.
      * intros c' Hin. apply in_app_or in Hin. destruct Hin as [Hin|[Heq|[]]].
        -- apply Hmax. exact Hin.
        -- subst c'. exact Hle.
Qed.

(** X13: [WaveTrack::RightmostOrNewClip] always yields a clip of the track it
    leaves behind, and no clip of that track has a greater offset.  A track
    that has clips is not changed; a track without clips gets one clip,
    placed at the track's offset, with no samples stored or pending. *)
Theorem RightmostOrNewClip_is_rightmost (tr tr0 : WaveTrack) (i : nat) :
  RightmostOrNewClip tr = (tr0, i) ->
  exists c,
    nth_error (mClips tr0) i = Some c
    /\ (forall c', In c' (mClips tr0) -> (clip_mOffset c' <= clip_mOffset c)%Q)
    /\ (mClips tr <> [] -> tr0 = tr)
    /\ (mClips tr = [] ->
        mClips tr0 = [c] /\ clip_mOffset c = mOffset tr
        /\ WaveClip_GetNumSamples c = 0 /\ mAppendBufferLen c = O
        /\ mSampleFormat (mSequence c) = mFormat tr /\ clip_mRate c = mRate tr).
Proof.
  unfold RightmostOrNewClip. destruct (mClips tr) as [|first rest] eqn:Hclips.
  - intro H. inversion H. subst tr0 i. cbn [with_clips mClips nth_error].
    eexists. split; [reflexivity|]. split; [|split].
    + intros c' [Heq|[]]. subst c'. apply Qle_refl.
    + intro Hne. contradiction.
    + intros _. repeat split; reflexivity.
  - intro H. inversion H. subst tr0. rewrite Hclips.
    destruct (rightmost_index_max rest [first] O first eq_refl) as (c & Hc & Hmax).
    { intros c' [Heq|[]]. subst c'. apply Qle_refl. }
    exists c. split; [exact Hc|]. split; [exact Hmax|]. split.
    + intros _. reflexivity.
    + intro Hnil. discriminate.
Qed.

(** ** Gain and pan *)

Lemma Qlt_bool_false (a b : Q) : Qlt_bool a b = false <-> (b <= a)%Q.
Proof.
  unfold Qlt_bool. rewrite negb_false_iff. apply Qle_bool_iff.
Qed.

Lemma Qlt_bool_cases (a b : Q) :
  (Qlt_bool a b = true /\ (a < b)%Q) \/ (Qlt_bool a b = false /\ (b <= a)%Q).
Proof.
  destruct (Qlt_bool a b) eqn:E.
  - left. split; [reflexivity|]. apply Qlt_bool_true. exact E.
  - right. split; [reflexivity|]. apply Qlt_bool_false. exact E.
Qed.

(** X14: [WaveTrack::SetPan] clamps the pan to [-1, 1] and keeps a pan that is
    already there; with a pan set through it and a gain that is not
    negative, [WaveTrack::GetChannelGain] lies between 0 and the track gain
    for every channel, and one of the two channels gets the full gain. *)
Theorem SetPan_never_amplifies (tr : WaveTrack) (newPan : Q) (channel : Z) :
  (0 <= mGain tr)%Q ->
  (- (1) <= mPan (SetPan tr newPan))%Q
  /\ (mPan (SetPan tr newPan) <= 1)%Q
  /\ ((- (1) <= newPan)%Q -> (newPan <= 1)%Q -> mPan (SetPan tr newPan) = newPan)
  /\ (0 <= GetChannelGain (SetPan tr newPan) channel)%Q
  /\ (GetChannelGain (SetPan tr newPan) channel <= mGain tr)%Q
  /\ (GetChannelGain (SetPan tr newPan) 0 == mGain tr
      \/ GetChannelGain (SetPan tr newPan) 1 == mGain tr)%Q.
Proof.
  intro Hg.
  set (p := mPan (SetPan tr newPan)).
  assert (Hp : (- (1) <= p)%Q /\ (p <= 1)%Q).
  { unfold p. cbn [SetPan mPan].
    destruct (Qlt_bool_cases 1 newPan) as [[E H1]|[E H1]]; rewrite E.
    - split; lra.
    - destruct (Qlt_bool_cases newPan (-1)%Q) as [[E2 H2]|[E2 H2]]; rewrite E2.
      + split; lra.
      + split; lra. }
  destruct Hp as [Hlo Hhi].
  split; [exact Hlo|]. split; [exact Hhi|]. split.
  { intros H1 H2. unfold p. cbn [SetPan mPan].
    destruct (Qlt_bool_cases 1 newPan) as [[E H3]|[E H3]]; rewrite E; [lra|].
    destruct (Qlt_bool_cases newPan (-1)%Q) as [[E2 H4]|[E2 H4]]; rewrite E2; [lra|].
    reflexivity. }
  assert (Hgain : mGain (SetPan tr newPan) = mGain tr) by reflexivity.
  unfold GetChannelGain. fold p. rewrite Hgain.
  destruct (Qlt_bool_cases p 0) as [[E H1]|[E H1]]; rewrite E.
  - split; [|split].
    + destruct (Z.rem channel 2 =? 0); nra.
    + destruct (Z.rem channel 2 =? 0); nra.
    + left. cbn. lra.
  - destruct (Qlt_bool_cases 0 p) as [[E2 H2]|[E2 H2]]; rewrite E2.
    + split; [|split].
      * destruct (Z.rem channel 2 =? 0); nra.
      * destruct (Z.rem channel 2 =? 0); nra.
      * right. cbn. lra.
    + split; [|split].
      * destruct (Z.rem channel 2 =? 0); nra.
      * destruct (Z.rem channel 2 =? 0); nra.
      * left. cbn. lra.
Qed.

(** ** Times and sample positions of a clip *)

Lemma round_to_sample_monotone (rate : Z) (t t' : Q) :
  0 <= rate -> (t <= t')%Q ->
  Qfloor (t * inject_Z rate + (1 # 2)) <= Qfloor (t' * inject_Z rate + (1 # 2)).
Proof.
  intros Hr Ht. apply Qfloor_resp_le.
  assert (H : (0 <= inject_Z rate)%Q).
  { change 0%Q with (inject_Z 0). rewrite <- Zle_Qle. exact Hr. }
  nra.
Qed.

Lemma rate_times_length (n rate : Z) :
  0 < rate -> (inject_Z n / inject_Z rate * inject_Z rate == inject_Z n)%Q.
Proof.
  intro Hr. rewrite Qmult_comm. apply Qmult_div_r.
  intro E. unfold Qeq in E. simpl in E. lia.
Qed.

(** X15: for a clip with a positive rate and a sample count that is not
    negative, [WaveClip::TimeToSamplesClip] always gives a position from 0
    to the clip's sample count, whatever the time, and a later time never
    gives an earlier position. *)
Theorem TimeToSamplesClip_within_clip (c : WaveClip) (t0 t1 : Q) :
  0 < clip_mRate c -> 0 <= WaveClip_GetNumSamples c ->
  0 <= TimeToSamplesClip c t0 <= WaveClip_GetNumSamples c
  /\ ((t0 <= t1)%Q -> TimeToSamplesClip c t0 <= TimeToSamplesClip c t1).
Proof.
  intros Hr HN. unfold WaveClip_GetNumSamples in *.
  set (N := mNumSamples (mSequence c)) in *.
  set (R := inject_Z (clip_mRate c)).
  set (off := clip_mOffset c).
  assert (HR : (0 < R)%Q).
  { unfold R. change 0%Q with (inject_Z 0). rewrite <- Zlt_Qlt. exact Hr. }
  assert (HNq : (0 <= inject_Z N)%Q).
  { change 0%Q with (inject_Z 0). rewrite <- Zle_Qle. exact HN. }
  pose proof (rate_times_length N (clip_mRate c) Hr) as Hq. fold R in Hq.
  set (q := (inject_Z N / R)%Q) in *.
  assert (Hmid : forall t, (off <= t)%Q -> (t <= off + q)%Q ->
            0 <= Qfloor ((t - off) * R + (1 # 2)) <= N).
  { intros t Hlo Hhi. split.
    - rewrite <- (Qfloor_Z 0). apply Qfloor_resp_le. change (inject_Z 0) with 0%Q. nra.
    - assert (H : Qfloor ((t - off) * R + (1 # 2)) < N + 1); [|lia].
      rewrite Zlt_Qlt. eapply Qle_lt_trans; [apply Qfloor_le|].
      rewrite inject_Z_plus. change (inject_Z 1) with 1%Q. nra. }
  assert (Hrange : forall t, 0 <= TimeToSamplesClip c t <= N).
  { intro t. unfold TimeToSamplesClip. fold N. fold R. fold off. fold q.
    destruct (Qlt_bool_cases t off) as [[E H1]|[E H1]]; rewrite E; [lia|].
    destruct (Qlt_bool_cases (off + q) t) as [[E2 H2]|[E2 H2]]; rewrite E2; [lia|].
    apply Hmid; assumption. }
  split; [apply Hrange|].
  intro Ht. pose proof (Hrange t0) as Hr0. pose proof (Hrange t1) as Hr1.
  unfold TimeToSamplesClip in *. fold N in Hr0, Hr1 |- *. fold R in Hr0, Hr1 |- *.
  fold off in Hr0, Hr1 |- *. fold q in Hr0, Hr1 |- *.
  destruct (Qlt_bool_cases t0 off) as [[E H1]|[E H1]]; rewrite E in *; [lia|].
  destruct (Qlt_bool_cases (off + q) t0) as [[E2 H2]|[E2 H2]]; rewrite E2 in *.
  - destruct (Qlt_bool_cases t1 off) as [[E3 H3]|[E3 H3]]; rewrite E3; [lra|].
    destruct (Qlt_bool_cases (off + q) t1) as [[E4 H4]|[E4 H4]]; rewrite E4; [lia|lra].
  - destruct (Qlt_bool_cases t1 off) as [[E3 H3]|[E3 H3]]; rewrite E3 in *; [lra|].
    destruct (Qlt_bool_cases (off + q) t1) as [[E4 H4]|[E4 H4]]; rewrite E4 in *; [lia|].
    apply Qfloor_resp_le. nra.
Qed.

(** ** The time span of a track *)




(** X17: when [WaveTrack::IsEmpty] reports the span from [t0] to [t1] (with
    [t0] not after [t1]) as empty, no time of that span lies within any clip
    of the track, the samples pending in append buffers included; clip
    rates are taken as not negative. *)
Theorem IsEmpty_means_no_clip_within (tr : WaveTrack) (t0 t1 t : Q) (c : WaveClip) :
  (forall c', In c' (mClips tr) -> 0 <= clip_mRate c') ->
  IsEmpty tr t0 t1 = true ->
  (t0 <= t)%Q -> (t <= t1)%Q ->
  In c (mClips tr) ->
  WithinClip c t = false.
Proof.
  intros Hrate Hempty Ht0 Ht1 Hin. unfold IsEmpty in Hempty.
  destruct (Qlt_bool_cases t1 t0) as [[E H1]|[E H1]]; rewrite E in Hempty; [lra|].
  apply negb_true_iff in Hempty.
  assert (Hc : negb (BeforeClip c t1) && negb (AfterClip c t0) = false).
  { destruct (negb (BeforeClip c t1) && negb (AfterClip c t0)) eqn:Ec; [|reflexivity].
    rewrite <- Hempty. symmetry. apply existsb_exists. exists c. split; assumption. }
  pose proof (round_to_sample_monotone (clip_mRate c) t0 t (Hrate c Hin) Ht0) as Hm0.
  pose proof (round_to_sample_monotone (clip_mRate c) t t1 (Hrate c Hin) Ht1) as Hm1.
  unfold WithinClip. unfold BeforeClip, AfterClip in Hc.
  apply andb_false_iff in Hc. apply andb_false_iff.
  destruct Hc as [Hb|Ha].
  - left. apply negb_false_iff in Hb. apply Z.leb_le in Hb. apply Z.ltb_ge. lia.
  - right. apply negb_false_iff in Ha. apply Z.leb_le in Ha. apply Z.ltb_ge. lia.
Qed.


(** ** Block boundaries *)

Lemma block_end_inside (blocks : list SeqBlock) (blk : SeqBlock) :
  chained blocks 0 -> In blk blocks ->
  start blk + Z.of_nat (GetLength (f blk)) <= Z.of_nat (blocks_length blocks).
Proof.
  intros Hch Hin. apply In_nth_error in Hin. destruct Hin as (k & Hk).
  rewrite (chained_nth _ _ _ _ Hch Hk).
  pose proof (prefix_succ _ _ _ Hk) as Hs.
  pose proof (prefix_mono blocks (S k) (length blocks) ) as Hm.
  rewrite (prefix_all blocks (length blocks)) in Hm by lia.
  assert (S k <= length blocks)%nat.
  { apply Nat.le_succ_l. apply nth_error_Some. rewrite Hk. discriminate. }
  lia.
Qed.

Lemma GetBestBlockSize_loop_spec (following : list SeqBlock) :
  forall (minSamples maxSamples result : nat) (base : Z),
    chained following base ->
    (result <= maxSamples)%nat ->
    (result <= GetBestBlockSize_loop following minSamples maxSamples result
     <= maxSamples)%nat
    /\ (GetBestBlockSize_loop following minSamples maxSamples result = result
        \/ exists blk,
             In blk following
             /\ base + Z.of_nat (GetBestBlockSize_loop following minSamples
                                                       maxSamples result - result)
                = start blk + Z.of_nat (GetLength (f blk))).
Proof.
  induction following as [|next rest IH]; intros minSamples maxSamples result base Hch Hres.
  - cbn [GetBestBlockSize_loop]. split; [lia|]. left. reflexivity.
  - cbn [GetBestBlockSize_loop]. destruct Hch as [Hst Hch].
    destruct ((result <? minSamples)%nat
              && (GetLength (f next) + result <=? maxSamples)%nat) eqn:Hcond.
    + apply andb_true_iff in Hcond. destruct Hcond as [_ Hfit].
      apply Nat.leb_le in Hfit.
      destruct (IH minSamples maxSamples (result + GetLength (f next))%nat
                   (base + Z.of_nat (GetLength (f next))) Hch ltac:(lia))
        as (Hbound & Hwhere).
      split; [lia|]. right.
      destruct Hwhere as [Heq|(blk & Hin & Hend)].
      * exists next. split; [left; reflexivity|]. rewrite Heq, Hst. lia.
      * exists blk. split; [right; exact Hin|]. rewrite <- Hend. lia.
    + split; [lia|]. left. reflexivity.
Qed.

Lemma Sequence_GetBestBlockSize_spec (s : Sequence) (start0 : Z) :
  Sequence_ok s = true -> (0 < mMaxSamples s)%nat ->
  exists r,
    Sequence_GetBestBlockSize s start0 = Returned r
    /\ (0 < r <= mMaxSamples s)%nat
    /\ (0 <= start0 < mNumSamples s ->
        start0 + Z.of_nat r <= mNumSamples s
        /\ exists blk, In blk (mBlock s)
                       /\ start0 + Z.of_nat r
                          = start blk + Z.of_nat (GetLength (f blk)))
    /\ (start0 < 0 \/ mNumSamples s <= start0 -> r = mMaxSamples s).
Proof.
  intros Hok Hmax. unfold Sequence_GetBestBlockSize.
  destruct ((start0 <? 0) || (mNumSamples s <=? start0)) eqn:Hout.
  - exists (mMaxSamples s). split; [reflexivity|]. split; [lia|].
    apply orb_true_iff in Hout. rewrite Z.ltb_lt, Z.leb_le in Hout.
    split; [intro; lia|]. intros _. reflexivity.
  - apply orb_false_iff in Hout. rewrite Z.ltb_ge, Z.leb_gt in Hout.
    destruct (FindBlock_spec s start0 Hok ltac:(lia)) as (b & blk & Hrun & Hb & Hin).
    rewrite Hrun. cbn [bind]. rewrite Hb.
    destruct (Sequence_ok_chained s Hok) as (Hch & Hnum & _ & Hlens).
    assert (Hblk : (GetLength (f blk) <= mMaxSamples s)%nat).
    { rewrite forallb_forall in Hlens. apply Nat.leb_le. apply Hlens.
      eapply nth_error_In. exact Hb. }
    destruct (Z.ltb_spec (start blk + Z.of_nat (GetLength (f blk)) - start0) 0);
      [lia|].
    set (result0 := Z.to_nat (start blk + Z.of_nat (GetLength (f blk)) - start0)).
    assert (Hr0 : (0 < result0 <= GetLength (f blk))%nat) by (unfold result0; lia).
    assert (Hch2 : chained (skipn (S b) (mBlock s)) (start0 + Z.of_nat result0)).
    { pose proof (chained_skipn (mBlock s) 0 (S b) Hch) as Hsk.
      rewrite (prefix_succ _ _ _ Hb) in Hsk.
      pose proof (chained_nth _ _ _ _ Hch Hb) as Hst.
      replace (start0 + Z.of_nat result0)
        with (0 + Z.of_nat (blocks_length (firstn b (mBlock s)) + GetLength (f blk)))
        by (unfold result0; lia).
      exact Hsk. }
    destruct (GetBestBlockSize_loop_spec (skipn (S b) (mBlock s)) (mMinSamples s)
                (mMaxSamples s) result0 (start0 + Z.of_nat result0) Hch2 ltac:(lia))
      as (Hbound & Hwhere).
    set (r := GetBestBlockSize_loop (skipn (S b) (mBlock s)) (mMinSamples s)
                                    (mMaxSamples s) result0) in *.
    assert (Hcheck : (0 <? r)%nat && (r <=? mMaxSamples s)%nat = true).
    { apply andb_true_iff. rewrite Nat.ltb_lt, Nat.leb_le. lia. }
    rewrite Hcheck. exists r. split; [reflexivity|]. split; [lia|].
    split; [|intro; lia]. intros _.
    assert (Hblock : exists blk', In blk' (mBlock s)
                       /\ start0 + Z.of_nat r
                          = start blk' + Z.of_nat (GetLength (f blk'))).
    { destruct Hwhere as [Heq|(blk' & Hin' & Hend)].
      - exists blk. split; [eapply nth_error_In; exact Hb|].
        rewrite Heq. unfold result0. lia.
      - exists blk'. split.
        + rewrite <- (firstn_skipn (S b) (mBlock s)). apply in_or_app. right. exact Hin'.
        + rewrite <- Hend. lia. }
    split; [|exact Hblock].
    destruct Hblock as (blk' & Hin' & Hend). rewrite Hend, Hnum.
    apply block_end_inside; assumption.
Qed.

Lemma Sequence_GetBlockStart_spec (s : Sequence) (position : Z) :
  Sequence_ok s = true -> 0 <= position < mNumSamples s ->
  exists st,
    Sequence_GetBlockStart s position = Returned st
    /\ 0 <= st <= position
    /\ position - st < Z.of_nat (mMaxSamples s)
    /\ Sequence_GetBlockStart s st = Returned st.
Proof.
  intros Hok Hpos. unfold Sequence_GetBlockStart.
  destruct (FindBlock_spec s position Hok Hpos) as (b & blk & Hrun & Hb & Hin).
  rewrite Hrun. cbn [bind]. rewrite Hb.
  destruct (Sequence_ok_chained s Hok) as (Hch & Hnum & _ & Hlens).
  assert (Hblk : (GetLength (f blk) <= mMaxSamples s)%nat).
  { rewrite forallb_forall in Hlens. apply Nat.leb_le. apply Hlens.
    eapply nth_error_In. exact Hb. }
  pose proof (chained_nth _ _ _ _ Hch Hb) as Hst.
  exists (start blk). split; [reflexivity|]. split; [lia|]. split; [lia|].
  destruct (FindBlock_spec s (start blk) Hok ltac:(lia)) as (b' & blk' & Hrun' & Hb' & Hin').
  rewrite Hrun'. cbn [bind]. rewrite Hb'.
  assert (Hsame : b' = b).
  { apply (block_index_unique (mBlock s) 0 (start blk) b b' blk blk' Hch Hb Hb');
      [lia|exact Hin']. }
  subst b'. rewrite Hb in Hb'. inversion Hb'. reflexivity.
Qed.

(** X19: on a consistent sequence with a positive maximum block size,
    [Sequence::GetBestBlockSize] returns (its assert holds) a size that is
    never 0 and never more than the maximum block size; for a start inside
    the sequence, reading that many samples from the start stays inside the
    sequence and ends exactly at the end of a block; for a start outside it
    the size is the maximum block size. *)
Theorem GetBestBlockSize_ends_on_block_boundary (s : Sequence) (start0 : Z) :
  Sequence_ok s = true -> (0 < mMaxSamples s)%nat ->
  exists r,
    Sequence_GetBestBlockSize s start0 = Returned r
    /\ (0 < r <= mMaxSamples s)%nat
    /\ (0 <= start0 < mNumSamples s ->
        start0 + Z.of_nat r <= mNumSamples s
        /\ exists blk, In blk (mBlock s)
                       /\ start0 + Z.of_nat r
                          = start blk + Z.of_nat (GetLength (f blk)))
    /\ (start0 < 0 \/ mNumSamples s <= start0 -> r = mMaxSamples s).
Proof.
  intros Hok Hmax. exact (Sequence_GetBestBlockSize_spec s start0 Hok Hmax).
Qed.

(** X20: on a consistent sequence, [Sequence::GetBlockStart] of a position
    inside the sequence returns the first sample of the block that holds the
    position: a position from 0 to the given one, less than a maximum block
    size before it, whose own block start is itself. *)
Theorem GetBlockStart_is_start_of_block (s : Sequence) (position : Z) :
  Sequence_ok s = true -> 0 <= position < mNumSamples s ->
  exists st,
    Sequence_GetBlockStart s position = Returned st
    /\ 0 <= st <= position
    /\ position - st < Z.of_nat (mMaxSamples s)
    /\ Sequence_GetBlockStart s st = Returned st.
Proof.
  intros Hok Hpos. exact (Sequence_GetBlockStart_spec s position Hok Hpos).
Qed.

Lemma GetBlockStart_clips_spec (tr : WaveTrack) (s : Z) (clips : list WaveClip) :
  forallb (fun c => Sequence_ok (mSequence c)) clips = true ->
  exists v,
    WaveTrack_GetBlockStart_clips clips (mRate tr) s = Returned v
    /\ ((forall c, In c clips -> track_covers tr c s = false) -> v = -1)
    /\ ((exists c, In c clips /\ track_covers tr c s = true) ->
        exists c, In c clips /\ track_covers tr c s = true
                  /\ track_start_sample tr c <= v <= s).
Proof.
  induction clips as [|clip rest IH]; intro Hok.
  - exists (-1). split; [reflexivity|]. split; [reflexivity|].
    intros (c & [] & _).
  - cbn [forallb] in Hok. apply andb_true_iff in Hok. destruct Hok as [Hok1 Hok2].
    cbn [WaveTrack_GetBlockStart_clips].
    assert (Hst : Qfloor ((1 # 2) + WaveClip_GetStartTime clip * inject_Z (mRate tr))
                  = track_start_sample tr clip).
    { unfold track_start_sample. apply Qfloor_comp. apply Qplus_comm. }
    rewrite Hst.
    destruct ((track_start_sample tr clip <=? s)
              && (s <? track_start_sample tr clip + WaveClip_GetNumSamples clip))
      eqn:Hcov.
    + pose proof Hcov as Hcov'.
      apply andb_true_iff in Hcov. rewrite Z.leb_le, Z.ltb_lt in Hcov.
      unfold WaveClip_GetNumSamples in Hcov.
      destruct (Sequence_GetBlockStart_spec (mSequence clip)
                  (s - track_start_sample tr clip) Hok1 ltac:(lia))
        as (st & Hrun & Hrange & _).
      rewrite Hrun. cbn [bind]. eexists. split; [reflexivity|]. split.
      * intro Hnone. specialize (Hnone clip (or_introl eq_refl)).
        unfold track_covers in Hnone. rewrite Hcov' in Hnone. discriminate.
      * intros _. exists clip. split; [left; reflexivity|].
        split; [exact Hcov'|lia].
    + destruct (IH Hok2) as (v & Hrun & Hnone & Hsome).
      exists v. split; [exact Hrun|]. split.
      * intro Hall. apply Hnone. intros c Hin. apply Hall. right. exact Hin.
      * intros (c & [Heq|Hin] & Hc).
        -- subst c. unfold track_covers in Hc. rewrite Hcov in Hc. discriminate.
        -- destruct (Hsome (ex_intro _ c (conj Hin Hc))) as (c' & Hin' & Hc' & Hv).
           exists c'. split; [right; exact Hin'|]. split; assumption.
Qed.

(** X21: on a track of consistent clips [WaveTrack::GetBlockStart] returns -1
    for a position inside no clip, and for a position inside a clip a block
    start between that clip's first sample and the position.  So when no
    clip starts before sample 0, the result is negative exactly for the
    positions inside no clip, which is the test [WaveTrackCache::Get]
    makes. *)
Theorem WaveTrack_GetBlockStart_finds_clip (tr : WaveTrack) (s : Z) :
  track_ok tr = true ->
  exists v,
    WaveTrack_GetBlockStart tr s = Returned v
    /\ ((forall c, In c (mClips tr) -> track_covers tr c s = false) -> v = -1)
    /\ ((exists c, In c (mClips tr) /\ track_covers tr c s = true) ->
        exists c, In c (mClips tr) /\ track_covers tr c s = true
                  /\ track_start_sample tr c <= v <= s)
    /\ ((forall c, In c (mClips tr) -> 0 <= track_start_sample tr c) ->
        (0 <= v <-> exists c, In c (mClips tr) /\ track_covers tr c s = true)).
Proof.
  intro Hok. unfold WaveTrack_GetBlockStart.
  destruct (GetBlockStart_clips_spec tr s (mClips tr) Hok) as (v & Hrun & Hnone & Hsome).
  exists v. split; [exact Hrun|]. split; [exact Hnone|]. split; [exact Hsome|].
  intro Hpos. split.
  - intro Hv.
    destruct (existsb (fun c => track_covers tr c s) (mClips tr)) eqn:Eex.
    + apply existsb_exists in Eex. exact Eex.
    + exfalso. assert (v = -1); [|lia]. apply Hnone. intros c Hin.
      destruct (track_covers tr c s) eqn:Ec; [|reflexivity].
      rewrite <- Eex. symmetry. apply existsb_exists. exists c. split; assumption.
  - intro Hex. destruct (Hsome Hex) as (c & Hin & _ & Hv).
    specialize (Hpos c Hin). lia.
Qed.

Lemma fold_max_ge (clips : list WaveClip) :
  forall (m : nat),
    (m <= fold_left (fun m clip => Nat.max m (GetMaxBlockSize (mSequence clip))) clips m)%nat
    /\ forall c, In c clips ->
         (GetMaxBlockSize (mSequence c)
          <= fold_left (fun m clip => Nat.max m (GetMaxBlockSize (mSequence clip)))
                       clips m)%nat.
Proof.
  induction clips as [|clip rest IH]; intro m.
  - cbn. split; [lia|]. intros c [].
  - cbn [fold_left].
    destruct (IH (Nat.max m (GetMaxBlockSize (mSequence clip)))) as (Hm & Hall).
    split; [lia|]. intros c [Heq|Hin]; [subst c; lia|apply Hall; exact Hin].
Qed.

Lemma GetBestBlockSize_clips_spec (tr : WaveTrack) (s : Z) (best bound : nat)
    (clips : list WaveClip) :
  forallb (fun c => Sequence_ok (mSequence c)) clips = true ->
  (forall c, In c clips -> (GetMaxBlockSize (mSequence c) <= bound)%nat) ->
  (0 < best <= bound)%nat ->
  exists r,
    GetBestBlockSize_clips clips (mRate tr) s best = Returned r
    /\ (0 < r <= bound)%nat.
Proof.
  induction clips as [|clip rest IH]; intros Hok Hbound Hbest.
  - exists best. split; [reflexivity|exact Hbest].
  - cbn [forallb] in Hok. apply andb_true_iff in Hok. destruct Hok as [Hok1 Hok2].
    cbn [GetBestBlockSize_clips]. fold (track_start_sample tr clip).
    destruct ((track_start_sample tr clip <=? s)
              && (s <? track_start_sample tr clip + WaveClip_GetNumSamples clip))
      eqn:Hcov.
    + apply andb_true_iff in Hcov. rewrite Z.leb_le, Z.ltb_lt in Hcov.
      unfold WaveClip_GetNumSamples in Hcov.
      assert (Hin : 0 <= s - track_start_sample tr clip < mNumSamples (mSequence clip))
        by lia.
      assert (Hmax : (0 < mMaxSamples (mSequence clip))%nat).
      { destruct (FindBlock_spec _ _ Hok1 Hin) as (b & blk & _ & Hb & Hr).
        destruct (Sequence_ok_chained _ Hok1) as (_ & _ & _ & Hlens).
        rewrite forallb_forall in Hlens.
        pose proof (Hlens blk (nth_error_In _ _ Hb)) as Hl. apply Nat.leb_le in Hl. lia. }
      destruct (Sequence_GetBestBlockSize_spec (mSequence clip)
                  (s - track_start_sample tr clip) Hok1 Hmax)
        as (r & Hrun & Hr & _).
      exists r. split; [exact Hrun|].
      pose proof (Hbound clip (or_introl eq_refl)) as Hb. unfold GetMaxBlockSize in Hb.
      lia.
    + apply IH; [exact Hok2| |exact Hbest].
      intros c Hin. apply Hbound. right. exact Hin.
Qed.

(** X22: on a track of consistent clips, when a new sequence of the track's
    format has a positive maximum block size, [WaveTrack::GetMaxBlockSize]
    returns a positive size that is at least the maximum block size of
    every clip, and [WaveTrack::GetBestBlockSize] returns for every position
    a size that is not 0 and not more than it, as the asserts of
    [WaveTrackCache::Get] on its buffer size require. *)
Theorem WaveTrack_GetBestBlockSize_fits_maximum (tr : WaveTrack) (s : Z) :
  track_ok tr = true ->
  (0 < GetMaxBlockSize (Sequence_new (mFormat tr)))%nat ->
  exists m r,
    WaveTrack_GetMaxBlockSize tr = Returned m
    /\ WaveTrack_GetBestBlockSize tr s = Returned r
    /\ (0 < r <= m)%nat
    /\ forall c, In c (mClips tr) -> (GetMaxBlockSize (mSequence c) <= m)%nat.
Proof.
  intros Hok Hnew. unfold WaveTrack_GetBestBlockSize, WaveTrack_GetMaxBlockSize.
  destruct (fold_max_ge (mClips tr) O) as (_ & Hall).
  set (m0 := fold_left (fun m clip => Nat.max m (GetMaxBlockSize (mSequence clip)))
                       (mClips tr) O) in *.
  set (m := if (m0 =? 0)%nat then GetMaxBlockSize (Sequence_new (mFormat tr)) else m0).
  assert (Hm : (0 < m)%nat /\ (m0 <= m)%nat).
  { unfold m. destruct (Nat.eqb_spec m0 0); lia. }
  destruct Hm as [Hm1 Hm2].
  assert (Hpos : (0 <? m)%nat = true) by (apply Nat.ltb_lt; exact Hm1).
  rewrite Hpos. cbn [bind].
  destruct (GetBestBlockSize_clips_spec tr s m m (mClips tr) Hok) as (r & Hrun & Hr).
  { intros c Hin. specialize (Hall c Hin). lia. }
  { lia. }
  exists m, r. split; [reflexivity|]. split; [exact Hrun|]. split; [exact Hr|].
  intros c Hin. specialize (Hall c Hin). lia.
Qed.

(** ** Blocks cut from a buffer *)





(** ** Overwriting samples *)

Lemma skipn_cons_nth {A : Type} (l : list A) :
  forall (n : nat) (a : A),
    nth_error l n = Some a -> skipn n l = a :: skipn (S n) l.
Proof.
  induction l as [|x l IH]; intros n a H.
  - destruct n; discriminate.
  - destruct n as [|n].
    + cbn in H. inversion H. reflexivity.
    + cbn [nth_error] in H. cbn [skipn]. apply IH. exact H.
Qed.

Lemma SetSamples_loop_returns (seqFormat format : sampleFormat) :
  forall (blocks : list SeqBlock) (buffer : option (list sample)) (base start0 len : Z),
    chained blocks base ->
    forallb (fun b => block_complete (f b)) blocks = true ->
    (len <= 0
     \/ match blocks with
        | [] => True
        | b :: _ => base <= start0 <= base + Z.of_nat (GetLength (f b))
        end) ->
    exists replaced,
      SetSamples_loop seqFormat blocks buffer format start0 len = Returned replaced.
Proof.
  induction blocks as [|block0 rest IH]; intros buffer base start0 len Hch Hcomplete Hpos.
  - eexists. reflexivity.
  - cbn [SetSamples_loop].
    destruct (Z.leb_spec len 0) as [Hlen|Hlen]; [eexists; reflexivity|].
    destruct Hpos as [Hpos|Hpos]; [lia|].
    destruct Hch as [Hst Hch]. subst base.
    cbn [forallb] in Hcomplete. apply andb_true_iff in Hcomplete.
    destruct Hcomplete as [Hc0 Hcrest].
    destruct (Z.ltb_spec (start0 - start block0) 0) as [Hneg|_]; [lia|].
    set (bstart := Z.to_nat (start0 - start block0)).
    set (fileLength := GetLength (f block0)).
    set (blen := limitSampleBufferSize (fileLength - Nat.min bstart fileLength) len).
    assert (Hbs : (bstart <= fileLength)%nat) by (unfold bstart, fileLength; lia).
    assert (Hblen : blen = Z.to_nat (Z.min (Z.of_nat (fileLength - bstart)) len)).
    { unfold blen, limitSampleBufferSize. rewrite Nat.min_l by exact Hbs.
      rewrite Z.max_r by lia. reflexivity. }
    assert (Hassert : (blen =? 0)%nat || (bstart + blen <=? fileLength)%nat = true).
    { apply orb_true_iff. right. apply Nat.leb_le. lia. }
    rewrite Hassert. cbn [negb].
    match goal with
    | |- exists _, bind ?m _ = _ =>
        assert (Hfile : exists newFile, m = Returned newFile)
    end.
    { destruct ((0 <? bstart)%nat || (blen <? fileLength)%nat).
      - unfold Sequence_Read.
        assert (Hfit : (0 + fileLength <=? GetLength (f block0))%nat = true).
        { apply Nat.leb_le. unfold fileLength. lia. }
        rewrite Hfit. cbn [negb].
        destruct (ReadData_spec (f block0) (fun _ => 0%Q) 0 seqFormat 0 fileLength true)
          as (r & mem' & Hrun & _).
        { unfold fileLength. lia. }
        { right. exact Hc0. }
        rewrite Hrun. cbn [bind]. eexists. reflexivity.
      - eexists. reflexivity. }
    destruct Hfile as (newFile & Hfile). rewrite Hfile. cbn [bind].
    destruct (IH (option_map (skipn blen) buffer)
                 (start block0 + Z.of_nat (GetLength (f block0)))
                 (start0 + Z.of_nat blen) (len - Z.of_nat blen) Hch Hcrest)
      as (rest1 & Hrest).
    { destruct (Z.le_gt_cases len (Z.of_nat (fileLength - bstart))) as [Hle|Hgt].
      - left. lia.
      - right. destruct rest as [|b1 rest']; [exact I|].
        fold fileLength. unfold bstart in *. lia. }
    rewrite Hrest. cbn [bind]. eexists. reflexivity.
Qed.

Lemma Sequence_SetSamples_spec (s : Sequence) (buffer : option (list sample))
    (format : sampleFormat) (start0 len : Z) :
  (forall s', Sequence_SetSamples s buffer format start0 len = Returned s' -> s' = s)
  /\ (start0 < 0 \/ mNumSamples s < start0 + len ->
      Sequence_SetSamples s buffer format start0 len = Thrown InconsistencyException)
  /\ (Sequence_ok s = true -> Sequence_complete s = true ->
      0 <= start0 < mNumSamples s -> start0 + len <= mNumSamples s ->
      Sequence_SetSamples s buffer format start0 len = Returned s).
Proof.
  split; [|split].
  - intros s' H. unfold Sequence_SetSamples in H.
    destruct (SetSamples_newBlock s buffer format start0 len); cbn [bind] in H;
      try discriminate.
    inversion H. reflexivity.
  - intro Hout. unfold Sequence_SetSamples, SetSamples_newBlock.
    assert (Hcond : (start0 <? 0) || (mNumSamples s <? start0 + len) = true).
    { apply orb_true_iff. rewrite !Z.ltb_lt. exact Hout. }
    rewrite Hcond. reflexivity.
  - intros Hok Hcomplete Hstart Hend. unfold Sequence_SetSamples, SetSamples_newBlock.
    assert (Hcond : (start0 <? 0) || (mNumSamples s <? start0 + len) = false).
    { apply orb_false_iff. rewrite !Z.ltb_ge. lia. }
    rewrite Hcond.
    destruct (FindBlock_spec s start0 Hok Hstart) as (b & blk & Hrun & Hb & Hin).
    rewrite Hrun. cbn [bind].
    destruct (Sequence_ok_chained s Hok) as (Hch & _).
    pose proof (chained_skipn (mBlock s) 0 b Hch) as Hsk.
    pose proof (chained_nth _ _ _ _ Hch Hb) as Hst.
    destruct (SetSamples_loop_returns (mSampleFormat s) format (skipn b (mBlock s))
                buffer (0 + Z.of_nat (blocks_length (firstn b (mBlock s)))) start0 len Hsk)
      as (replaced & Hloop).
    { unfold Sequence_complete in Hcomplete.
      rewrite <- (firstn_skipn b (mBlock s)), forallb_app in Hcomplete.
      apply andb_true_iff in Hcomplete. apply Hcomplete. }
    { right. rewrite (skipn_cons_nth _ _ _ Hb). lia. }
    rewrite Hloop. reflexivity.
Qed.

Lemma WaveClip_SetSamples_same_audio (c : WaveClip) (buffer : option (list sample))
    (format : sampleFormat) (start0 : Z) (len : nat) (c' : WaveClip) :
  WaveClip_SetSamples c buffer format start0 len = Returned c' ->
  same_audio c c' /\ clip_mDirty c' = clip_mDirty c + 1.
Proof.
  unfold WaveClip_SetSamples. intro H.
  destruct (Sequence_SetSamples (mSequence c) buffer format start0 (Z.of_nat len))
    as [s1| |] eqn:E; cbn [bind] in H; try discriminate.
  destruct (Sequence_SetSamples_spec (mSequence c) buffer format start0 (Z.of_nat len))
    as (Hsame & _).
  apply Hsame in E. subst s1. inversion H. subst c'.
  unfold same_audio. cbn. repeat split; reflexivity.
Qed.

Lemma Set_clips_same_audio (buffer : list sample) (format : sampleFormat)
    (start0 : Z) (len : nat) :
  forall (clips clips' : list WaveClip),
    Set_clips clips buffer format start0 len = Returned clips' ->
    Forall2 same_audio clips clips'.
Proof.
  induction clips as [|clip rest IH]; intros clips' H.
  - cbn in H. inversion H. constructor.
  - cbn [Set_clips] in H.
    destruct ((start0 <? GetEndSample clip)
              && (GetStartSample clip <? start0 + Z.of_nat len)).
    + destruct (GetStartSample clip - start0 <? 0).
      * destruct (WaveClip_SetSamples clip _ format _ _) as [clip1| |] eqn:E;
          cbn [bind] in H; try discriminate.
        destruct (Set_clips rest buffer format start0 len) as [rest1| |] eqn:Er;
          cbn [bind] in H; try discriminate.
        inversion H. subst clips'. constructor; [|apply IH; reflexivity].
        apply WaveClip_SetSamples_same_audio in E. apply E.
      * destruct (WaveClip_SetSamples clip _ format _ _) as [clip1| |] eqn:E;
          cbn [bind] in H; try discriminate.
        destruct (Set_clips rest buffer format start0 len) as [rest1| |] eqn:Er;
          cbn [bind] in H; try discriminate.
        inversion H. subst clips'. constructor; [|apply IH; reflexivity].
        apply WaveClip_SetSamples_same_audio in E. apply E.
    + destruct (Set_clips rest buffer format start0 len) as [rest1| |] eqn:Er;
        cbn [bind] in H; try discriminate.
      inversion H. subst clips'. constructor; [|apply IH; reflexivity].
      unfold same_audio. repeat split; reflexivity.
Qed.

Lemma Get_clips_same_audio (clips clips' : list WaveClip) :
  Forall2 same_audio clips clips' ->
  forall (mem : memory) (format : sampleFormat) (start0 : Z) (len : nat)
         (mayThrow result : bool) (copied : Z),
    Get_clips clips' mem format start0 len mayThrow result copied
    = Get_clips clips mem format start0 len mayThrow result copied.
Proof.
  induction 1 as [|c c' rest rest' Hc Hrest IH];
    intros mem format start0 len mayThrow result copied.
  - reflexivity.
  - destruct Hc as (Hoff & Hrate & Hseq & _).
    cbn [Get_clips].
    unfold GetEndSample, GetStartSample, WaveClip_GetNumSamples, GetSamples.
    rewrite Hoff, Hrate, Hseq.
    destruct ((start0 <? _) && (_ <? start0 + Z.of_nat len)); [|apply IH].
    destruct (_ - start0 <? 0).
    + destruct (Sequence_Get (mSequence c) mem _ format _ _ mayThrow) as [[ok m]| |];
        cbn [bind]; try reflexivity.
      destruct ok; apply IH.
    + destruct (Sequence_Get (mSequence c) mem _ format _ _ mayThrow) as [[ok m]| |];
        cbn [bind]; try reflexivity.
      destruct ok; apply IH.
Qed.

Lemma existsb_same_audio (clips clips' : list WaveClip) (start0 : Z) (len : nat) :
  Forall2 same_audio clips clips' ->
  existsb (fun clip => (GetStartSample clip <=? start0)
                       && (start0 + Z.of_nat len <=? GetEndSample clip)) clips'
  = existsb (fun clip => (GetStartSample clip <=? start0)
                         && (start0 + Z.of_nat len <=? GetEndSample clip)) clips.
Proof.
  induction 1 as [|c c' rest rest' Hc Hrest IH]; [reflexivity|].
  destruct Hc as (Hoff & Hrate & Hseq & _).
  cbn [existsb]. rewrite IH. unfold GetEndSample, GetStartSample.
  rewrite Hoff, Hrate, Hseq. reflexivity.
Qed.

Lemma Set_clips_returns (buffer : list sample) (format : sampleFormat)
    (start0 : Z) (len : nat) :
  forall (clips : list WaveClip),
    forallb (fun c => Sequence_ok (mSequence c)) clips = true ->
    forallb (fun c => Sequence_complete (mSequence c)) clips = true ->
    (forall c, In c clips -> 0 < WaveClip_GetNumSamples c) ->
    exists clips', Set_clips clips buffer format start0 len = Returned clips'.
Proof.
  induction clips as [|clip rest IH]; intros Hok Hcomplete Hfull.
  - eexists. reflexivity.
  - cbn [forallb] in Hok, Hcomplete.
    apply andb_true_iff in Hok. destruct Hok as [Hok1 Hok2].
    apply andb_true_iff in Hcomplete. destruct Hcomplete as [Hc1 Hc2].
    destruct (IH Hok2 Hc2) as (rest1 & Hrest).
    { intros c Hin. apply Hfull. right. exact Hin. }
    pose proof (Hfull clip (or_introl eq_refl)) as HN.
    cbn [Set_clips]. unfold GetEndSample, WaveClip_GetNumSamples in *.
    set (cs := GetStartSample clip). set (N := mNumSamples (mSequence clip)) in *.
    destruct ((start0 <? cs + N) && (cs <? start0 + Z.of_nat len)) eqn:Hov.
    + apply andb_true_iff in Hov. rewrite !Z.ltb_lt in Hov.
      destruct (Z.ltb_spec (cs - start0) 0) as [Hneg|Hpos].
      * unfold WaveClip_SetSamples.
        destruct (Sequence_SetSamples_spec (mSequence clip)
                    (Some (skipn (Z.to_nat 0) buffer)) format (- (cs - start0))
                    (Z.of_nat (Z.to_nat (Z.min (start0 + Z.of_nat len - cs) N
                                         - - (cs - start0)))))
          as (_ & _ & Hret).
        rewrite Hret; [|exact Hok1|exact Hc1|fold N; lia|fold N; lia].
        cbn [bind]. rewrite Hrest. cbn [bind]. eexists. reflexivity.
      * unfold WaveClip_SetSamples.
        destruct (Sequence_SetSamples_spec (mSequence clip)
                    (Some (skipn (Z.to_nat (cs - start0)) buffer)) format 0
                    (Z.of_nat (Z.to_nat (Z.min (start0 + Z.of_nat len - cs) N))))
          as (_ & _ & Hret).
        rewrite Hret; [|exact Hok1|exact Hc1|fold N; lia|fold N; lia].
        cbn [bind]. rewrite Hrest. cbn [bind]. eexists. reflexivity.
    + rewrite Hrest. cbn [bind]. eexists. reflexivity.
Qed.

(** X25: [Sequence::SetSamples] ends once it has built its new block array,
    without installing it: whenever it returns, the sequence is the one it
    was called on.  It throws [InconsistencyException] for a range that
    starts before sample 0 or ends past the last sample, and it returns for
    every range that starts inside a consistent sequence of complete block
    files and ends within it. *)
Theorem Sequence_SetSamples_installs_nothing (s : Sequence)
    (buffer : option (list sample)) (format : sampleFormat) (start0 len : Z) :
  (forall s', Sequence_SetSamples s buffer format start0 len = Returned s' -> s' = s)
  /\ (start0 < 0 \/ mNumSamples s < start0 + len ->
      Sequence_SetSamples s buffer format start0 len = Thrown InconsistencyException)
  /\ (Sequence_ok s = true -> Sequence_complete s = true ->
      0 <= start0 < mNumSamples s -> start0 + len <= mNumSamples s ->
      Sequence_SetSamples s buffer format start0 len = Returned s).
Proof.
  exact (Sequence_SetSamples_spec s buffer format start0 len).
Qed.

(** X26: [WaveTrack::Set] never changes what [WaveTrack::Get] reads: on the
    track it returns every clip has the offset, rate, sequence, append
    buffer and envelope it had, and every [Get] gives the outcome it gave
    before the call.  It returns on every track of consistent, non-empty
    clips whose block files are complete. *)
Theorem Set_leaves_Get_unchanged (tr : WaveTrack) (data : list sample)
    (format : sampleFormat) (start0 : Z) (len : nat) :
  (forall tr',
     WaveTrack_Set tr data format start0 len = Returned tr' ->
     Forall2 same_audio (mClips tr) (mClips tr')
     /\ forall buffer fmt st n fill mayThrow,
          WaveTrack_Get tr' buffer fmt st n fill mayThrow
          = WaveTrack_Get tr buffer fmt st n fill mayThrow)
  /\ (track_ok tr = true -> track_complete tr = true ->
      (forall c, In c (mClips tr) -> 0 < WaveClip_GetNumSamples c) ->
      exists tr', WaveTrack_Set tr data format start0 len = Returned tr').
Proof.
  split.
  - intros tr' H. unfold WaveTrack_Set in H.
    destruct (Set_clips (mClips tr) data format start0 len) as [clips1| |] eqn:E;
      cbn [bind] in H; try discriminate.
    inversion H. subst tr'. cbn [with_clips mClips].
    pose proof (Set_clips_same_audio data format start0 len _ _ E) as Hsame.
    split; [exact Hsame|].
    intros buffer fmt st n fill mayThrow. unfold WaveTrack_Get. cbn [with_clips mClips].
    rewrite (existsb_same_audio _ _ st n Hsame).
    destruct (negb _); [destruct fill|]; cbn [bind];
      try (destruct (sampleFormat_eqb fmt floatSample); cbn [bind]);
      try reflexivity; apply Get_clips_same_audio; exact Hsame.
  - intros Hok Hcomplete Hfull. unfold WaveTrack_Set.
    destruct (Set_clips_returns data format start0 len (mClips tr) Hok Hcomplete Hfull)
      as (clips' & Hrun).
    rewrite Hrun. cbn [bind]. eexists. reflexivity.
Qed.

(** ** Importing a PCM file *)

Lemma truncate_inject_Z (z : Z) : truncate (inject_Z z) = z.
Proof.
  unfold truncate. destruct (Qlt_bool (inject_Z z) 0).
  - apply Qceiling_Z.
  - apply Qfloor_Z.
Qed.

Lemma Sequence_new_wf (format : sampleFormat) :
  (2 <= sMaxDiskBlockSize / SAMPLE_SIZE format)%nat ->
  Sequence_wf (Sequence_new format).
Proof.
  intro Hsize. unfold Sequence_wf, Sequence_new.
  cbn [mBlock mNumSamples mMaxSamples mMinSamples mSampleFormat].
  assert (1 <= sMaxDiskBlockSize / SAMPLE_SIZE format / 2)%nat.
  { apply Nat.div_le_lower_bound; lia. }
  split; [exact I|]. split; [reflexivity|]. split; [constructor|]. split; lia.
Qed.

Lemma length_deinterleave (src : list sample) (channels c block : nat) :
  length (deinterleave src channels c block) = block.
Proof.
  unfold deinterleave. rewrite length_map, length_seq. reflexivity.
Qed.

Lemma nth_deinterleave (src : list sample) (channels c block j : nat) :
  (j < block)%nat ->
  nth j (deinterleave src channels c block) 0%Q = nth (channels * j + c) src 0%Q.
Proof.
  intro Hj. unfold deinterleave.
  rewrite (nth_indep _ 0%Q ((fun j0 => nth (channels * j0 + c) src 0%Q) O))
    by (rewrite length_map, length_seq; exact Hj).
  rewrite (map_nth (fun j0 => nth (channels * j0 + c) src 0%Q)).
  rewrite seq_nth by exact Hj. reflexivity.
Qed.

Lemma map_seq_shift {A : Type} (g : nat -> A) (k : nat) :
  forall (m a : nat),
    map g (seq (k + a) m) = map (fun j => g (k + j)%nat) (seq a m).
Proof.
  induction m as [|m IH]; intro a; [reflexivity|].
  cbn [seq map]. f_equal. rewrite <- IH. f_equal. f_equal. lia.
Qed.

Lemma frames_after_block (L channels block : nat) :
  (0 < channels)%nat -> (block <= L / channels)%nat ->
  ((L - block * channels) / channels = L / channels - block)%nat.
Proof.
  intros Hch Hblock.
  assert (Hle : (block * channels <= L)%nat).
  { pose proof (Nat.Div0.mul_div_le L channels). nia. }
  replace L with (block * channels + (L - block * channels))%nat at 2 by lia.
  rewrite Nat.div_add_l by lia. lia.
Qed.

Lemma deinterleave_split (file : list sample) (channels c block : nat) :
  (c < channels)%nat -> (block <= length file / channels)%nat ->
  deinterleave (firstn (block * channels) file) channels c block
  ++ deinterleave (skipn (block * channels) file) channels c
                  (length file / channels - block)
  = deinterleave file channels c (length file / channels).
Proof.
  intros Hc Hblock. unfold deinterleave.
  set (F := (length file / channels)%nat) in *.
  assert (Hs : seq 0 F = seq 0 block ++ seq (0 + block) (F - block)).
  { rewrite <- seq_app. f_equal. lia. }
  rewrite Hs, map_app. f_equal.
  - apply map_ext_in. intros j Hj. apply in_seq in Hj.
    rewrite nth_firstn.
    destruct (Nat.ltb_spec (channels * j + c) (block * channels)); [reflexivity|nia].
  - replace (0 + block)%nat with (block + 0)%nat by lia.
    rewrite map_seq_shift. apply map_ext. intro j.
    rewrite nth_skipn. f_equal. nia.
Qed.

Section MoreAppending.

Hypothesis CopySample_same : forall fmt x, CopySample fmt fmt x = x.
Hypothesis sf_readf_same : forall fmt x, sf_readf fmt fmt x = x.




(** ** Converting the sample format *)






Lemma WaveTrack_Append_channel (tr : WaveTrack) (rate : Z) (vals data : list sample) :
  (2 <= sMaxDiskBlockSize / SAMPLE_SIZE floatSample)%nat ->
  channel_holds tr rate vals ->
  Z.of_nat (length vals + length data) <= 9223372036854775807 ->
  exists tr',
    WaveTrack_Append tr data floatSample (length data) 1 = Returned tr'
    /\ channel_holds tr' rate (vals ++ data).
Proof.
  intros Hsize (Hfmt & Hoff & Hrate & Hclips) Hfit.
  unfold WaveTrack_Append, RightmostOrNewClip.
  destruct (mClips tr) as [|c [|c2 rest]] eqn:Eclips; [| |contradiction].
  - subst vals. cbn [with_clips mClips nth_error].
    set (c0 := SetOffset (WaveClip_new (mFormat tr) (mRate tr)) (mOffset tr)).
    destruct (WaveClip_Append_spec CopySample_same sf_readf_same c0 data floatSample
                (length data))
      as (c' & Hrun & Hwf' & Hbuf' & Hfmt' & Hoff' & Hrate' & Hvals').
    { unfold c0. cbn. rewrite Hfmt. apply Sequence_new_wf. exact Hsize. }
    { unfold c0. cbn. lia. }
    { lia. }
    { unfold c0. cbn. cbn in Hfit. lia. }
    rewrite Hrun. cbn [bind set_clip]. eexists. split; [reflexivity|].
    unfold channel_holds. cbn [with_clips mFormat mOffset mRate mClips].
    split; [exact Hfmt|]. split; [exact Hoff|]. split; [exact Hrate|].
    split; [exact Hwf'|]. split.
    { rewrite Hfmt'. unfold c0. cbn. exact Hfmt. }
    split; [exact Hbuf'|]. split.
    { rewrite Hvals'. unfold c0. cbn. rewrite Hfmt.
      rewrite firstn_all. apply map_id_on. apply CopySample_same. }
    split.
    { rewrite Hoff'. unfold c0. cbn. exact Hoff. }
    { rewrite Hrate'. unfold c0. cbn. exact Hrate. }
  - destruct Hclips as (Hwf & Hsfmt & Hbuf & Hvals & Hcoff & Hcrate).
    cbn [rightmost_index]. rewrite Eclips. cbn [nth_error].
    destruct (WaveClip_Append_spec CopySample_same sf_readf_same c data floatSample
                (length data) Hwf Hbuf)
      as (c' & Hrun & Hwf' & Hbuf' & Hfmt' & Hoff' & Hrate' & Hvals').
    { lia. }
    { rewrite <- (wf_values_length _ Hwf). unfold mAppendBufferLen.
      rewrite <- Hvals, length_app in Hfit. lia. }
    rewrite Hrun. cbn [bind set_clip]. eexists. split; [reflexivity|].
    unfold channel_holds. cbn [with_clips mFormat mOffset mRate mClips].
    split; [exact Hfmt|]. split; [exact Hoff|]. split; [exact Hrate|].
    split; [exact Hwf'|]. split; [rewrite Hfmt'; exact Hsfmt|].
    split; [exact Hbuf'|]. split.
    { rewrite Hvals', Hsfmt, firstn_all, <- Hvals, <- app_assoc. f_equal. f_equal.
      apply map_id_on. apply CopySample_same. }
    split; [rewrite Hoff'; exact Hcoff|rewrite Hrate'; exact Hcrate].
Qed.

Lemma Import_append_spec (rate : Z) (srcbuffer : list sample) (channels block : nat) :
  (2 <= sMaxDiskBlockSize / SAMPLE_SIZE floatSample)%nat ->
  forall (tracks : list WaveTrack) (c0 : nat) (vals : nat -> list sample),
    (forall i tr, nth_error tracks i = Some tr ->
       channel_holds tr rate (vals (c0 + i)%nat)
       /\ Z.of_nat (length (vals (c0 + i)%nat) + block) <= 9223372036854775807) ->
    exists tracks',
      Import_append tracks srcbuffer channels c0 block = Returned tracks'
      /\ length tracks' = length tracks
      /\ forall i tr', nth_error tracks' i = Some tr' ->
           channel_holds tr' rate
             (vals (c0 + i)%nat ++ deinterleave srcbuffer channels (c0 + i) block).
Proof.
  intro Hsize. induction tracks as [|track rest IH]; intros c0 vals Hhold.
  - exists []. split; [reflexivity|]. split; [reflexivity|].
    intros i tr' H. destruct i; discriminate.
  - cbn [Import_append].
    destruct (Hhold O track eq_refl) as (Hh0 & Hfit0).
    rewrite Nat.add_0_r in Hh0, Hfit0.
    pose proof (length_deinterleave srcbuffer channels c0 block) as Hlen.
    destruct (WaveTrack_Append_channel track rate (vals c0)
                (deinterleave srcbuffer channels c0 block) Hsize Hh0)
      as (track1 & Hrun & Hh1).
    { rewrite Hlen. exact Hfit0. }
    rewrite Hlen in Hrun. rewrite Hrun. cbn [bind].
    destruct (IH (S c0) vals) as (rest1 & Hrest & Hlen1 & Hh).
    { intros i tr Hi. replace (S c0 + i)%nat with (c0 + S i)%nat by lia.
      apply (Hhold (S i) tr). exact Hi. }
    rewrite Hrest. cbn [bind]. eexists. split; [reflexivity|].
    split; [cbn [length]; rewrite Hlen1; reflexivity|].
    intros i tr' Hi. destruct i as [|i].
    + cbn in Hi. inversion Hi. subst tr'. rewrite Nat.add_0_r. exact Hh1.
    + cbn [nth_error] in Hi. replace (c0 + S i)%nat with (S c0 + i)%nat by lia.
      apply Hh. exact Hi.
Qed.

Lemma Import_loop_spec (rate : Z) (channels maxBlock : nat) :
  (2 <= sMaxDiskBlockSize / SAMPLE_SIZE floatSample)%nat ->
  (0 < channels)%nat -> (0 < maxBlock)%nat ->
  forall (fuel : nat) (tracks : list WaveTrack) (file : list sample)
         (vals : nat -> list sample),
    (length file / channels < fuel)%nat ->
    length tracks = channels ->
    (forall c tr, nth_error tracks c = Some tr ->
       channel_holds tr rate (vals c)
       /\ Z.of_nat (length (vals c) + length file / channels) <= 9223372036854775807) ->
    exists tracks',
      Import_loop fuel tracks file channels maxBlock = Returned tracks'
      /\ length tracks' = channels
      /\ forall c tr', nth_error tracks' c = Some tr' ->
           channel_holds tr' rate
             (vals c ++ deinterleave file channels c (length file / channels)).
Proof.
  intros Hsize Hch Hmax.
  induction fuel as [|fuel IH]; intros tracks file vals Hfuel Hlen Hhold; [lia|].
  cbn [Import_loop].
  set (frames := (length file / channels)%nat) in *.
  destruct (Nat.eqb_spec (Nat.min maxBlock frames) 0) as [E|E].
  - assert (Hf : frames = O) by lia.
    exists tracks. split; [reflexivity|]. split; [exact Hlen|].
    intros c tr' Hc. rewrite Hf. cbn. rewrite app_nil_r.
    apply (Hhold c tr' Hc).
  - set (block := Nat.min maxBlock frames) in *.
    destruct (Import_append_spec rate (firstn (block * channels) file) channels block Hsize
                tracks O vals) as (tracks1 & Hrun & Hlen1 & Hh1).
    { intros i tr Hi. cbn [Nat.add]. destruct (Hhold i tr Hi) as (Hh & Hfit).
      split; [exact Hh|]. lia. }
    rewrite Hrun. cbn [bind].
    assert (Hframes : (length (skipn (block * channels) file) / channels
                       = frames - block)%nat).
    { rewrite length_skipn. apply frames_after_block; [exact Hch|]. unfold frames. lia. }
    destruct (IH tracks1 (skipn (block * channels) file)
                 (fun c => vals c
                           ++ deinterleave (firstn (block * channels) file) channels c block))
      as (tracks2 & Hrun2 & Hlen2 & Hh2).
    { rewrite Hframes. lia. }
    { rewrite Hlen1. exact Hlen. }
    { intros c tr Hc. split; [apply (Hh1 c tr Hc)|].
      rewrite Hframes, length_app, length_deinterleave.
      assert (Hcl : (c < length tracks)%nat).
      { rewrite <- Hlen1. apply nth_error_Some. rewrite Hc. discriminate. }
      destruct (nth_error tracks c) as [tr0|] eqn:E0.
      - destruct (Hhold c tr0 E0) as (_ & Hfit). lia.
      - apply nth_error_None in E0. lia. }
    exists tracks2. split; [exact Hrun2|]. split; [exact Hlen2|].
    intros c tr' Hc. specialize (Hh2 c tr' Hc). cbn beta in Hh2.
    rewrite Hframes, <- app_assoc in Hh2.
    rewrite deinterleave_split in Hh2; [exact Hh2| |unfold frames in *; lia].
    rewrite <- Hlen2. apply nth_error_Some. rewrite Hc. discriminate.
Qed.

Lemma WaveTrack_Flush_channel (tr : WaveTrack) (rate : Z) (vals : list sample) :
  (2 <= sMaxDiskBlockSize / SAMPLE_SIZE floatSample)%nat ->
  channel_holds tr rate vals ->
  Z.of_nat (length vals) <= 9223372036854775807 ->
  exists tr',
    WaveTrack_Flush tr = Returned tr' /\ channel_flushed tr' rate vals.
Proof.
  intros Hsize (Hfmt & Hoff & Hrate & Hclips) Hfit.
  unfold WaveTrack_Flush, RightmostOrNewClip.
  destruct (mClips tr) as [|c [|c2 rest]] eqn:Eclips; [| |contradiction].
  - subst vals. cbn [with_clips mClips nth_error].
    unfold WaveClip_Flush. cbn [bind set_clip]. cbn.
    eexists. split; [reflexivity|].
    unfold channel_flushed. cbn [with_clips mFormat mRate mClips].
    split; [exact Hfmt|]. split; [exact Hrate|].
    eexists. split; [reflexivity|]. cbn.
    split; [rewrite Hfmt; apply Sequence_new_wf; exact Hsize|].
    split; [exact Hfmt|]. split; [reflexivity|]. split; [reflexivity|].
    split; [exact Hoff|exact Hrate].
  - destruct Hclips as (Hwf & Hsfmt & Hbuf & Hvals & Hcoff & Hcrate).
    cbn [rightmost_index]. rewrite Eclips. cbn [nth_error].
    destruct (WaveClip_Flush_spec CopySample_same sf_readf_same c Hwf)
      as (c' & Hrun & Hwf' & Hbuf' & Hfmt' & Hoff' & Hrate' & Hvals').
    { rewrite <- (wf_values_length _ Hwf). unfold mAppendBufferLen.
      rewrite <- Hvals, length_app in Hfit. lia. }
    rewrite Hrun. cbn [bind set_clip]. eexists. split; [reflexivity|].
    unfold channel_flushed. cbn [with_clips mFormat mRate mClips].
    split; [exact Hfmt|]. split; [exact Hrate|].
    exists c'. split; [reflexivity|]. split; [exact Hwf'|].
    split; [rewrite Hfmt'; exact Hsfmt|]. split; [exact Hbuf'|].
    split; [rewrite Hvals'; exact Hvals|].
    split; [rewrite Hoff'; exact Hcoff|rewrite Hrate'; exact Hcrate].
Qed.

Lemma Import_flush_spec (rate : Z) :
  (2 <= sMaxDiskBlockSize / SAMPLE_SIZE floatSample)%nat ->
  forall (tracks : list WaveTrack) (c0 : nat) (vals : nat -> list sample),
    (forall i tr, nth_error tracks i = Some tr ->
       channel_holds tr rate (vals (c0 + i)%nat)
       /\ Z.of_nat (length (vals (c0 + i)%nat)) <= 9223372036854775807) ->
    exists tracks',
      Import_flush tracks = Returned tracks'
      /\ length tracks' = length tracks
      /\ forall i tr', nth_error tracks' i = Some tr' ->
           channel_flushed tr' rate (vals (c0 + i)%nat).
Proof.
  intro Hsize. induction tracks as [|track rest IH]; intros c0 vals Hhold.
  - exists []. split; [reflexivity|]. split; [reflexivity|].
    intros i tr' H. destruct i; discriminate.
  - cbn [Import_flush].
    destruct (Hhold O track eq_refl) as (Hh0 & Hfit0).
    destruct (WaveTrack_Flush_channel track rate _ Hsize Hh0 Hfit0) as (track1 & Hrun & Hh1).
    rewrite Hrun. cbn [bind].
    destruct (IH (S c0) vals) as (rest1 & Hrest & Hlen1 & Hh).
    { intros i tr Hi. replace (S c0 + i)%nat with (c0 + S i)%nat by lia.
      apply (Hhold (S i) tr). exact Hi. }
    rewrite Hrest. cbn [bind]. eexists. split; [reflexivity|].
    split; [cbn [length]; rewrite Hlen1; reflexivity|].
    intros i tr' Hi. destruct i as [|i].
    + cbn in Hi. inversion Hi. subst tr'. exact Hh1.
    + cbn [nth_error] in Hi. replace (c0 + S i)%nat with (S c0 + i)%nat by lia.
      apply Hh. exact Hi.
Qed.

Lemma Import_channels_hold (channels : nat) (samplerate : Z) (c : nat) (tr : WaveTrack) :
  nth_error (Import_channels channels samplerate) c = Some tr ->
  channel_holds tr samplerate [] /\ mClips tr = [].
Proof.
  unfold Import_channels. intro H.
  apply nth_error_In in H. apply in_map_iff in H. destruct H as (i & Htr & _).
  subst tr. unfold channel_holds.
  destruct (1 <? channels)%nat; cbn; rewrite truncate_inject_Z; repeat split; reflexivity.
Qed.

(** X27: [PCMImportFileHandle::Import] of a file of one or more channels
    succeeds and returns one track per channel, at the file's sample rate;
    each track has a single flushed clip at time 0 whose samples are, in
    order, the samples of that channel in all the frames of the file:
    sample [j] of channel [c] is sample [channels * j + c] of the
    interleaved file.  No frame is lost or repeated, however the reads
    split the file into blocks. *)
Theorem Import_stores_every_frame (file : list sample) (channels : nat)
    (samplerate : Z) :
  (0 < channels)%nat ->
  (2 <= sMaxDiskBlockSize / SAMPLE_SIZE floatSample)%nat ->
  Z.of_nat (channels * SAMPLE_SIZE floatSample) <= 18446744073709551615 ->
  Z.of_nat (length file / channels) <= 9223372036854775807 ->
  exists tracks,
    Import file channels samplerate = Returned (Success, tracks)
    /\ length tracks = channels
    /\ forall c, (c < channels)%nat ->
         exists tr clip,
           nth_error tracks c = Some tr
           /\ mClips tr = [clip]
           /\ mRate tr = samplerate
           /\ mFormat tr = floatSample
           /\ GetStartSample clip = 0
           /\ mAppendBufferLen clip = O
           /\ Sequence_appendable (mSequence clip) = true
           /\ WaveClip_GetNumSamples clip = Z.of_nat (length file / channels)
           /\ sequence_values (mSequence clip)
              = deinterleave file channels c (length file / channels)
           /\ forall j, (j < length file / channels)%nat ->
                sequence_sample (mSequence clip) floatSample j
                = nth (channels * j + c) file 0%Q.
Proof.
  intros Hch Hsize Hbytes Hfit. unfold Import.
  assert (Hlenc : length (Import_channels channels samplerate) = channels).
  { unfold Import_channels. rewrite length_map, length_seq. reflexivity. }
  destruct (Import_channels channels samplerate) as [|first rest] eqn:Etracks.
  { cbn in Hlenc. lia. }
  assert (Hfirst : channel_holds first samplerate [] /\ mClips first = []).
  { apply (Import_channels_hold channels samplerate O). rewrite Etracks. reflexivity. }
  assert (Hss : (0 < SAMPLE_SIZE floatSample)%nat).
  { destruct (SAMPLE_SIZE floatSample); [cbn in Hsize; lia|lia]. }
  assert (Hdefault : (0 < mMaxSamples (Sequence_new floatSample))%nat).
  { apply (Sequence_new_wf floatSample Hsize). }
  assert (Hmaxblock : WaveTrack_GetMaxBlockSize first
                      = Returned (mMaxSamples (Sequence_new floatSample))).
  { unfold WaveTrack_GetMaxBlockSize.
    destruct Hfirst as ((Hfmt & _) & Hclips). rewrite Hclips.
    cbn [fold_left Nat.eqb]. rewrite Hfmt. unfold GetMaxBlockSize.
    destruct (Nat.ltb_spec 0 (mMaxSamples (Sequence_new floatSample))); [reflexivity|lia]. }
  rewrite Hmaxblock. cbn [bind].
  destruct (Nat.eqb_spec (channels * SAMPLE_SIZE floatSample) 0) as [E|_]; [nia|].
  set (maxBlock := Z.to_nat (Z.min (Z.of_nat (mMaxSamples (Sequence_new floatSample)))
                                   (18446744073709551615
                                    / Z.of_nat (channels * SAMPLE_SIZE floatSample)))).
  assert (Hmb : (0 < maxBlock)%nat).
  { unfold maxBlock.
    assert (1 <= 18446744073709551615 / Z.of_nat (channels * SAMPLE_SIZE floatSample)).
    { apply Z.div_le_lower_bound; nia. }
    lia. }
  destruct (Nat.ltb_spec maxBlock 1) as [Hlt|_]; [lia|].
  destruct (Import_loop_spec samplerate channels maxBlock Hsize Hch Hmb
              (S (length file / channels)) (first :: rest) file (fun _ => []))
    as (tracks1 & Hrun1 & Hlen1 & Hh1).
  { lia. }
  { exact Hlenc. }
  { intros c tr Hc. split.
    - apply (Import_channels_hold channels samplerate c tr). rewrite Etracks. exact Hc.
    - cbn [length Nat.add]. exact Hfit. }
  rewrite Hrun1. cbn [bind].
  destruct (Import_flush_spec samplerate Hsize tracks1 O
              (fun c => deinterleave file channels c (length file / channels)))
    as (tracks2 & Hrun2 & Hlen2 & Hh2).
  { intros i tr Hi. cbn [Nat.add]. split.
    - apply (Hh1 i tr Hi).
    - rewrite length_deinterleave. exact Hfit. }
  rewrite Hrun2. cbn [bind]. exists tracks2. split; [reflexivity|].
  split; [rewrite Hlen2; exact Hlen1|].
  intros c Hc.
  destruct (nth_error tracks2 c) as [tr|] eqn:Etr.
  2:{ apply nth_error_None in Etr. lia. }
  destruct (Hh2 c tr Etr) as (Hfmt & Hrate & clip & Hclips & Hwf & Hsfmt & Hbuf & Hvals
                              & Hoff & Hcrate).
  cbn [Nat.add] in Hvals.
  exists tr, clip. split; [reflexivity|]. split; [exact Hclips|].
  split; [exact Hrate|]. split; [exact Hfmt|]. split.
  { unfold GetStartSample. rewrite Hoff. reflexivity. }
  split; [unfold mAppendBufferLen; rewrite Hbuf; reflexivity|].
  split; [apply appendable_wf; exact Hwf|]. split.
  { unfold WaveClip_GetNumSamples. rewrite <- (wf_values_length _ Hwf), Hvals.
    rewrite length_deinterleave. reflexivity. }
  split; [exact Hvals|].
  intros j Hj. rewrite <- Hsfmt.
  rewrite (wf_sample_values sf_readf_same _ j Hwf), Hvals.
  apply nth_deinterleave. exact Hj.
Qed.

End MoreAppending.

End MoreFacts.

(** * Copying, deleting and pasting sample ranges *)

(** ** Sample ranges of lists and of memory *)














Section BlockRuns.

Context {X : Externals}.

(** ** Values of runs of blocks *)













Lemma wf_blocks_own (s : Sequence) :
  Sequence_wf s -> blocks_own (mSampleFormat s) (mMaxSamples s) (mBlock s).
Proof. intros (_ & _ & H & _). exact H. Qed.






Section OwnBlockReads.

Hypothesis CopySample_same : forall fmt x, CopySample fmt fmt x = x.
Hypothesis sf_readf_same : forall fmt x, sf_readf fmt fmt x = x.

(** ** Reads of blocks a sequence wrote itself *)



End OwnBlockReads.

End BlockRuns.

(** ** [Sequence::Copy] *)

Section Copying.

Context {X : Externals}.





Section CopyingOwn.

Hypothesis CopySample_same : forall fmt x, CopySample fmt fmt x = x.
Hypothesis sf_readf_same : forall fmt x, sf_readf fmt fmt x = x.





End CopyingOwn.

End Copying.

(** ** [Sequence::Delete] *)

Section Deleting.

Context {X : Externals}.







Section DeletingOwn.

Hypothesis CopySample_same : forall fmt x, CopySample fmt fmt x = x.
Hypothesis sf_readf_same : forall fmt x, sf_readf fmt fmt x = x.


End DeletingOwn.

End Deleting.

(** ** [Sequence::Paste] *)

Section Pasting.

Context {X : Externals}.


Section PastingOwn.

Hypothesis CopySample_same : forall fmt x, CopySample fmt fmt x = x.
Hypothesis sf_readf_same : forall fmt x, sf_readf fmt fmt x = x.




End PastingOwn.

End Pasting.

(** ** The three operations *)

Section Editing.

Context {X : Externals}.

Hypothesis CopySample_same : forall fmt x, CopySample fmt fmt x = x.
Hypothesis sf_readf_same : forall fmt x, sf_readf fmt fmt x = x.





End Editing.

(** ** The further properties at concrete stores *)

Lemma SimpleBlockFile_short_read_witness :
  ReadData truncated_file junk 0 floatSample 1 3 true = Thrown FileException_Read
  /\ exists mem',
       ReadData truncated_file junk 0 floatSample 1 3 false = Returned (1%nat, mem')
       /\ mem' 0%nat = (1 # 2)%Q /\ mem' 1%nat = 0%Q /\ mem' 3%nat = (7 # 1)%Q.
Proof.
  destruct (SimpleBlockFile_short_read 4 floatSample [1 # 4; 1 # 2]%Q junk 0
              floatSample 1 3)
    as (Hthrow & mem' & Hrun & Hgot & Hzero & Hrest); [cbn; lia|].
  split; [exact Hthrow|]. exists mem'. split; [exact Hrun|].
  split; [exact (Hgot 0%nat (1 # 2)%Q ltac:(lia) eq_refl)|].
  split; [apply (Hzero 1%nat); cbn; lia|apply Hrest; lia].
Defined.


Lemma FindBlock_finds_the_block_witness :
  Sequence_ok five_samples = true
  /\ exists b blk,
       FindBlock five_samples 3 = Returned b
       /\ nth_error (mBlock five_samples) b = Some blk
       /\ start blk <= 3 < start blk + Z.of_nat (GetLength (f blk)).
Proof.
  split; [reflexivity|].
  destruct (FindBlock_finds_the_block five_samples 3)
    as (b & blk & Hrun & Hb & Hin & _); [reflexivity|cbn; lia|].
  exists b, blk. split; [exact Hrun|]. split; [exact Hb|exact Hin].
Defined.

Lemma Sequence_Get_delivers_range_witness :
  Sequence_ok five_samples = true
  /\ exists ok mem',
       Sequence_Get five_samples junk 1 floatSample 1 3 true = Returned (ok, mem')
       /\ mem' 0%nat = (7 # 1)%Q /\ mem' 1%nat = (- (1 # 2))%Q
       /\ mem' 3%nat = (1 # 8)%Q /\ mem' 4%nat = (7 # 1)%Q /\ ok = true.
Proof.
  split; [reflexivity|].
  destruct (Sequence_Get_delivers_range five_samples junk 1 floatSample 1 3 true)
    as (ok & mem' & Hrun & Hgot & Hrest & Hok);
    [reflexivity|lia|cbn; lia|right; reflexivity|].
  exists ok, mem'. split; [exact Hrun|].
  split; [apply Hrest; lia|].
  split; [exact (Hgot 0%nat ltac:(lia))|].
  split; [exact (Hgot 2%nat ltac:(lia))|].
  split; [apply Hrest; lia|exact (Hok eq_refl)].
Defined.


Lemma ConsistencyCheck_accepts_exactly_witness :
  ConsistencyCheck (mBlock five_samples) 16 0 5 = true
  /\ chained (mBlock five_samples) 0.
Proof.
  split; [reflexivity|].
  apply (ConsistencyCheck_accepts_exactly (mBlock five_samples) 16 5). reflexivity.
Defined.

Lemma Get_mayThrow_returns_only_success_witness :
  exists buffer',
    WaveTrack_Get (one_clip_track three_samples []) junk floatSample (-1) 5 fillZero true
    = Returned (true, buffer', 3)
    /\ WaveTrack_Get (one_clip_track three_samples []) junk floatSample (-1) 5
                     fillZero false
       = Returned (true, buffer', 3).
Proof.
  eexists. split; [reflexivity|].
  eapply Get_mayThrow_returns_only_success. reflexivity.
Defined.

Lemma Get_fill_outside_clips_witness :
  track_ok (one_clip_track three_samples []) = true
  /\ exists ok buffer' copied,
       WaveTrack_Get (one_clip_track three_samples []) junk floatSample (-1) 5
                     fillTwo true
       = Returned (ok, buffer', copied)
       /\ buffer' 0%nat = (2 # 1)%Q /\ buffer' 1%nat = (1 # 4)%Q
       /\ buffer' 4%nat = (2 # 1)%Q /\ buffer' 5%nat = (7 # 1)%Q.
Proof.
  split; [reflexivity|].
  destruct (Get_fill_outside_clips (one_clip_track three_samples []) junk floatSample
              (-1) 5 fillTwo true)
    as (ok & buffer' & copied & Hrun & Hout & Hin & Hrest);
    [reflexivity|right; reflexivity|reflexivity|].
  exists ok, buffer', copied. split; [exact Hrun|].
  split; [|split; [|split]].
  - apply Hout; [lia|]. intros c [<-|[]]. reflexivity.
  - rewrite (Hin eq_refl 1%nat (clip_of three_samples 0 [])); [reflexivity|lia| |reflexivity].
    left. reflexivity.
  - apply Hout; [lia|]. intros c [<-|[]]. reflexivity.
  - apply Hrest. lia.
Defined.




Lemma RightmostOrNewClip_is_rightmost_witness :
  exists c,
    nth_error (mClips two_clip_track) 1 = Some c
    /\ forall c', In c' (mClips two_clip_track) -> (clip_mOffset c' <= clip_mOffset c)%Q.
Proof.
  destruct (RightmostOrNewClip_is_rightmost two_clip_track two_clip_track 1 eq_refl)
    as (c & Hc & Hmax & _).
  exists c. split; [exact Hc|exact Hmax].
Defined.

Lemma SetPan_never_amplifies_witness :
  (0 <= mGain empty_track)%Q
  /\ (mPan (SetPan empty_track (3 # 1)) <= 1)%Q
  /\ (GetChannelGain (SetPan empty_track (3 # 1)) 1 <= mGain empty_track)%Q.
Proof.
  split; [discriminate|].
  destruct (SetPan_never_amplifies empty_track (3 # 1) 1) as (_ & Hhi & _ & _ & Hle & _);
    [discriminate|].
  split; [exact Hhi|exact Hle].
Defined.

Lemma TimeToSamplesClip_within_clip_witness :
  0 < clip_mRate (clip_of three_samples 1 [])
  /\ 0 <= TimeToSamplesClip (clip_of three_samples 1 []) (5 # 1) <= 3.
Proof.
  split; [reflexivity|].
  apply (TimeToSamplesClip_within_clip (clip_of three_samples 1 []) (5 # 1) (5 # 1));
    [reflexivity|cbn; lia].
Defined.


Lemma IsEmpty_means_no_clip_within_witness :
  IsEmpty two_clip_track (1 # 2) (3 # 4) = true
  /\ WithinClip (clip_of three_samples 0 []) (2 # 3) = false.
Proof.
  split; [reflexivity|].
  apply (IsEmpty_means_no_clip_within two_clip_track (1 # 2) (3 # 4) (2 # 3)).
  - intros c' [<-|[<-|[]]]; cbn; lia.
  - reflexivity.
  - discriminate.
  - discriminate.
  - left. reflexivity.
Defined.


Lemma GetBestBlockSize_ends_on_block_boundary_witness :
  Sequence_ok five_samples = true
  /\ exists r,
       Sequence_GetBestBlockSize five_samples 1 = Returned r
       /\ (0 < r <= 16)%nat
       /\ 1 + Z.of_nat r <= 5.
Proof.
  split; [reflexivity|].
  destruct (GetBestBlockSize_ends_on_block_boundary five_samples 1)
    as (r & Hrun & Hr & Hin & _); [reflexivity|cbn; lia|].
  exists r. split; [exact Hrun|]. split; [exact Hr|].
  apply Hin. cbn. lia.
Defined.

Lemma GetBlockStart_is_start_of_block_witness :
  Sequence_ok five_samples = true
  /\ exists st,
       Sequence_GetBlockStart five_samples 3 = Returned st
       /\ 0 <= st <= 3
       /\ Sequence_GetBlockStart five_samples st = Returned st.
Proof.
  split; [reflexivity|].
  destruct (GetBlockStart_is_start_of_block five_samples 3)
    as (st & Hrun & Hr & _ & Hagain); [reflexivity|cbn; lia|].
  exists st. split; [exact Hrun|]. split; [exact Hr|exact Hagain].
Defined.

Lemma WaveTrack_GetBlockStart_finds_clip_witness :
  track_ok two_clip_track = true
  /\ exists v,
       WaveTrack_GetBlockStart two_clip_track 7 = Returned v
       /\ v = -1.
Proof.
  split; [reflexivity|].
  destruct (WaveTrack_GetBlockStart_finds_clip two_clip_track 7)
    as (v & Hrun & Hnone & _); [reflexivity|].
  exists v. split; [exact Hrun|].
  apply Hnone. intros c [<-|[<-|[]]]; reflexivity.
Defined.

Lemma WaveTrack_GetBestBlockSize_fits_maximum_witness :
  track_ok two_clip_track = true
  /\ exists m r,
       WaveTrack_GetMaxBlockSize two_clip_track = Returned m
       /\ WaveTrack_GetBestBlockSize two_clip_track 44101 = Returned r
       /\ (0 < r <= m)%nat.
Proof.
  split; [reflexivity|].
  destruct (WaveTrack_GetBestBlockSize_fits_maximum two_clip_track 44101)
    as (m & r & Hm & Hrun & Hr & _); [reflexivity|cbn; lia|].
  exists m, r. split; [exact Hm|]. split; [exact Hrun|exact Hr].
Defined.



Lemma Sequence_SetSamples_installs_nothing_witness :
  Sequence_ok five_samples = true
  /\ Sequence_SetSamples five_samples (Some ramp) floatSample 1 3 = Returned five_samples
  /\ Sequence_SetSamples five_samples (Some ramp) floatSample 3 3
     = Thrown InconsistencyException.
Proof.
  split; [reflexivity|].
  destruct (Sequence_SetSamples_installs_nothing five_samples (Some ramp) floatSample 1 3)
    as (_ & _ & Hret).
  destruct (Sequence_SetSamples_installs_nothing five_samples (Some ramp) floatSample 3 3)
    as (_ & Hthrow & _).
  split.
  - apply Hret; [reflexivity|reflexivity|cbn; lia|cbn; lia].
  - apply Hthrow. right. cbn. lia.
Defined.

Lemma Set_leaves_Get_unchanged_witness :
  track_ok two_clip_track = true
  /\ exists tr',
       WaveTrack_Set two_clip_track ramp floatSample 1 5 = Returned tr'
       /\ WaveTrack_Get tr' junk floatSample 0 4 fillZero true
          = WaveTrack_Get two_clip_track junk floatSample 0 4 fillZero true.
Proof.
  split; [reflexivity|].
  destruct (Set_leaves_Get_unchanged two_clip_track ramp floatSample 1 5)
    as (Hsame & Hreturns).
  destruct Hreturns as (tr' & Hrun); [reflexivity|reflexivity| |].
  - intros c [<-|[<-|[]]]; reflexivity.
  - exists tr'. split; [exact Hrun|].
    destruct (Hsame tr' Hrun) as (_ & Hget). apply Hget.
Defined.

Lemma Import_stores_every_frame_witness :
  exists tracks tr clip,
    Import stereo_file 2 44100 = Returned (Success, tracks)
    /\ length tracks = 2%nat
    /\ nth_error tracks 1 = Some tr
    /\ mClips tr = [clip]
    /\ WaveClip_GetNumSamples clip = 3
    /\ sequence_values (mSequence clip) = deinterleave stereo_file 2 1 3.
Proof.
  destruct (@Import_stores_every_frame small_blocks (fun _ _ => eq_refl)
              (fun _ _ => eq_refl) stereo_file 2 44100)
    as (tracks & Hrun & Hlen & Hall); [lia|cbn; lia|cbn; lia|cbn; lia|].
  destruct (Hall 1%nat ltac:(lia))
    as (tr & clip & Hnth & Hclips & _ & _ & _ & _ & _ & Hnum & Hvals & _).
  exists tracks, tr, clip. split; [exact Hrun|]. split; [exact Hlen|].
  split; [exact Hnth|]. split; [exact Hclips|]. split; [exact Hnum|exact Hvals].
Defined.




